(** * Pyrrha Development Tools: the linting orchestrator [scripts/lint-all.js]

    A shallow embedding of the orchestrator and the properties of its
    dispatch, aggregation and exit-code logic.

    The orchestrator talks to the outside world through Node's [fs], [path]
    and [child_process] modules.  The embedding keeps those as an explicit
    interface ([Host]) over an abstract world state that every child process
    may change, and runs the program in a small monad that threads the world,
    collects what the program prints and which commands it spawns, and
    distinguishes a normal return from a thrown exception and from
    [process.exit]. *)

From Stdlib Require Import String Ascii List ZArith Lia Bool DecimalString.
From stdpp Require Import gmap strings list.

Import ListNotations.
Local Open Scope string_scope.
Local Open Scope list_scope.
Local Open Scope Z_scope.

(** ** JavaScript library functions used by the script *)

Module JS.

(** [Array.prototype.includes] on an array of strings. *)
Definition includes (xs : list string) (x : string) : bool :=
  existsb (String.eqb x) xs.

(** [String.prototype.startsWith]. *)
Definition startsWith (s p : string) : bool := String.prefix p s.

(** [String.prototype.split] with a one-character separator: the result
    always has at least one piece. *)
Fixpoint split (sep : ascii) (s : string) : list string :=
  match s with
  | EmptyString => [EmptyString]
  | String a s' =>
      if Ascii.eqb a sep then EmptyString :: split sep s'
      else match split sep s' with
           | [] => [String a EmptyString]
           | piece :: pieces => String a piece :: pieces
           end
  end.

(** [Array.prototype.join]. *)
Definition join (sep : string) (xs : list string) : string :=
  String.concat sep xs.

(** Conversion of a non-negative integer in a template literal. *)
Definition toString (n : nat) : string :=
  NilEmpty.string_of_uint (Nat.to_uint n).

(** [a || b] on values that are a string, or null/undefined ([None]):
    the empty string is falsy as well. *)
Definition or_else (a b : option string) : option string :=
  match a with
  | Some EmptyString | None => b
  | Some _ => a
  end.

(** Property lookup [obj[key]] on an object literal, by own keys in
    insertion order.  The script looks up names that start with [Pyrrha-]
    only, none of which is inherited from [Object.prototype]. *)
Fixpoint prop {A : Type} (obj : list (string * A)) (key : string) : option A :=
  match obj with
  | [] => None
  | (k, v) :: rest => if String.eqb key k then Some v else prop rest key
  end.

(** [Object.keys]. *)
Definition keys {A : Type} (obj : list (string * A)) : list string :=
  map fst obj.

End JS.

(** ** Values exchanged with the host *)

(** The [stdio] option handed to [execSync]. *)
Inductive Stdio := Inherit | Pipe.

(** The arguments of one [execSync(command, options)] call. *)
Record ExecRequest := {
  command : string;
  cwd : string;
  env : gmap string string;
  stdio : Stdio;
  encoding : string
}.

(** What the host reports about a finished child process.  [status] is the
    exit status, [None] when the child did not exit by itself (it could not
    be spawned, or a signal killed it). *)
Record ChildResult := {
  status : option Z;
  child_stdout : option string;
  child_stderr : option string;
  failure_message : string
}.

(** JavaScript exceptions the program can meet. *)
Inductive Exn :=
| ExecFailed (message : string) (stdout stderr : option string)
| FsFailed (syscall path : string)
| TypeError (message : string).

Definition exn_message (e : Exn) : string :=
  match e with
  | ExecFailed m _ _ => m
  | FsFailed syscall path => syscall +:+ " " +:+ path
  | TypeError m => m
  end.

Definition exn_stdout (e : Exn) : option string :=
  match e with ExecFailed _ out _ => out | _ => None end.

Definition exn_stderr (e : Exn) : option string :=
  match e with ExecFailed _ _ err => err | _ => None end.

(** The [type] argument of [PyrrhaLinter.log], which selects the colour. *)
Inductive LogType := Info | Success | Warn | Error | Header.

(** What a run leaves behind, in order: lines printed through [log],
    values printed by [console.log] and [console.error], every [execSync]
    call, and every object pushed on the [results] arrays of
    [lintRepository] and [run]. *)
Inductive Event :=
| EvLog (type : LogType) (message : string)
| EvConsoleLog (value : option string)
| EvConsoleError (label : string) (error : Exn)
| EvExec (req : ExecRequest)
| EvScriptResult (script : string) (success : bool)
| EvRepoResult (repo : string) (success : bool).

(** The host: Node's [fs], [path], [child_process] and [process] as seen by
    the script, over a world [W].  [None] from [readdirSync] or [statSync]
    means that the call throws. *)
Record Host (W : Type) := {
  dirname : string;
  process_env : gmap string string;
  path_resolve : list string -> string;
  path_join : list string -> string;
  readdirSync : W -> string -> option (list string);
  statSync_isDirectory : W -> string -> option bool;
  existsSync : W -> string -> bool;
  spawn : W -> ExecRequest -> ChildResult * W
}.

Arguments dirname {W} _.
Arguments process_env {W} _.
Arguments path_resolve {W} _ _.
Arguments path_join {W} _ _.
Arguments readdirSync {W} _ _ _.
Arguments statSync_isDirectory {W} _ _ _.
Arguments existsSync {W} _ _ _.
Arguments spawn {W} _ _ _.

(** ** The effect monad *)

Inductive Res (A : Type) :=
| Ret (a : A)
| Throw (e : Exn)
| Exit (code : Z).

Arguments Ret {A} a.
Arguments Throw {A} e.
Arguments Exit {A} code.

Definition M (W A : Type) : Type := W -> Res A * W * list Event.

Definition ret {W A} (a : A) : M W A := fun w => (Ret a, w, []).

Definition bind {W A B} (m : M W A) (f : A -> M W B) : M W B :=
  fun w =>
    match m w with
    | (Ret a, w1, o1) =>
        match f a w1 with (r, w2, o2) => (r, w2, o1 ++ o2) end
    | (Throw e, w1, o1) => (Throw e, w1, o1)
    | (Exit c, w1, o1) => (Exit c, w1, o1)
    end.

Definition emit {W} (e : Event) : M W unit := fun w => (Ret tt, w, [e]).

Definition throw {W A} (e : Exn) : M W A := fun w => (Throw e, w, []).

(** [process.exit(code)]. *)
Definition process_exit {W A} (code : Z) : M W A := fun w => (Exit code, w, []).

(** [try { body } catch (error) { handler }]; [process.exit] is not caught. *)
Definition try_catch {W A} (body : M W A) (handler : Exn -> M W A) : M W A :=
  fun w =>
    match body w with
    | (Throw e, w1, o1) =>
        match handler e w1 with (r, w2, o2) => (r, w2, o1 ++ o2) end
    | other => other
    end.

Declare Scope js_scope.
Delimit Scope js_scope with js.
Notation "x <- c1 ;; c2" := (bind c1 (fun x => c2))
  (at level 100, c1 at next level, right associativity) : js_scope.
Notation "c1 ;; c2" := (bind c1 (fun _ => c2))
  (at level 100, right associativity) : js_scope.
Local Open Scope js_scope.

(** [for (const x of xs) { ... }] with the loop's mutable local as [s]. *)
Fixpoint forOf {W A S} (xs : list A) (body : S -> A -> M W S) (s : S) : M W S :=
  match xs with
  | [] => ret s
  | x :: xs' => s' <- body s x ;; forOf xs' body s'
  end.

(** [xs.forEach(x => { ... })]. *)
Definition forEach {W A} (xs : list A) (body : A -> M W unit) : M W unit :=
  forOf xs (fun _ x => body x) tt.

Definition result_of {W A} (r : Res A * W * list Event) : Res A := r.1.1.
Definition world_of {W A} (r : Res A * W * list Event) : W := r.1.2.
Definition trace_of {W A} (r : Res A * W * list Event) : list Event := r.2.

(** ** The program *)

(** One entry of [REPO_CONFIGS].  The optional flags are [true] where the
    object literal sets them and [false] where it leaves them out; the
    orchestrator never reads them. *)
Record RepoConfig := {
  type : string;
  languages : list string;
  hasReact : bool;
  hasFlask : bool;
  hasNodeAuth : bool;
  hasArduino : bool;
  scripts : list string
}.

Definition REPO_CONFIGS : list (string * RepoConfig) :=
  [ ("Pyrrha-Dashboard",
      {| type := "multi-stack"; languages := ["javascript"; "python"];
         hasReact := true; hasFlask := true; hasNodeAuth := true;
         hasArduino := false; scripts := ["lint-dashboard.sh"] |});
    ("Pyrrha-MQTT-Client",
      {| type := "nodejs"; languages := ["javascript"];
         hasReact := false; hasFlask := false; hasNodeAuth := false;
         hasArduino := false; scripts := ["lint-nodejs.sh"] |});
    ("Pyrrha-Rules-Decision",
      {| type := "python"; languages := ["python"];
         hasReact := false; hasFlask := false; hasNodeAuth := false;
         hasArduino := false; scripts := ["lint-python.sh"] |});
    ("Pyrrha-WebSocket-Server",
      {| type := "nodejs"; languages := ["javascript"];
         hasReact := false; hasFlask := false; hasNodeAuth := false;
         hasArduino := false; scripts := ["lint-nodejs.sh"] |});
    ("Pyrrha-Device-Simulator",
      {| type := "nodejs"; languages := ["javascript"];
         hasReact := false; hasFlask := false; hasNodeAuth := false;
         hasArduino := false; scripts := ["lint-nodejs.sh"] |});
    ("Pyrrha-Website",
      {| type := "react"; languages := ["javascript"];
         hasReact := true; hasFlask := false; hasNodeAuth := false;
         hasArduino := false; scripts := ["lint-nodejs.sh"] |});
    ("Pyrrha-Firmware",
      {| type := "cpp-arduino"; languages := ["cpp"; "c"];
         hasReact := false; hasFlask := false; hasNodeAuth := false;
         hasArduino := true; scripts := ["lint-cpp.sh"] |});
    ("Pyrrha-Mobile-App",
      {| type := "java-android"; languages := ["java"];
         hasReact := false; hasFlask := false; hasNodeAuth := false;
         hasArduino := false; scripts := [] |});
    ("Pyrrha-Watch-App",
      {| type := "web-hybrid"; languages := ["javascript"];
         hasReact := false; hasFlask := false; hasNodeAuth := false;
         hasArduino := false; scripts := ["lint-nodejs.sh"] |}) ].

(** An element of the array built by [discoverRepos]. *)
Record Repo := {
  name : string;
  path : string;
  config : RepoConfig
}.

(** The fields of a [PyrrhaLinter] object.  [targetRepos] is [None] for
    [null] (lint all repositories). *)
Record PyrrhaLinter := {
  workspaceRoot : string;
  toolsRoot : string;
  fixMode : bool;
  verbose : bool;
  targetRepos : option (list string)
}.

Definition dquote : string := String "034"%char EmptyString.

(** A line break. *)
Definition newline : string := String "010"%char EmptyString.

(** The command line handed to [execSync] by [runScript]. *)
Definition script_command (scriptPath : string) (args : list string) : string :=
  "chmod +x " +:+ dquote +:+ scriptPath +:+ dquote +:+ " && "
    +:+ dquote +:+ scriptPath +:+ dquote +:+ " " +:+ JS.join " " args.

Section Linter.

Context {W : Type} (host : Host W).

Definition WORKSPACE_ROOT : string := path_resolve host [dirname host; "../../"].
Definition TOOLS_ROOT : string := path_resolve host [dirname host; ".."].

(** *** Node primitives *)

Definition fs_readdirSync (dir : string) : M W (list string) :=
  fun w =>
    match readdirSync host w dir with
    | Some items => (Ret items, w, [])
    | None => (Throw (FsFailed "scandir" dir), w, [])
    end.

(** [fs.statSync(p).isDirectory()]. *)
Definition fs_statSync_isDirectory (p : string) : M W bool :=
  fun w =>
    match statSync_isDirectory host w p with
    | Some b => (Ret b, w, [])
    | None => (Throw (FsFailed "stat" p), w, [])
    end.

Definition fs_existsSync (p : string) : M W bool :=
  fun w => (Ret (existsSync host w p), w, []).

(** [child_process.execSync]: runs the command to completion and returns
    its output when the child exits with status 0; throws otherwise. *)
Definition execSync (req : ExecRequest) : M W (option string) :=
  fun w =>
    match spawn host w req with
    | (child, w') =>
        match status child with
        | Some 0 => (Ret (child_stdout child), w', [EvExec req])
        | _ =>
            (Throw (ExecFailed (failure_message child)
                      (child_stdout child) (child_stderr child)),
             w', [EvExec req])
        end
    end.

(** *** class PyrrhaLinter *)

Definition parseTargetRepos (argv : list string) : M W (option (list string)) :=
  match find (fun arg => JS.startsWith arg "--repo=") argv with
  | Some repoArg =>
      match nth_error (JS.split "="%char repoArg) 1 with
      | Some names => ret (Some (JS.split ","%char names))
      | None => throw (TypeError "Cannot read properties of undefined (reading 'split')")
      end
  | None => ret None
  end.

Definition constructor (argv : list string) : M W PyrrhaLinter :=
  let fixMode := JS.includes argv "--fix" in
  let verbose := JS.includes argv "--verbose" || JS.includes argv "-v" in
  targetRepos <- parseTargetRepos argv ;;
  ret {| workspaceRoot := WORKSPACE_ROOT;
         toolsRoot := TOOLS_ROOT;
         fixMode := fixMode;
         verbose := verbose;
         targetRepos := targetRepos |}.

Definition log (message : string) (type : LogType) : M W unit :=
  emit (EvLog type message).

Definition discoverRepos (self : PyrrhaLinter) : M W (list Repo) :=
  items <- fs_readdirSync (workspaceRoot self) ;;
  forOf items
    (fun repos item =>
       let fullPath := path_join host [workspaceRoot self; item] in
       isDirectory <- fs_statSync_isDirectory fullPath ;;
       if isDirectory && JS.startsWith item "Pyrrha-"
          && negb (String.eqb item "Pyrrha-Development-Tools")
       then
         match JS.prop REPO_CONFIGS item with
         | Some config =>
             ret (repos ++ [{| name := item; path := fullPath; config := config |}])
         | None =>
             log ("⚠️  Unknown repository: " +:+ item) Warn ;;
             ret repos
         end
       else ret repos)
    [].

Definition runScript (self : PyrrhaLinter) (scriptName repoPath repoName : string)
  : M W bool :=
  let scriptPath := path_join host [toolsRoot self; "scripts"; scriptName] in
  found <- fs_existsSync scriptPath ;;
  if negb found then
    log ("❌ Script not found: " +:+ scriptPath) Error ;;
    ret false
  else
    log ("📋 Running " +:+ scriptName +:+ " for " +:+ repoName +:+ "...") Info ;;
    try_catch
      (let args := if fixMode self then ["--fix"] else [] in
       let env := <["TOOLS_ROOT" := toolsRoot self]>
                    (<["REPO_NAME" := repoName]>
                       (<["REPO_PATH" := repoPath]> (process_env host))) in
       result <- execSync {| command := script_command scriptPath args;
                             cwd := repoPath;
                             env := env;
                             stdio := if verbose self then Inherit else Pipe;
                             encoding := "utf8" |} ;;
       log ("✅ " +:+ scriptName +:+ " completed for " +:+ repoName) Success ;;
       ret true)
      (fun error =>
         log ("❌ " +:+ scriptName +:+ " failed for " +:+ repoName +:+ ": "
                +:+ exn_message error) Error ;;
         (if verbose self
          then emit (EvConsoleLog (JS.or_else (exn_stdout error) (exn_stderr error)))
          else ret tt) ;;
         ret false).

Definition lintRepository (self : PyrrhaLinter) (repo : Repo) : M W bool :=
  log ("\n🔍 Linting " +:+ name repo) Header ;;
  results <- forOf (scripts (config repo))
               (fun results scriptName =>
                  success <- runScript self scriptName (path repo) (name repo) ;;
                  emit (EvScriptResult scriptName success) ;;
                  ret (results ++ [(scriptName, success)]))
               [] ;;
  let allPassed := forallb snd results in
  let status := if allPassed then "✅ PASSED" else "❌ FAILED" in
  log (status +:+ " " +:+ name repo) (if allPassed then Success else Error) ;;
  ret allPassed.

Definition run (self : PyrrhaLinter) : M W unit :=
  log "🚀 Pyrrha Platform - Centralized Linting" Header ;;
  log ("Mode: " +:+ (if fixMode self then "FIX" else "CHECK")) Info ;;
  repos <- discoverRepos self ;;
  let targetedRepos :=
    match targetRepos self with
    | Some requested => List.filter (fun r => JS.includes requested (name r)) repos
    | None => repos
    end in
  if Nat.eqb (length targetedRepos) 0 then
    log "No repositories found to lint" Warn ;;
    ret tt
  else
    log ("Found " +:+ JS.toString (length targetedRepos)
           +:+ " repositories to lint:\n") Info ;;
    forEach targetedRepos
      (fun repo =>
         log ("  • " +:+ name repo +:+ " (" +:+ type (config repo) +:+ ")") Info) ;;
    results <- forOf targetedRepos
                 (fun results repo =>
                    success <- lintRepository self repo ;;
                    emit (EvRepoResult (name repo) success) ;;
                    ret (results ++ [(name repo, success)]))
                 [] ;;
    log "\n📊 Summary:" Header ;;
    let passed := List.filter (fun r => snd r) results in
    let failed := List.filter (fun r => negb (snd r)) results in
    log ("✅ Passed: " +:+ JS.toString (length passed)) Success ;;
    if Nat.ltb 0 (length failed) then
      log ("❌ Failed: " +:+ JS.toString (length failed)) Error ;;
      forEach failed (fun f => log ("  • " +:+ fst f) Error) ;;
      process_exit 1
    else
      log "🎉 All repositories passed linting!" Success.

(** *** Usage and main execution *)

(** The text printed by [showUsage], without its colour codes. *)
Definition usage_text : string :=
  JS.join newline
    [ "";
      "Pyrrha Platform - Centralized Linting Tool";
      "";
      "Usage:";
      "  node lint-all.js [options]";
      "";
      "Options:";
      "  --fix                   Fix auto-fixable issues instead of just checking";
      "  --repo=repo1,repo2     Lint only specific repositories";
      "  --verbose, -v          Show detailed output";
      "  --help, -h             Show this help message";
      "";
      "Examples:";
      "  node lint-all.js                                    # Lint all repositories";
      "  node lint-all.js --fix                              # Fix all repositories  ";
      "  node lint-all.js --repo=Pyrrha-Dashboard            # Lint only Dashboard";
      "  node lint-all.js --repo=Pyrrha-Dashboard,Pyrrha-MQTT-Client --fix  # Fix specific repos";
      "";
      "Supported Repositories:";
      JS.join "\n" (map (fun name => "  • " +:+ name) (JS.keys REPO_CONFIGS));
      "" ].

Definition showUsage : M W unit := emit (EvConsoleLog (Some usage_text)).

(** The module body as a computation: the help check, then the linter;
    an exception of [run] reaches the [catch] handler of its promise. *)
Definition script (argv : list string) : M W unit :=
  if JS.includes argv "--help" || JS.includes argv "-h" then
    showUsage ;;
    process_exit 0
  else
    linter <- constructor argv ;;
    try_catch (run linter)
      (fun error =>
         emit (EvConsoleError "Fatal error:" error) ;;
         process_exit 1).

(** The exit code of the process: that of [process.exit] when it is
    called, 1 for an uncaught exception, 0 when the script runs to its
    end. *)
Definition exit_code {A} (r : Res A) : Z :=
  match r with
  | Ret _ => 0
  | Throw _ => 1
  | Exit code => code
  end.

Record Outcome := {
  exitCode : Z;
  final : W;
  output : list Event
}.

Definition main (argv : list string) (w : W) : Outcome :=
  match script argv w with
  | (r, w', out) => {| exitCode := exit_code r; final := w'; output := out |}
  end.

End Linter.

(** ** Reading a trace *)

(** The objects pushed on [results] in [lintRepository], in order. *)
Definition script_results (out : list Event) : list (string * bool) :=
  flat_map (fun e => match e with EvScriptResult s b => [(s, b)] | _ => [] end) out.

(** The objects pushed on [results] in [run], in order. *)
Definition repo_results (out : list Event) : list (string * bool) :=
  flat_map (fun e => match e with EvRepoResult r b => [(r, b)] | _ => [] end) out.

(** The [execSync] calls, in order. *)
Definition execs (out : list Event) : list ExecRequest :=
  flat_map (fun e => match e with EvExec req => [req] | _ => [] end) out.

(** The messages logged with type ['warn'], in order. *)
Definition warnings (out : list Event) : list string :=
  flat_map (fun e => match e with EvLog Warn m => [m] | _ => [] end) out.

(** Every event of every run of [m] satisfies [P]. *)
Definition emits_only {W A} (P : Event -> Prop) (m : M W A) : Prop :=
  forall w, Forall P (trace_of (m w)).

(** The value [parseTargetRepos] returns. *)
Definition requested (argv : list string) : option (list string) :=
  match find (fun arg => JS.startsWith arg "--repo=") argv with
  | Some repoArg =>
      match nth_error (JS.split "="%char repoArg) 1 with
      | Some names => Some (JS.split ","%char names)
      | None => None
      end
  | None => None
  end.

(** ** What each method does: the vocabulary of the specifications *)

Section Specification.

Context {W : Type} (host : Host W).

(** The path of a script, as [runScript] computes it. *)
Definition script_path (self : PyrrhaLinter) (scriptName : string) : string :=
  path_join host [toolsRoot self; "scripts"; scriptName].

(** The environment [runScript] builds for the child. *)
Definition script_env (self : PyrrhaLinter) (repoPath repoName : string)
  : gmap string string :=
  <["TOOLS_ROOT" := toolsRoot self]>
    (<["REPO_NAME" := repoName]>
       (<["REPO_PATH" := repoPath]> (process_env host))).

(** The [execSync] call [runScript] makes. *)
Definition script_request (self : PyrrhaLinter) (scriptName repoPath repoName : string)
  : ExecRequest :=
  {| command := script_command (script_path self scriptName)
                  (if fixMode self then ["--fix"] else []);
     cwd := repoPath;
     env := script_env self repoPath repoName;
     stdio := if verbose self then Inherit else Pipe;
     encoding := "utf8" |}.

(** [runScript] got to the script: it started it, or it reported that its
    file is missing. *)
Definition attempted (self : PyrrhaLinter) (repo : Repo) (scriptName : string)
  (out : list Event) : Prop :=
  In (EvLog Error ("❌ Script not found: " +:+ script_path self scriptName)) out
  \/ In (EvExec (script_request self scriptName (path repo) (name repo))) out.

(** The child exited with status 0. *)
Definition child_ok (child : ChildResult) : bool :=
  match status child with
  | Some 0 => true
  | _ => false
  end.

(** The loop of [lintRepository] over a list of script names. *)
Definition runScripts (self : PyrrhaLinter) (repo : Repo) (scriptNames : list string)
  (results : list (string * bool)) : M W (list (string * bool)) :=
  forOf scriptNames
    (fun results scriptName =>
       success <- runScript host self scriptName (path repo) (name repo) ;;
       emit (EvScriptResult scriptName success) ;;
       ret (results ++ [(scriptName, success)]))
    results.

(** The last line [lintRepository] logs. *)
Definition status_line (repo : Repo) (allPassed : bool) : Event :=
  EvLog (if allPassed then Success else Error)
    ((if allPassed then "✅ PASSED" else "❌ FAILED") +:+ " " +:+ name repo).

(** The loop of [run] over the targeted repositories. *)
Definition lintRepos (self : PyrrhaLinter) (targetedRepos : list Repo)
  (results : list (string * bool)) : M W (list (string * bool)) :=
  forOf targetedRepos
    (fun results repo =>
       success <- lintRepository host self repo ;;
       emit (EvRepoResult (name repo) success) ;;
       ret (results ++ [(name repo, success)]))
    results.

(** The path [discoverRepos] examines for an entry of the workspace. *)
Definition full_path (self : PyrrhaLinter) (item : string) : string :=
  path_join host [workspaceRoot self; item].

(** [statSync] answers for the entry. *)
Definition statable (self : PyrrhaLinter) (w : W) (item : string) : bool :=
  match statSync_isDirectory host w (full_path self item) with
  | Some _ => true
  | None => false
  end.

(** The element [discoverRepos] pushes for an entry of the workspace, if
    any: the entry is a directory, is named [Pyrrha-...], is not the tools
    repository, and has a configuration. *)
Definition repo_of_item (self : PyrrhaLinter) (w : W) (item : string) : list Repo :=
  match statSync_isDirectory host w (full_path self item) with
  | Some true =>
      if JS.startsWith item "Pyrrha-"
         && negb (String.eqb item "Pyrrha-Development-Tools")
      then match JS.prop REPO_CONFIGS item with
           | Some config =>
               [{| name := item; path := full_path self item; config := config |}]
           | None => []
           end
      else []
  | _ => []
  end.

(** What [discoverRepos] returns: [None] when it throws. *)
Definition discovery (self : PyrrhaLinter) (w : W) : option (list Repo) :=
  match readdirSync host w (workspaceRoot self) with
  | Some items =>
      if forallb (statable self w) items
      then Some (flat_map (repo_of_item self w) items)
      else None
  | None => None
  end.

(** The warning of [discoverRepos] about a directory without
    configuration. *)
Definition unknown_repository (e : Event) : Prop :=
  exists item,
    e = EvLog Warn ("⚠️  Unknown repository: " +:+ item)
    /\ JS.prop REPO_CONFIGS item = None.

(** Discovery prints such warnings and nothing else: it starts no child
    process and pushes no result. *)
Definition quiet (out : list Event) : Prop := Forall unknown_repository out.

(** The body of the loop of [discoverRepos]. *)
Definition discover_body (self : PyrrhaLinter) (repos : list Repo) (item : string)
  : M W (list Repo) :=
  let fullPath := path_join host [workspaceRoot self; item] in
  isDirectory <- fs_statSync_isDirectory host fullPath ;;
  if isDirectory && JS.startsWith item "Pyrrha-"
     && negb (String.eqb item "Pyrrha-Development-Tools")
  then
    match JS.prop REPO_CONFIGS item with
    | Some config =>
        ret (repos ++ [{| name := item; path := fullPath; config := config |}])
    | None =>
        log ("⚠️  Unknown repository: " +:+ item) Warn ;;
        ret repos
    end
  else ret repos.

(** The repositories [run] lints, out of the discovered ones. *)
Definition targeted (self : PyrrhaLinter) (repos : list Repo) : list Repo :=
  match targetRepos self with
  | Some requested => List.filter (fun r => JS.includes requested (name r)) repos
  | None => repos
  end.

(** The first two lines of [run]. *)
Definition banner (self : PyrrhaLinter) : list Event :=
  [EvLog Header "🚀 Pyrrha Platform - Centralized Linting";
   EvLog Info ("Mode: " +:+ (if fixMode self then "FIX" else "CHECK"))].

(** The list of targets [run] prints before linting. *)
Definition found_lines (targetedRepos : list Repo) : list Event :=
  EvLog Info ("Found " +:+ JS.toString (length targetedRepos)
                +:+ " repositories to lint:\n")
  :: map (fun repo =>
            EvLog Info ("  • " +:+ name repo +:+ " (" +:+ type (config repo) +:+ ")"))
       targetedRepos.

(** [results.filter(r => r.success)] and [results.filter(r => !r.success)]. *)
Definition passed_of (results : list (string * bool)) : list (string * bool) :=
  List.filter (fun r => snd r) results.

Definition failed_of (results : list (string * bool)) : list (string * bool) :=
  List.filter (fun r => negb (snd r)) results.

(** The Summary [run] prints from its [results] array. *)
Definition summary_lines (results : list (string * bool)) : list Event :=
  [EvLog Header "\n📊 Summary:";
   EvLog Success ("✅ Passed: " +:+ JS.toString (length (passed_of results)))]
  ++ (if Nat.ltb 0 (length (failed_of results)) then
        EvLog Error ("❌ Failed: " +:+ JS.toString (length (failed_of results)))
        :: map (fun f => EvLog Error ("  • " +:+ fst f)) (failed_of results)
      else [EvLog Success "🎉 All repositories passed linting!"]).

(** The object [new PyrrhaLinter()] builds. *)
Definition linter_of (argv : list string) : PyrrhaLinter :=
  {| workspaceRoot := WORKSPACE_ROOT host;
     toolsRoot := TOOLS_ROOT host;
     fixMode := JS.includes argv "--fix";
     verbose := JS.includes argv "--verbose" || JS.includes argv "-v";
     targetRepos := requested argv |}.

(** The help check of the main execution. *)
Definition wants_help (argv : list string) : bool :=
  JS.includes argv "--help" || JS.includes argv "-h".

(** Lines printed through [log], none of them a warning. *)
Definition only_logs (out : list Event) : Prop :=
  Forall (fun e => exists t m, e = EvLog t m /\ t <> Warn) out.

(** How a run without a help flag ends. *)
Inductive Run (argv : list string) (w : W) : @Outcome W -> Prop :=
| RunFatal e o1 :
    discovery (linter_of argv) w = None ->
    quiet o1 ->
    Run argv w {| exitCode := 1; final := w;
                  output := (banner (linter_of argv) ++ o1)
                              ++ [EvConsoleError "Fatal error:" e] |}
| RunNothing repos o1 :
    discovery (linter_of argv) w = Some repos ->
    quiet o1 ->
    targeted (linter_of argv) repos = [] ->
    Run argv w {| exitCode := 0; final := w;
                  output := banner (linter_of argv) ++ o1
                              ++ [EvLog Warn "No repositories found to lint"] |}
| RunLinted repos o1 results w2 o2 :
    discovery (linter_of argv) w = Some repos ->
    quiet o1 ->
    targeted (linter_of argv) repos <> [] ->
    lintRepos (linter_of argv) (targeted (linter_of argv) repos) [] w
      = (Ret results, w2, o2) ->
    map fst results = map name (targeted (linter_of argv) repos) ->
    repo_results o2 = results ->
    forallb snd results = forallb snd (script_results o2) ->
    Run argv w {| exitCode := if forallb snd results then 0 else 1;
                  final := w2;
                  output := banner (linter_of argv) ++ o1
                              ++ found_lines (targeted (linter_of argv) repos)
                              ++ o2 ++ summary_lines results |}.

(** What linting leaves in the trace: every [execSync] call is the one
    [runScript] makes for a script of the dispatch list of one of the
    repositories at hand, and no line is a warning. *)
Definition from_scripts (self : PyrrhaLinter) (targetedRepos : list Repo)
  (e : Event) : Prop :=
  match e with
  | EvExec req =>
      exists repo s,
        In repo targetedRepos /\ In s (scripts (config repo))
        /\ req = script_request self s (path repo) (name repo)
  | EvLog t _ => t <> Warn
  | _ => True
  end.

(** What running the scripts of a list in turn gives, each one in the
    world the one before it has left and whatever the one before it has
    returned: the results, the children started and the world left.  A
    script whose file exists is started, and its result is whether the
    child exits with status 0; a script without a file is not started, and
    its result is [false]. *)
Fixpoint script_outcomes (self : PyrrhaLinter) (repo : Repo) (scriptNames : list string)
  (w : W) : list (string * bool) * list ExecRequest * W :=
  match scriptNames with
  | [] => ([], [], w)
  | scriptName :: rest =>
      if existsSync host w (script_path self scriptName) then
        let req := script_request self scriptName (path repo) (name repo) in
        let after := script_outcomes self repo rest (spawn host w req).2 in
        ((scriptName, child_ok (spawn host w req).1) :: after.1.1,
         req :: after.1.2, after.2)
      else
        let after := script_outcomes self repo rest w in
        ((scriptName, false) :: after.1.1, after.1.2, after.2)
  end.

(** The same for the repositories of a list: each one gets all its scripts
    run, whatever the repositories before it have returned, and passes
    when all its results are [true]. *)
Fixpoint repo_outcomes (self : PyrrhaLinter) (repos : list Repo) (w : W)
  : list (string * bool) * list ExecRequest * W :=
  match repos with
  | [] => ([], [], w)
  | repo :: rest =>
      let here := script_outcomes self repo (scripts (config repo)) w in
      let after := repo_outcomes self rest here.2 in
      ((name repo, forallb snd here.1.1) :: after.1.1,
       here.1.2 ++ after.1.2, after.2)
  end.

End Specification.

Arguments Run {W} host argv w _.

(** ** Vocabulary of the statements *)

(** The last character of a string. *)
Fixpoint last_char (s : string) : option ascii :=
  match s with
  | EmptyString => None
  | String a EmptyString => Some a
  | String _ s' => last_char s'
  end.

(** The arguments the script looks for. *)
Definition recognized (arg : string) : bool :=
  String.eqb arg "--fix" || JS.startsWith arg "--repo="
  || String.eqb arg "--verbose" || String.eqb arg "-v"
  || String.eqb arg "--help" || String.eqb arg "-h".

(** The two warnings the orchestrator has: the one of [run] when there is
    nothing to lint, and the one of [discoverRepos] about a directory of the
    workspace without configuration. *)
Definition known_warning (message : string) : Prop :=
  message = "No repositories found to lint"
  \/ exists item,
       message = "⚠️  Unknown repository: " +:+ item
       /\ JS.prop REPO_CONFIGS item = None.

(** The output ends with the Summary of [total] repositories. *)
Definition prints_summary (out : list Event) (total : nat) : Prop :=
  exists before results,
    out = before ++ summary_lines results /\ length results = total.

(** ** A concrete host for examples

    A workspace under [/work] whose entries, script files and failing
    repositories are given by lists; the world counts the children run. *)

Module Fixture.

Record t := {
  entries : list (string * option bool);
  script_files : list string;
  failing : list string
}.

Definition root : string := "/work".
Definition tools : string := "/work/Pyrrha-Development-Tools".

Definition host (f : t) : Host nat :=
  {| dirname := "/work/Pyrrha-Development-Tools/scripts";
     process_env := {[ "PATH" := "/usr/bin" ]};
     path_resolve := fun parts =>
       match parts with
       | [_; "../../"] => root
       | _ => tools
       end;
     path_join := JS.join "/";
     readdirSync := fun _ dir =>
       if String.eqb dir root then Some (map fst f.(entries)) else None;
     statSync_isDirectory := fun _ p =>
       match JS.prop (map (fun e => (root +:+ "/" +:+ fst e, snd e)) f.(entries)) p with
       | Some r => r
       | None => None
       end;
     existsSync := fun _ p =>
       JS.includes (map (fun s => tools +:+ "/scripts/" +:+ s) f.(script_files)) p;
     spawn := fun n req =>
       if JS.includes (map (fun r => root +:+ "/" +:+ r) f.(failing)) (cwd req)
       then ({| status := Some 1; child_stdout := Some "";
                child_stderr := Some "lint errors";
                failure_message := "Command failed: " +:+ command req |}, S n)
       else ({| status := Some 0; child_stdout := Some "ok";
                child_stderr := Some ""; failure_message := "" |}, S n) |}.

Definition node (args : list string) : list string :=
  "/usr/bin/node" :: "/work/Pyrrha-Development-Tools/scripts/lint-all.js" :: args.

Definition all_scripts : list string :=
  ["lint-dashboard.sh"; "lint-nodejs.sh"; "lint-python.sh"; "lint-cpp.sh"].

End Fixture.

(** A workspace with the dashboard and the website, every script at hand,
    nothing failing. *)
Definition two_repos : Fixture.t :=
  {| Fixture.entries := [("Pyrrha-Dashboard", Some true);
                         ("Pyrrha-Website", Some true);
                         ("README.md", Some false)];
     Fixture.script_files := Fixture.all_scripts;
     Fixture.failing := [] |}.

(** A workspace with an entry that cannot be examined (a dangling link). *)
Definition dangling : Fixture.t :=
  {| Fixture.entries := [("Pyrrha-Dashboard", Some true); ("stale-link", None)];
     Fixture.script_files := Fixture.all_scripts;
     Fixture.failing := [] |}.

(** The two repositories of [two_repos], as [discoverRepos] finds them. *)
Definition dashboard : Repo :=
  {| name := "Pyrrha-Dashboard"; path := "/work/Pyrrha-Dashboard";
     config := {| type := "multi-stack"; languages := ["javascript"; "python"];
                  hasReact := true; hasFlask := true; hasNodeAuth := true;
                  hasArduino := false; scripts := ["lint-dashboard.sh"] |} |}.

Definition website : Repo :=
  {| name := "Pyrrha-Website"; path := "/work/Pyrrha-Website";
     config := {| type := "react"; languages := ["javascript"];
                  hasReact := true; hasFlask := false; hasNodeAuth := false;
                  hasArduino := false; scripts := ["lint-nodejs.sh"] |} |}.

(** The mobile application, which has no script. *)
Definition mobile_app : Repo :=
  {| name := "Pyrrha-Mobile-App"; path := "/work/Pyrrha-Mobile-App";
     config := {| type := "java-android"; languages := ["java"];
                  hasReact := false; hasFlask := false; hasNodeAuth := false;
                  hasArduino := false; scripts := [] |} |}.

(** A repository with two scripts, the first of which has no file. *)
Definition two_scripts : Repo :=
  {| name := "Pyrrha-Rules-Decision"; path := "/work/Pyrrha-Rules-Decision";
     config := {| type := "python"; languages := ["python"];
                  hasReact := false; hasFlask := false; hasNodeAuth := false;
                  hasArduino := false;
                  scripts := ["lint-missing.sh"; "lint-python.sh"] |} |}.

(** * Further vocabulary *)

(** ** Strings *)

(** The character does not occur in the string. *)
Fixpoint no_char (c : ascii) (s : string) : bool :=
  match s with
  | EmptyString => true
  | String a s' => negb (Ascii.eqb a c) && no_char c s'
  end.

(** [s] occurs in [text]. *)
Definition occurs_in (s text : string) : Prop :=
  exists before after, text = before +:+ s +:+ after.

(** ** Discovery, entry by entry *)

Section Entries.

Context {W : Type} (host : Host W).

(** The first test of [discoverRepos] on an entry of the workspace: a
    directory named [Pyrrha-...] other than the tools repository. *)
Definition candidate (self : PyrrhaLinter) (w : W) (item : string) : bool :=
  match statSync_isDirectory host w (full_path host self item) with
  | Some true =>
      JS.startsWith item "Pyrrha-"
      && negb (String.eqb item "Pyrrha-Development-Tools")
  | _ => false
  end.

(** [REPO_CONFIGS[item]] is defined. *)
Definition configured (item : string) : bool :=
  match JS.prop REPO_CONFIGS item with
  | Some _ => true
  | None => false
  end.

(** What [discoverRepos] prints for an entry. *)
Definition warning_of_item (self : PyrrhaLinter) (w : W) (item : string) : list Event :=
  if candidate self w item && negb (configured item)
  then [EvLog Warn ("⚠️  Unknown repository: " +:+ item)]
  else [].

(** The entry is linted: it is discovered and, when there is a request,
    requested. *)
Definition selected (self : PyrrhaLinter) (w : W) (item : string) : bool :=
  candidate self w item && configured item
  && match targetRepos self with
     | Some requested => JS.includes requested item
     | None => true
     end.

(** The [execSync] calls of a run in which every script has its file: for
    each repository in turn, one per script of its list. *)
Definition planned_requests (self : PyrrhaLinter) (repos : list Repo) : list ExecRequest :=
  flat_map
    (fun repo =>
       map (fun s => script_request host self s (path repo) (name repo))
         (scripts (config repo)))
    repos.

End Entries.

(** A workspace with a directory that has no configuration, a plain
    directory and the tools repository itself. *)
Definition stray_directory : Fixture.t :=
  {| Fixture.entries := [("Pyrrha-Sandbox", Some true);
                         ("Pyrrha-Website", Some true);
                         ("notes", Some true);
                         ("Pyrrha-Development-Tools", Some true)];
     Fixture.script_files := Fixture.all_scripts;
     Fixture.failing := ["Pyrrha-Website"] |}.

(** A host like [Fixture.host] in which the children that fail are those
    of the given scripts, and a failing child is reported as [execSync]
    reports it: the message names the command and, when the output of the
    child is captured ([stdio: 'pipe']), quotes what it wrote on its
    standard error; with [stdio: 'inherit'] nothing is captured. *)
Definition scripted_host (f : Fixture.t) (failing_scripts : list string) : Host nat :=
  let base := Fixture.host f in
  {| dirname := dirname base;
     process_env := process_env base;
     path_resolve := path_resolve base;
     path_join := path_join base;
     readdirSync := readdirSync base;
     statSync_isDirectory := statSync_isDirectory base;
     existsSync := existsSync base;
     spawn := fun n req =>
       let fails :=
         existsb
           (fun s =>
              let scriptPath := Fixture.tools +:+ "/scripts/" +:+ s in
              String.eqb (command req) (script_command scriptPath [])
              || String.eqb (command req) (script_command scriptPath ["--fix"]))
           failing_scripts in
       let captured := match stdio req with Pipe => true | Inherit => false end in
       if fails then
         ({| status := Some 1;
             child_stdout := if captured then Some "" else None;
             child_stderr := if captured then Some "lint errors" else None;
             failure_message :=
               "Command failed: " +:+ command req
               +:+ (if captured then newline +:+ "lint errors" else "") |}, S n)
       else
         ({| status := Some 0;
             child_stdout := if captured then Some "ok" else None;
             child_stderr := if captured then Some "" else None;
             failure_message := "" |}, S n) |}.

(** The rules engine, as [discoverRepos] finds it. *)
Definition rules_decision : Repo :=
  {| name := "Pyrrha-Rules-Decision"; path := "/work/Pyrrha-Rules-Decision";
     config := {| type := "python"; languages := ["python"];
                  hasReact := false; hasFlask := false; hasNodeAuth := false;
                  hasArduino := false; scripts := ["lint-python.sh"] |} |}.

(** A repository with two scripts, both with their file. *)
Definition two_linters : Repo :=
  {| name := "Pyrrha-Rules-Decision"; path := "/work/Pyrrha-Rules-Decision";
     config := {| type := "python"; languages := ["python"];
                  hasReact := false; hasFlask := false; hasNodeAuth := false;
                  hasArduino := false;
                  scripts := ["lint-python.sh"; "lint-nodejs.sh"] |} |}.

(** A workspace of three repositories in which the script of the first
    has no file and the script of the second fails. *)
Definition three_repos : Fixture.t :=
  {| Fixture.entries := [("Pyrrha-Dashboard", Some true);
                         ("Pyrrha-Rules-Decision", Some true);
                         ("Pyrrha-Website", Some true)];
     Fixture.script_files := ["lint-python.sh"; "lint-nodejs.sh"];
     Fixture.failing := [] |}.

(** The output of a child is printed by the orchestrator in verbose mode
    only. *)
Definition shown_if_verbose (self : PyrrhaLinter) (e : Event) : Prop :=
  match e with
  | EvConsoleLog _ => verbose self = true
  | _ => True
  end.

(** ** The pre-commit hook

    The hook that the hooks setup script writes into every repository:
    it picks the arguments of the orchestrator from the name of the
    repository in which the commit is made. *)

(** The branch of the hook's [case "$REPO_NAME"]: a line to print and the
    arguments of [node scripts/lint-all.js], or the default branch. *)
Inductive HookBranch :=
| HookLint (announce : string) (args : list string)
| HookDefault.

Definition hook_case (REPO_NAME : string) : HookBranch :=
  if String.eqb REPO_NAME "Pyrrha-Dashboard" then
    HookLint "📋 Linting Dashboard..." ["--repo=Pyrrha-Dashboard"]
  else if String.eqb REPO_NAME "Pyrrha-Rules-Decision" then
    HookLint "🐍 Linting Python repository..." ["--repo=Pyrrha-Rules-Decision"]
  else if JS.includes ["Pyrrha-MQTT-Client"; "Pyrrha-WebSocket-Server";
                       "Pyrrha-Device-Simulator"; "Pyrrha-Website";
                       "Pyrrha-Watch-App"] REPO_NAME then
    HookLint "🟢 Linting Node.js repository..." ["--repo=" +:+ REPO_NAME]
  else if String.eqb REPO_NAME "Pyrrha-Firmware" then
    HookLint "🔩 Linting C/C++ Arduino repository..." ["--repo=Pyrrha-Firmware"]
  else HookDefault.

(** The hook, given the name of the repository, whether [cd "$TOOLS_ROOT"]
    succeeds, and the exit status of the orchestrator for each argument
    list: its exit status and the lines it prints itself. *)
Definition pre_commit_hook (REPO_NAME : string) (cd_ok : bool)
  (node : list string -> Z) : Z * list string :=
  match hook_case REPO_NAME with
  | HookDefault =>
      (0, ["🔍 Running pre-commit linting...";
           "⚠️ No linting configuration for " +:+ REPO_NAME])
  | HookLint announce args =>
      let status := if cd_ok then node args else 1 in
      if Z.eqb status 0 then
        (0, ["🔍 Running pre-commit linting..."; announce;
             "✅ Pre-commit linting passed!"])
      else
        (1, ["🔍 Running pre-commit linting..."; announce;
             "❌ Pre-commit linting failed. Commit aborted.";
             "💡 Run 'npm run format:all' from Pyrrha-Development-Tools to fix issues"])
  end.

(** ** The command line of the watch-app and mobile-app scripts

    [lint-watch.sh] and the Android linting script start with the same
    loop over their arguments, under [set -e]. *)

Record ScriptOptions := {
  FIX_MODE : bool;
  CHECK_MODE : bool;
  VERBOSE : bool;
  TARGET_REPO : string
}.

(** The values before the loop. *)
Definition default_options : ScriptOptions :=
  {| FIX_MODE := false; CHECK_MODE := false; VERBOSE := false; TARGET_REPO := "" |}.

(** The loop either ends with the options set, or the script exits. *)
Inductive Parse :=
| Parsed (options : ScriptOptions)
| Stopped (status : Z) (printed : list string).

(** What follows the first occurrence of the character, if there is one. *)
Fixpoint after_first (c : ascii) (s : string) : option string :=
  match s with
  | EmptyString => None
  | String a s' => if Ascii.eqb a c then Some s' else after_first c s'
  end.

(** The expansion [${1#*=}]: the shortest prefix that ends with [=] is
    removed, if there is one. *)
Definition strip_through_equals (s : string) : string :=
  match after_first "="%char s with
  | Some rest => rest
  | None => s
  end.

(** The lines printed for [-h] and [--help]; [script] stands for [$0]. *)
Definition script_usage (script : string) : list string :=
  ["Usage: " +:+ script +:+ " [--fix] [--check] [--verbose] [--repo=REPO_NAME]";
   "  --fix      Fix issues automatically where possible";
   "  --check    Check only, don't fix (default)";
   "  --verbose  Enable verbose output";
   "  --repo     Target specific repository"].

(** [while [[ $# -gt 0 ]]; do case $1 in ... esac; done].  With a single
    argument left, [shift 2] fails and [set -e] ends the script. *)
Fixpoint parse_arguments (script : string) (args : list string) (o : ScriptOptions)
  : Parse :=
  match args with
  | [] => Parsed o
  | arg :: rest =>
      if String.eqb arg "--fix" then
        parse_arguments script rest
          {| FIX_MODE := true; CHECK_MODE := CHECK_MODE o; VERBOSE := VERBOSE o;
             TARGET_REPO := TARGET_REPO o |}
      else if String.eqb arg "--check" then
        parse_arguments script rest
          {| FIX_MODE := FIX_MODE o; CHECK_MODE := true; VERBOSE := VERBOSE o;
             TARGET_REPO := TARGET_REPO o |}
      else if String.eqb arg "--verbose" then
        parse_arguments script rest
          {| FIX_MODE := FIX_MODE o; CHECK_MODE := CHECK_MODE o; VERBOSE := true;
             TARGET_REPO := TARGET_REPO o |}
      else if JS.startsWith arg "--repo=" then
        parse_arguments script rest
          {| FIX_MODE := FIX_MODE o; CHECK_MODE := CHECK_MODE o; VERBOSE := VERBOSE o;
             TARGET_REPO := strip_through_equals arg |}
      else if String.eqb arg "--repo" then
        match rest with
        | value :: rest' =>
            parse_arguments script rest'
              {| FIX_MODE := FIX_MODE o; CHECK_MODE := CHECK_MODE o;
                 VERBOSE := VERBOSE o; TARGET_REPO := value |}
        | [] => Stopped 1 []
        end
      else if String.eqb arg "-h" || String.eqb arg "--help" then
        Stopped 0 (script_usage script)
      else Stopped 1 ["Unknown option: " +:+ arg]
  end.

(** The loop from the default values, then the default of check mode. *)
Definition parse_command_line (script : string) (args : list string) : Parse :=
  match parse_arguments script args default_options with
  | Parsed o =>
      Parsed (if negb (FIX_MODE o) && negb (CHECK_MODE o)
              then {| FIX_MODE := FIX_MODE o; CHECK_MODE := true;
                      VERBOSE := VERBOSE o; TARGET_REPO := TARGET_REPO o |}
              else o)
  | Stopped status printed => Stopped status printed
  end.

(** An option that stands alone. *)
Definition plain_option (arg : string) : bool :=
  String.eqb arg "--fix" || String.eqb arg "--check" || String.eqb arg "--verbose"
  || JS.startsWith arg "--repo=".

(** An argument that one of the patterns of the [case] matches. *)
Definition script_option (arg : string) : bool :=
  plain_option arg || String.eqb arg "--repo"
  || String.eqb arg "-h" || String.eqb arg "--help".

(** The effect of a plain option on the variables. *)
Definition set_option (o : ScriptOptions) (arg : string) : ScriptOptions :=
  {| FIX_MODE := FIX_MODE o || String.eqb arg "--fix";
     CHECK_MODE := CHECK_MODE o || String.eqb arg "--check";
     VERBOSE := VERBOSE o || String.eqb arg "--verbose";
     TARGET_REPO := if JS.startsWith arg "--repo="
                    then strip_through_equals arg else TARGET_REPO o |}.

(** The last [--repo=] argument, if any. *)
Definition last_repo_argument (args : list string) : option string :=
  find (fun arg => JS.startsWith arg "--repo=") (rev args).

(** ** The workspace health checker

    The second Node script of the repository: it looks at every
    [Pyrrha-*] directory of the workspace and reports what is missing for
    linting. *)

(** A value returned by [JSON.parse].  Of a number the script can only
    see whether it is zero. *)
#[warnings="-register-all"]
Inductive Json :=
| JNull
| JBool (b : bool)
| JNumber (zero : bool)
| JString (s : string)
| JArray (items : list Json)
| JObject (members : list (string * Json)).

(** What the checker reads beyond [Host]: [readdirSync] with
    [recursive: true], and [JSON.parse(fs.readFileSync(p, 'utf8'))];
    [None] means that the call throws. *)
Record CheckerHost (W : Type) := {
  node_host : Host W;
  readdirSync_recursive : W -> string -> option (list string);
  readJson : W -> string -> option Json
}.

Arguments node_host {W} _.
Arguments readdirSync_recursive {W} _ _ _.
Arguments readJson {W} _ _ _.

Module Checker.

(** An element of [this.issues]. *)
Record Issue := {
  repo : string;
  message : string;
  severity : LogType
}.

(** Whether a value, or [undefined] ([None]), is truthy. *)
Definition truthy (v : option Json) : bool :=
  match v with
  | None | Some JNull => false
  | Some (JBool b) => b
  | Some (JNumber zero) => negb zero
  | Some (JString s) => negb (String.eqb s "")
  | Some (JArray _) | Some (JObject _) => true
  end.

(** [v.key] for a parsed value other than [null] and a key the checker
    reads ([scripts], [devDependencies], [lint], [eslint], [prettier]): a
    member of an object, [undefined] for anything else.  The keys of an
    object are distinct. *)
Definition member (v : Json) (key : string) : option Json :=
  match v with
  | JObject members => JS.prop members key
  | _ => None
  end.

(** [v?.key]. *)
Definition optional_member (v : option Json) (key : string) : option Json :=
  match v with
  | None | Some JNull => None
  | Some x => member x key
  end.

(** [String.prototype.endsWith]. *)
Fixpoint endsWith (s suffix : string) : bool :=
  String.eqb s suffix
  || match s with
     | EmptyString => false
     | String _ s' => endsWith s' suffix
     end.

(** [/\.(c|cpp|h|hpp|ino)$/.test(f)]. *)
Definition is_cpp_file (f : string) : bool :=
  endsWith f ".c" || endsWith f ".cpp" || endsWith f ".h" || endsWith f ".hpp"
  || endsWith f ".ino".

(** [this.issues.push({ repo, message, severity })]. *)
Definition addIssue (issues : list Issue) (repo message : string) (severity : LogType)
  : list Issue :=
  issues ++ [{| repo := repo; message := message; severity := severity |}].

(** The icon of an issue in the report. *)
Definition icon (severity : LogType) : string :=
  match severity with
  | Error => "❌"
  | Warn => "⚠️"
  | _ => "💡"
  end.

(** [groupedIssues[issue.repo].push(issue)], after the group is created
    if it is not there.  The keys are names of repositories, which start
    with [Pyrrha-]: the object lists them in the order in which they were
    added. *)
Fixpoint group_push (groups : list (string * list Issue)) (issue : Issue)
  : list (string * list Issue) :=
  match groups with
  | [] => [(repo issue, [issue])]
  | (key, group) :: rest =>
      if String.eqb (repo issue) key then (key, group ++ [issue]) :: rest
      else (key, group) :: group_push rest issue
  end.

Definition groupedIssues (issues : list Issue) : list (string * list Issue) :=
  fold_left group_push issues [].

(** The recommendations [run] adds. *)
Definition recommendations : list string :=
  ["Run " +:+ dquote +:+ "npm run setup:hooks" +:+ dquote
     +:+ " to install Git pre-commit hooks";
   "Run " +:+ dquote +:+ "npm run lint:all" +:+ dquote
     +:+ " to test linting across all repositories";
   "Consider adding CI/CD integration with centralized linting"].

(** What the report shows of an issue. *)
Definition issue_key (issue : Issue) : string * LogType :=
  (message issue, severity issue).

(** The issues [checkRepository] can raise before it looks for [.git],
    in the order of its checks. *)
Definition readiness_issues : list (string * LogType) :=
  [("No ESLint configuration found", Warn);
   ("No Prettier configuration found", Info);
   ("Expected pyrrha-dashboard subdirectory not found", Error);
   ("Flask API virtual environment not found", Warn);
   ("No pyproject.toml found for Python configuration", Info);
   ("No .clang-format found for C/C++ formatting", Info)].

Section Program.

Context {W : Type} (host : CheckerHost W).

Definition WORKSPACE_ROOT : string :=
  path_resolve (node_host host) [dirname (node_host host); "../../"].

Definition join (parts : list string) : string := path_join (node_host host) parts.

Definition exists_ (p : string) : M W bool := fs_existsSync (node_host host) p.

Definition fs_readdirSync_recursive (dir : string) : M W (list string) :=
  fun w =>
    match readdirSync_recursive host w dir with
    | Some items => (Ret items, w, [])
    | None => (Throw (FsFailed "scandir" dir), w, [])
    end.

(** [JSON.parse(fs.readFileSync(p, 'utf8'))]. *)
Definition readJsonFile (p : string) : M W Json :=
  fun w =>
    match readJson host w p with
    | Some v => (Ret v, w, [])
    | None => (Throw (FsFailed "read" p), w, [])
    end.

Definition checkRepository (issues : list Issue) (repoPath repoName : string)
  : M W (list Issue) :=
  log ("\n🔍 Checking " +:+ repoName +:+ "...") Info ;;
  let packageJsonPath := join [repoPath; "package.json"] in
  let requirementsPath := join [repoPath; "requirements.txt"] in
  hasPackageJson <- exists_ packageJsonPath ;;
  issues <-
    (if hasPackageJson then
       packageJson <- readJsonFile packageJsonPath ;;
       match packageJson with
       | JNull => throw (TypeError "Cannot read properties of null (reading 'scripts')")
       | _ =>
           let issues :=
             if negb (truthy (optional_member (member packageJson "scripts") "lint"))
                && negb (truthy (optional_member
                                   (member packageJson "devDependencies") "eslint"))
             then addIssue issues repoName "No ESLint configuration found" Warn
             else issues in
           issues <-
             (if negb (truthy (optional_member
                                 (member packageJson "devDependencies") "prettier"))
              then
                hasPrettierrc <- exists_ (join [repoPath; ".prettierrc.js"]) ;;
                ret (if negb hasPrettierrc
                     then addIssue issues repoName "No Prettier configuration found" Info
                     else issues)
              else ret issues) ;;
           issues <-
             (if String.eqb repoName "Pyrrha-Dashboard" then
                let dashboardPath := join [repoPath; "pyrrha-dashboard"] in
                hasDashboard <- exists_ dashboardPath ;;
                if negb hasDashboard then
                  ret (addIssue issues repoName
                         "Expected pyrrha-dashboard subdirectory not found" Error)
                else
                  let flaskApiPath := join [dashboardPath; "api-main"] in
                  hasFlaskApi <- exists_ flaskApiPath ;;
                  if hasFlaskApi then
                    let venvPath := join [flaskApiPath; "venv"] in
                    hasVenv <- exists_ venvPath ;;
                    ret (if negb hasVenv
                         then addIssue issues repoName
                                "Flask API virtual environment not found" Warn
                         else issues)
                  else ret issues
              else ret issues) ;;
           log "  ✅ Node.js project detected" Success ;;
           ret issues
       end
     else ret issues) ;;
  hasRequirements <- exists_ requirementsPath ;;
  issues <-
    (if hasRequirements then
       log "  🐍 Python project detected" Success ;;
       let pyprojectPath := join [repoPath; "pyproject.toml"] in
       hasPyproject <- exists_ pyprojectPath ;;
       ret (if negb hasPyproject
            then addIssue issues repoName
                   "No pyproject.toml found for Python configuration" Info
            else issues)
     else ret issues) ;;
  entries <- fs_readdirSync_recursive repoPath ;;
  let cppFiles := List.filter is_cpp_file entries in
  issues <-
    (if Nat.ltb 0 (length cppFiles) then
       log ("  🔩 C/C++/Arduino project detected (" +:+ JS.toString (length cppFiles)
              +:+ " files)") Success ;;
       let clangFormatPath := join [repoPath; ".clang-format"] in
       hasClangFormat <- exists_ clangFormatPath ;;
       ret (if negb hasClangFormat
            then addIssue issues repoName
                   "No .clang-format found for C/C++ formatting" Info
            else issues)
     else ret issues) ;;
  files <- fs_readdirSync (node_host host) repoPath ;;
  let dockerfiles := List.filter (fun f => JS.startsWith f "Dockerfile") files in
  (if Nat.ltb 0 (length dockerfiles) then
     log ("  🐳 Docker configuration found (" +:+ JS.toString (length dockerfiles)
            +:+ " files)") Success
   else ret tt) ;;
  hasGit <- exists_ (join [repoPath; ".git"]) ;;
  if hasGit then
    log "  📦 Git repository confirmed" Success ;;
    ret issues
  else ret (addIssue issues repoName "Not a Git repository" Error).

(** [items.filter(item => ...)] of [run]: every entry is examined. *)
Definition pyrrhaRepos (workspaceRoot : string) (items : list string)
  : M W (list string) :=
  forOf items
    (fun repos item =>
       let fullPath := join [workspaceRoot; item] in
       isDirectory <- fs_statSync_isDirectory (node_host host) fullPath ;;
       ret (if isDirectory && JS.startsWith item "Pyrrha-"
               && negb (String.eqb item "Pyrrha-Development-Tools")
            then repos ++ [item] else repos))
    [].

(** The report that [run] prints from [this.issues]. *)
Definition report (issues : list Issue) : M W unit :=
  log "\n📊 Health Check Report" Header ;;
  if Nat.eqb (length issues) 0 then
    log "🎉 All repositories look healthy!" Success
  else
    log ("Found " +:+ JS.toString (length issues) +:+ " issues:\n") Warn ;;
    forEach (groupedIssues issues)
      (fun entry =>
         log (fst entry +:+ ":") Header ;;
         forEach (snd entry)
           (fun issue =>
              log ("  " +:+ icon (severity issue) +:+ " " +:+ message issue)
                (severity issue))).

Definition run (workspaceRoot : string) : M W unit :=
  log "🔍 Pyrrha Workspace Health Check" Header ;;
  log ("📁 Workspace: " +:+ workspaceRoot +:+ "\n") Info ;;
  items <- fs_readdirSync (node_host host) workspaceRoot ;;
  repos <- pyrrhaRepos workspaceRoot items ;;
  log ("Found " +:+ JS.toString (length repos) +:+ " Pyrrha repositories:\n") Info ;;
  issues <- forOf repos
              (fun issues repo =>
                 let repoPath := join [workspaceRoot; repo] in
                 checkRepository issues repoPath repo)
              [] ;;
  report issues ;;
  (if Nat.ltb 0 (length recommendations) then
     log "\n💡 Recommendations:" Header ;;
     forEach recommendations (fun rec => log ("  • " +:+ rec) Info)
   else ret tt) ;;
  log "\n✅ Workspace check completed!" Success.

(** The module body: the checker is built and run; an exception of [run]
    reaches the [catch] handler of its promise. *)
Definition script : M W unit :=
  try_catch (run WORKSPACE_ROOT)
    (fun error =>
       emit (EvConsoleError "Error during workspace check:" error) ;;
       process_exit 1).

Definition main (w : W) : @Outcome W :=
  match script w with
  | (r, w', out) => {| exitCode := exit_code r; final := w'; output := out |}
  end.

End Program.

Section Workspace.

Context {W : Type} (host : CheckerHost W).

(** The entries of the workspace that [run] checks. *)
Definition examined (workspaceRoot : string) (w : W) (item : string) : bool :=
  match statSync_isDirectory (node_host host) w (join host [workspaceRoot; item]) with
  | Some true =>
      JS.startsWith item "Pyrrha-"
      && negb (String.eqb item "Pyrrha-Development-Tools")
  | _ => false
  end.

(** The file system answers what [checkRepository] asks about a
    repository: its [package.json], if there is one, is read and holds
    something other than [null], and the directory is listed. *)
Definition repo_readable (w : W) (repoPath : string) : Prop :=
  (existsSync (node_host host) w (join host [repoPath; "package.json"]) = true ->
   readJson host w (join host [repoPath; "package.json"]) <> None
   /\ readJson host w (join host [repoPath; "package.json"]) <> Some JNull)
  /\ readdirSync_recursive host w repoPath <> None
  /\ readdirSync (node_host host) w repoPath <> None.

(** The same for a run: the workspace is listed, each of its entries can
    be examined, and each repository found can be read. *)
Definition workspace_readable (workspaceRoot : string) (w : W) : Prop :=
  exists items,
    readdirSync (node_host host) w workspaceRoot = Some items
    /\ Forall (fun item =>
                 statSync_isDirectory (node_host host) w
                   (join host [workspaceRoot; item]) <> None) items
    /\ Forall (fun item => repo_readable w (join host [workspaceRoot; item]))
         (List.filter (examined workspaceRoot w) items).

(** The issue raised for a directory without [.git]. *)
Definition git_issue (w : W) (repoPath repoName : string) : list Issue :=
  if existsSync (node_host host) w (join host [repoPath; ".git"]) then []
  else [{| repo := repoName; message := "Not a Git repository"; severity := Error |}].

End Workspace.

(** [issues'] is [issues] followed by issues of [repoName], at most one
    for each entry of [table] and in the order of [table]. *)
Definition adds (table : list (string * LogType)) (repoName : string)
    (issues issues' : list Issue) : Prop :=
  exists new,
    issues' = issues ++ new
    /\ Forall (fun issue => repo issue = repoName) new
    /\ sublist (map issue_key new) table.

(** The line that opens the check of a repository. *)
Definition checking (repoName : string) : Event :=
  EvLog Info ("\n🔍 Checking " +:+ repoName +:+ "...").

Definition is_checking (e : Event) : bool :=
  match e with
  | EvLog Info text => String.prefix "\n🔍 Checking " text
  | _ => false
  end.

Definition is_success (e : Event) : Prop :=
  match e with
  | EvLog Success _ => True
  | _ => False
  end.

(** The lines of the report. *)
Definition issue_line (issue : Issue) : Event :=
  EvLog (severity issue) ("  " +:+ icon (severity issue) +:+ " " +:+ message issue).

Definition group_lines (entry : string * list Issue) : list Event :=
  EvLog Header (fst entry +:+ ":") :: map issue_line (snd entry).

Definition report_lines (issues : list Issue) : list Event :=
  EvLog Header "\n📊 Health Check Report"
  :: (if Nat.eqb (length issues) 0
      then [EvLog Success "🎉 All repositories look healthy!"]
      else EvLog Warn ("Found " +:+ JS.toString (length issues) +:+ " issues:\n")
           :: flat_map group_lines (groupedIssues issues)).

(** What [run] prints after the report. *)
Definition closing_lines : list Event :=
  EvLog Header "\n💡 Recommendations:"
  :: map (fun rec => EvLog Info ("  • " +:+ rec)) recommendations
  ++ [EvLog Success "\n✅ Workspace check completed!"].

(** The line of the report for a directory without [.git]. *)
Definition is_not_git_line (e : Event) : bool :=
  match e with
  | EvLog Error text => String.eqb text "  ❌ Not a Git repository"
  | _ => false
  end.

Section Collected.

Context {W : Type} (host : CheckerHost W) (workspaceRoot : string) (w : W).

(** The repository has no [.git]. *)
Definition without_git (repoName : string) : bool :=
  negb (existsSync (node_host host) w
          (join host [join host [workspaceRoot; repoName]; ".git"])).

(** The issues and the lines that the checks of [repos], in turn, leave
    behind. *)
Inductive collected : list string -> list Issue -> list Event -> Prop :=
| collected_nil : collected [] [] []
| collected_snoc repos issues out repoName new rest :
    collected repos issues out ->
    Forall (fun issue => repo issue = repoName) new ->
    sublist (map issue_key new) readiness_issues ->
    Forall is_success rest ->
    collected (repos ++ [repoName])
      (issues ++ new ++ git_issue host w (join host [workspaceRoot; repoName]) repoName)
      (out ++ checking repoName :: rest).

End Collected.

End Checker.

(** A workspace for the checker: the entries of the root, the paths that
    exist, the listings of the repositories and the contents of their
    [package.json]. *)
Module CheckerFixture.

Record t := {
  entries : list (string * option bool);
  present : list string;
  listings : list (string * list string);
  trees : list (string * list string);
  packages : list (string * Json)
}.

Definition host (f : t) : CheckerHost nat :=
  {| node_host :=
       {| dirname := "/work/Pyrrha-Development-Tools/scripts";
          process_env := {[ "PATH" := "/usr/bin" ]};
          path_resolve := fun _ => Fixture.root;
          path_join := JS.join "/";
          readdirSync := fun _ dir =>
            if String.eqb dir Fixture.root then Some (map fst f.(entries))
            else JS.prop f.(listings) dir;
          statSync_isDirectory := fun _ p =>
            match JS.prop (map (fun e => (Fixture.root +:+ "/" +:+ fst e, snd e))
                             f.(entries)) p with
            | Some r => r
            | None => None
            end;
          existsSync := fun _ p => JS.includes f.(present) p;
          spawn := fun n req =>
            ({| status := Some 0; child_stdout := Some "";
                child_stderr := Some ""; failure_message := "" |}, n) |};
     readdirSync_recursive := fun _ dir => JS.prop f.(trees) dir;
     readJson := fun _ p => JS.prop f.(packages) p |}.

End CheckerFixture.

(** The dashboard without the virtual environment of its API, a C
    project that is not under Git, and entries that are not checked. *)
Definition mixed_workspace : CheckerFixture.t :=
  {| CheckerFixture.entries :=
       [("Pyrrha-Dashboard", Some true); ("Pyrrha-Sandbox", Some true);
        ("notes", Some true); ("Pyrrha-Development-Tools", Some true);
        ("README.md", Some false)];
     CheckerFixture.present :=
       ["/work/Pyrrha-Dashboard/package.json";
        "/work/Pyrrha-Dashboard/pyrrha-dashboard";
        "/work/Pyrrha-Dashboard/pyrrha-dashboard/api-main";
        "/work/Pyrrha-Dashboard/.git"];
     CheckerFixture.listings :=
       [("/work/Pyrrha-Dashboard",
         ["package.json"; "pyrrha-dashboard"; ".git"; "Dockerfile"]);
        ("/work/Pyrrha-Sandbox", ["main.c"])];
     CheckerFixture.trees :=
       [("/work/Pyrrha-Dashboard",
         ["package.json"; "pyrrha-dashboard"; "pyrrha-dashboard/api-main";
          "pyrrha-dashboard/api-main/app.py"; "Dockerfile"]);
        ("/work/Pyrrha-Sandbox", ["main.c"])];
     CheckerFixture.packages :=
       [("/work/Pyrrha-Dashboard/package.json",
         JObject [("scripts", JObject [("lint", JString "eslint .")]);
                  ("devDependencies", JObject [("prettier", JString "^3.0.0")])])] |}.

(** The same workspace with a [package.json] that holds [null]. *)
Definition null_package : CheckerFixture.t :=
  {| CheckerFixture.entries := CheckerFixture.entries mixed_workspace;
     CheckerFixture.present := CheckerFixture.present mixed_workspace;
     CheckerFixture.listings := CheckerFixture.listings mixed_workspace;
     CheckerFixture.trees := CheckerFixture.trees mixed_workspace;
     CheckerFixture.packages := [("/work/Pyrrha-Dashboard/package.json", JNull)] |}.

(** ** Computations that only read

    [runs m w ok Q]: run in [w], the computation [m] leaves the world as
    it is and does not end the process; it returns when [ok] holds, and
    then [Q] holds of its result and of what it printed; it throws when
    [ok] does not hold. *)
Definition runs {W A} (m : M W A) (w : W) (ok : Prop) (Q : A -> list Event -> Prop)
  : Prop :=
  match m w with
  | (Ret a, w', out) => w' = w /\ ok /\ Q a out
  | (Throw _, w', _) => w' = w /\ ~ ok
  | (Exit _, _, _) => False
  end.

(** * Properties *)

(** ** Traces *)

Lemma script_results_app o1 o2 :
  script_results (o1 ++ o2) = script_results o1 ++ script_results o2.
Proof. apply flat_map_app. Qed.

Lemma repo_results_app o1 o2 :
  repo_results (o1 ++ o2) = repo_results o1 ++ repo_results o2.
Proof. apply flat_map_app. Qed.

Lemma execs_app o1 o2 : execs (o1 ++ o2) = execs o1 ++ execs o2.
Proof. apply flat_map_app. Qed.

Lemma warnings_app o1 o2 : warnings (o1 ++ o2) = warnings o1 ++ warnings o2.
Proof. apply flat_map_app. Qed.

Lemma in_execs req out : In req (execs out) <-> In (EvExec req) out.
Proof.
  unfold execs. rewrite in_flat_map. split.
  - intros [e [He Hin]]. destruct e; simpl in Hin; try contradiction.
    destruct Hin as [-> | []]. exact He.
  - intros H. exists (EvExec req). split; [exact H | now left].
Qed.

(** ** Reasoning about computations *)

Section Computations.

Context {W : Type}.

Lemma emits_only_ret {A} P (a : A) : emits_only P (@ret W A a).
Proof. intros w. constructor. Qed.

Lemma emits_only_emit (P : Event -> Prop) e : P e -> emits_only P (@emit W e).
Proof. intros H w. repeat constructor. exact H. Qed.

Lemma emits_only_bind {A B} P (m : M W A) (f : A -> M W B) :
  emits_only P m -> (forall a, emits_only P (f a)) -> emits_only P (bind m f).
Proof.
  intros Hm Hf w. specialize (Hm w). unfold bind, trace_of in *.
  destruct (m w) as [[r w1] o1]. simpl in Hm.
  destruct r as [a | e | c]; simpl; try exact Hm.
  specialize (Hf a w1). destruct (f a w1) as [[r2 w2] o2]. simpl in *.
  apply Forall_app. split; assumption.
Qed.

Lemma emits_only_forOf {A S} P (xs : list A) (body : S -> A -> M W S) :
  (forall s x, In x xs -> emits_only P (body s x)) ->
  forall s, emits_only P (forOf xs body s).
Proof.
  induction xs as [| x xs IH]; intros Hbody s; simpl.
  - apply emits_only_ret.
  - apply emits_only_bind.
    + apply Hbody. now left.
    + intros s'. apply IH. intros s0 y Hy. apply Hbody. now right.
Qed.

Lemma bind_Ret {A B} (m : M W A) (f : A -> M W B) w a w1 o1 :
  m w = (Ret a, w1, o1) ->
  bind m f w = (result_of (f a w1), world_of (f a w1), o1 ++ trace_of (f a w1)).
Proof.
  intros H. unfold bind. rewrite H.
  destruct (f a w1) as [[r w2] o2]. reflexivity.
Qed.

Lemma bind_Throw {A B} (m : M W A) (f : A -> M W B) w e w1 o1 :
  m w = (Throw e, w1, o1) -> bind m f w = (Throw e, w1, o1).
Proof. intros H. unfold bind. now rewrite H. Qed.

Lemma forOf_cons_Ret {A S} (xs : list A) x (body : S -> A -> M W S) s w s' w1 o1 :
  body s x w = (Ret s', w1, o1) ->
  forOf (x :: xs) body s w =
    (result_of (forOf xs body s' w1), world_of (forOf xs body s' w1),
     o1 ++ trace_of (forOf xs body s' w1)).
Proof. intros H. cbn [forOf]. now rewrite (bind_Ret _ _ _ _ _ _ H). Qed.

Lemma bind_step {A B} (m : M W A) (f : A -> M W B) w a w1 o1 r w2 o2 :
  m w = (Ret a, w1, o1) -> f a w1 = (r, w2, o2) ->
  bind m f w = (r, w2, o1 ++ o2).
Proof. intros Hm Hf. unfold bind. now rewrite Hm, Hf. Qed.

Lemma forEach_emit {A} (xs : list A) (ev : A -> Event) (w : W) :
  forEach xs (fun x => emit (ev x)) w = (Ret tt, w, map ev xs).
Proof.
  unfold forEach. induction xs as [| x xs IH]; [reflexivity |].
  cbn [forOf map]. eapply (bind_step _ _ _ tt w [ev x]); [reflexivity |].
  exact IH.
Qed.

End Computations.

(** ** Command-line parsing *)

Lemma split_nonempty sep s : exists piece pieces, JS.split sep s = piece :: pieces.
Proof.
  induction s as [| a s IH]; cbn [JS.split].
  - now exists EmptyString, [].
  - destruct (Ascii.eqb a sep); [now eexists _, _ |].
    destruct IH as (piece & pieces & ->). now eexists _, _.
Qed.

Lemma startsWith_repo arg :
  JS.startsWith arg "--repo=" = true -> exists rest, arg = "--repo=" +:+ rest.
Proof.
  unfold JS.startsWith. intros H.
  do 7 (destruct arg as [| ? arg]; [discriminate |];
        cbn [String.prefix] in H;
        match type of H with
        | (if ?d then _ else _) = true => destruct d; [subst | discriminate]
        end).
  now exists arg.
Qed.

(** [repoArg.split('=')[1]] is always defined for an argument that starts
    with [--repo=]. *)
Lemma repo_arg_names arg :
  JS.startsWith arg "--repo=" = true ->
  exists names, nth_error (JS.split "="%char arg) 1 = Some names.
Proof.
  intros H. destruct (startsWith_repo arg H) as [rest ->].
  destruct (split_nonempty "="%char rest) as (piece & pieces & Hsplit).
  exists piece. simpl. change ("" +:+ rest) with rest.
  rewrite Hsplit. reflexivity.
Qed.

(** ** What each method does *)

Section Methods.

Context {W : Type} (host : Host W).

(** [runScript], run to its end. *)
Lemma runScript_eq self s p n w :
  runScript host self s p n w =
    if existsSync host w (script_path host self s) then
      let req := script_request host self s p n in
      let child := (spawn host w req).1 in
      let running :=
        EvLog Info ("📋 Running " +:+ s +:+ " for " +:+ n +:+ "...") in
      if child_ok child then
        (Ret true, (spawn host w req).2,
         [running; EvExec req;
          EvLog Success ("✅ " +:+ s +:+ " completed for " +:+ n)])
      else
        (Ret false, (spawn host w req).2,
         [running; EvExec req;
          EvLog Error ("❌ " +:+ s +:+ " failed for " +:+ n +:+ ": "
                         +:+ failure_message child)]
           ++ (if verbose self
               then [EvConsoleLog (JS.or_else (child_stdout child) (child_stderr child))]
               else []))
    else
      (Ret false, w,
       [EvLog Error ("❌ Script not found: " +:+ script_path host self s)]).
Proof.
  unfold runScript, bind, fs_existsSync, try_catch, execSync, log, emit, ret,
    child_ok.
  fold (script_path host self s).
  destruct (existsSync host w (script_path host self s)); cbv beta iota zeta;
    [| reflexivity].
  change (negb true) with false. cbv beta iota zeta.
  fold (script_env host self p n). fold (script_request host self s p n).
  destruct (spawn host w (script_request host self s p n)) as [child w'].
  cbv beta iota zeta.
  change ((child, w').1) with child. change ((child, w').2) with w'.
  destruct (status child) as [[| q | q] |]; destruct (verbose self);
    reflexivity.
Qed.

(** [runScript] always returns, and never pushes a result itself. *)
Lemma runScript_returns self s p n w :
  exists b w' out,
    runScript host self s p n w = (Ret b, w', out)
    /\ script_results out = [] /\ repo_results out = []
    /\ (b = true <->
        existsSync host w (script_path host self s) = true
        /\ child_ok (spawn host w (script_request host self s p n)).1 = true).
Proof.
  rewrite runScript_eq.
  destruct (existsSync host w (script_path host self s)).
  - cbv zeta.
    destruct (child_ok (spawn host w (script_request host self s p n)).1).
    + do 3 eexists. split; [reflexivity |]. repeat split; reflexivity.
    + do 3 eexists. split; [reflexivity |].
      split; [| split].
      * destruct (verbose self); reflexivity.
      * destruct (verbose self); reflexivity.
      * split; [discriminate | intros [_ H]; discriminate].
  - do 3 eexists. split; [reflexivity |].
    repeat split; try reflexivity; try discriminate.
    intros [H _]; discriminate.
Qed.

Lemma runScripts_returns self repo scriptNames :
  forall results w,
  exists pushed w' out,
    runScripts host self repo scriptNames results w = (Ret (results ++ pushed), w', out)
    /\ map fst pushed = scriptNames
    /\ script_results out = pushed
    /\ repo_results out = [].
Proof.
  induction scriptNames as [| s rest IH]; intros results w.
  - exists [], w, []. rewrite app_nil_r. repeat split; reflexivity.
  - destruct (runScript_returns self s (path repo) (name repo) w)
      as (b & w1 & o1 & Hrun & Hs1 & Hr1 & _).
    unfold runScripts in *.
    erewrite forOf_cons_Ret; [| unfold bind; rewrite Hrun; reflexivity].
    destruct (IH (results ++ [(s, b)]) w1)
      as (pushed & w2 & o2 & Hrest & Hm & Hs2 & Hr2).
    rewrite Hrest. unfold result_of, world_of, trace_of. cbn [fst snd].
    exists ((s, b) :: pushed), w2, ((o1 ++ [EvScriptResult s b] ++ []) ++ o2).
    split; [| split; [| split]].
    + rewrite <- app_assoc. reflexivity.
    + simpl. now rewrite Hm.
    + rewrite !script_results_app, Hs1, Hs2. reflexivity.
    + rewrite !repo_results_app, Hr1, Hr2. reflexivity.
Qed.

Lemma runScript_attempts self repo s w :
  attempted host self repo s
    (trace_of (runScript host self s (path repo) (name repo) w)).
Proof.
  rewrite runScript_eq. unfold attempted.
  destruct (existsSync host w (script_path host self s)); cbv zeta.
  - right. destruct (child_ok _); unfold trace_of; cbn [snd].
    + right. now left.
    + apply in_or_app. left. right. now left.
  - left. now left.
Qed.

Lemma runScripts_attempts self repo scriptNames s :
  In s scriptNames ->
  forall results w,
    attempted host self repo s
      (trace_of (runScripts host self repo scriptNames results w)).
Proof.
  induction scriptNames as [| s0 rest IH]; [intros [] |].
  intros Hin results w.
  destruct (runScript_returns self s0 (path repo) (name repo) w)
    as (b & w1 & o1 & Hrun & _).
  unfold runScripts in *.
  erewrite forOf_cons_Ret; [| unfold bind; rewrite Hrun; reflexivity].
  unfold trace_of at 1. cbn [snd].
  destruct Hin as [-> | Hin].
  - pose proof (runScript_attempts self repo s w) as Hatt.
    rewrite Hrun in Hatt. unfold trace_of in Hatt. cbn [snd] in Hatt.
    destruct Hatt as [Hatt | Hatt]; [left | right];
      apply in_or_app; left; apply in_or_app; now left.
  - destruct (IH Hin (results ++ [(s0, b)]) w1) as [Hatt | Hatt]; [left | right];
      apply in_or_app; now right.
Qed.

(** [lintRepository], run to its end: the heading, the loop over the
    whole script list, the status line. *)
Lemma lintRepository_returns self repo w :
  exists results w' out,
    runScripts host self repo (scripts (config repo)) [] w = (Ret results, w', out)
    /\ map fst results = scripts (config repo)
    /\ script_results out = results
    /\ repo_results out = []
    /\ lintRepository host self repo w =
         (Ret (forallb snd results), w',
          [EvLog Header ("\n🔍 Linting " +:+ name repo)] ++ out
            ++ [status_line repo (forallb snd results)]).
Proof.
  destruct (runScripts_returns self repo (scripts (config repo)) [] w)
    as (results & w' & out & Hloop & Hm & Hs & Hr).
  simpl in Hloop. exists results, w', out.
  repeat split; try assumption.
  unfold lintRepository, log.
  erewrite bind_Ret by reflexivity. cbv beta.
  fold (runScripts host self repo (scripts (config repo)) []).
  rewrite (bind_Ret _ _ _ _ _ _ Hloop).
  unfold result_of, world_of, trace_of, status_line, emit, bind, ret.
  cbn [fst snd]. destruct (forallb snd results); reflexivity.
Qed.

Lemma lintRepos_returns self targetedRepos :
  forall results w,
  exists pushed w' out,
    lintRepos host self targetedRepos results w = (Ret (results ++ pushed), w', out)
    /\ map fst pushed = map name targetedRepos
    /\ repo_results out = pushed
    /\ forallb snd pushed = forallb snd (script_results out).
Proof.
  induction targetedRepos as [| repo rest IH]; intros results w.
  - exists [], w, []. rewrite app_nil_r. repeat split; reflexivity.
  - destruct (lintRepository_returns self repo w)
      as (rs & w1 & o1 & _ & _ & Hs1 & Hr1 & Hlint).
    unfold lintRepos in *.
    erewrite forOf_cons_Ret; [| unfold bind; rewrite Hlint; reflexivity].
    set (success := forallb snd rs) in *.
    destruct (IH (results ++ [(name repo, success)]) w1)
      as (pushed & w2 & o2 & Hrest & Hm & Hr2 & Hall).
    rewrite Hrest. unfold result_of, world_of, trace_of. cbn [fst snd].
    eexists ((name repo, success) :: pushed), w2, _.
    split; [| split; [| split]].
    + rewrite <- app_assoc. reflexivity.
    + simpl. now rewrite Hm.
    + rewrite !repo_results_app, Hr1, Hr2. reflexivity.
    + rewrite !script_results_app, Hs1, !forallb_app, <- Hall.
      cbn [forallb snd]. fold success.
      destruct success; reflexivity.
Qed.

(** *** What the loops leave behind *)

Lemma runScript_outcome self s p n w :
  exists out,
    runScript host self s p n w
    = (Ret (existsSync host w (script_path host self s)
            && child_ok (spawn host w (script_request host self s p n)).1),
       (if existsSync host w (script_path host self s)
        then (spawn host w (script_request host self s p n)).2 else w),
       out)
    /\ script_results out = [] /\ repo_results out = []
    /\ execs out = if existsSync host w (script_path host self s)
                   then [script_request host self s p n] else [].
Proof.
  rewrite runScript_eq.
  destruct (existsSync host w (script_path host self s)); cbv zeta.
  - destruct (child_ok _); eexists; (split; [reflexivity |]);
      repeat split; try reflexivity; destruct (verbose self); reflexivity.
  - eexists. split; [reflexivity |]. repeat split.
Qed.

Lemma runScripts_outcomes self repo scriptNames :
  forall results w,
  exists out,
    runScripts host self repo scriptNames results w
    = (Ret (results ++ (script_outcomes host self repo scriptNames w).1.1),
       (script_outcomes host self repo scriptNames w).2, out)
    /\ script_results out = (script_outcomes host self repo scriptNames w).1.1
    /\ execs out = (script_outcomes host self repo scriptNames w).1.2
    /\ repo_results out = [].
Proof.
  induction scriptNames as [| s rest IH]; intros results w.
  - exists []. cbn [script_outcomes fst snd]. rewrite app_nil_r.
    repeat split; reflexivity.
  - destruct (runScript_outcome self s (path repo) (name repo) w)
      as (o1 & Hrun & Hs1 & Hr1 & He1).
    unfold runScripts in *.
    erewrite forOf_cons_Ret; [| unfold bind; rewrite Hrun; reflexivity].
    cbn [script_outcomes] in *.
    destruct (existsSync host w (script_path host self s)); cbv zeta in *;
      cbn [fst snd] in *.
    + destruct (IH (results ++ [(s, child_ok (spawn host w
                  (script_request host self s (path repo) (name repo))).1)])
                  (spawn host w (script_request host self s (path repo) (name repo))).2)
        as (o2 & Hrest & Hs2 & He2 & Hr2).
      cbn in Hrest |- *. rewrite Hrest.
      unfold result_of, world_of, trace_of. cbn [fst snd].
      eexists. split; [rewrite <- app_assoc; reflexivity |].
      rewrite !script_results_app, !execs_app, !repo_results_app.
      rewrite Hs1, Hs2, He1, He2, Hr1, Hr2. repeat split.
    + destruct (IH (results ++ [(s, false)]) w) as (o2 & Hrest & Hs2 & He2 & Hr2).
      cbn in Hrest |- *. rewrite Hrest.
      unfold result_of, world_of, trace_of. cbn [fst snd].
      eexists. split; [rewrite <- app_assoc; reflexivity |].
      rewrite !script_results_app, !execs_app, !repo_results_app.
      rewrite Hs1, Hs2, He1, He2, Hr1, Hr2. repeat split.
Qed.

Lemma script_outcomes_names self repo scriptNames :
  forall w, map fst (script_outcomes host self repo scriptNames w).1.1 = scriptNames.
Proof.
  induction scriptNames as [| s rest IH]; intros w; [reflexivity |].
  cbn [script_outcomes].
  destruct (existsSync host w (script_path host self s)); cbv zeta; cbn [fst snd map];
    now rewrite IH.
Qed.

(** When the scripts have their files, all of them are started, whatever
    the children return. *)
Lemma script_outcomes_started self repo scriptNames :
  (forall w s, In s scriptNames ->
               existsSync host w (script_path host self s) = true) ->
  forall w,
    (script_outcomes host self repo scriptNames w).1.2
    = map (fun s => script_request host self s (path repo) (name repo)) scriptNames.
Proof.
  induction scriptNames as [| s rest IH]; intros Hexists w; [reflexivity |].
  cbn [script_outcomes]. rewrite (Hexists w s (or_introl eq_refl)).
  cbv zeta. cbn [fst snd map]. rewrite IH; [reflexivity |].
  intros w' s' Hs'. apply Hexists. now right.
Qed.

Lemma repo_outcomes_names self repos :
  forall w, map fst (repo_outcomes host self repos w).1.1 = map name repos.
Proof.
  induction repos as [| repo rest IH]; intros w; [reflexivity |].
  cbn [repo_outcomes]. cbv zeta. cbn [fst snd map]. now rewrite IH.
Qed.

Lemma repo_outcomes_started self repos :
  (forall w repo s, In repo repos -> In s (scripts (config repo)) ->
                    existsSync host w (script_path host self s) = true) ->
  forall w,
    (repo_outcomes host self repos w).1.2
    = flat_map
        (fun repo =>
           map (fun s => script_request host self s (path repo) (name repo))
             (scripts (config repo)))
        repos.
Proof.
  induction repos as [| repo rest IH]; intros Hexists w; [reflexivity |].
  cbn [repo_outcomes]. cbv zeta. cbn [fst snd flat_map].
  rewrite script_outcomes_started
    by (intros w' s Hs; apply (Hexists w' repo s); [now left | exact Hs]).
  rewrite IH by (intros w' r s Hr Hs; apply (Hexists w' r s); [now right | exact Hs]).
  reflexivity.
Qed.

Lemma lintRepository_outcomes self repo w :
  exists out,
    lintRepository host self repo w
    = (Ret (forallb snd (script_outcomes host self repo (scripts (config repo)) w).1.1),
       (script_outcomes host self repo (scripts (config repo)) w).2,
       [EvLog Header ("\n🔍 Linting " +:+ name repo)] ++ out
         ++ [status_line repo
               (forallb snd
                  (script_outcomes host self repo (scripts (config repo)) w).1.1)])
    /\ script_results out
       = (script_outcomes host self repo (scripts (config repo)) w).1.1
    /\ execs out = (script_outcomes host self repo (scripts (config repo)) w).1.2
    /\ repo_results out = []
    /\ (forall s, In s (scripts (config repo)) -> attempted host self repo s out).
Proof.
  destruct (lintRepository_returns self repo w)
    as (results & w' & out & Hloop & _ & _ & _ & Hlint).
  destruct (runScripts_outcomes self repo (scripts (config repo)) [] w)
    as (out' & Hloop' & Hs & He & Hr).
  rewrite Hloop in Hloop'. cbn [app] in Hloop'.
  injection Hloop' as Hres Hw Hout. subst results w' out'.
  exists out. split; [exact Hlint |]. repeat split; try assumption.
  intros s Hin.
  pose proof (runScripts_attempts self repo _ s Hin [] w) as Hatt.
  rewrite Hloop in Hatt. exact Hatt.
Qed.

Lemma lintRepository_observed self repo w :
  script_results (trace_of (lintRepository host self repo w))
  = (script_outcomes host self repo (scripts (config repo)) w).1.1
  /\ execs (trace_of (lintRepository host self repo w))
     = (script_outcomes host self repo (scripts (config repo)) w).1.2
  /\ repo_results (trace_of (lintRepository host self repo w)) = [].
Proof.
  destruct (lintRepository_outcomes self repo w) as (out & -> & Hs & He & Hr & _).
  unfold trace_of. cbn [snd].
  rewrite !script_results_app, !execs_app, !repo_results_app, Hs, He, Hr.
  destruct (forallb snd _); cbn; rewrite ?app_nil_r; repeat split.
Qed.

Lemma lintRepos_outcomes self repos :
  forall results w,
  exists out,
    lintRepos host self repos results w
    = (Ret (results ++ (repo_outcomes host self repos w).1.1),
       (repo_outcomes host self repos w).2, out)
    /\ repo_results out = (repo_outcomes host self repos w).1.1
    /\ execs out = (repo_outcomes host self repos w).1.2.
Proof.
  induction repos as [| repo rest IH]; intros results w.
  - exists []. cbn [repo_outcomes fst snd]. rewrite app_nil_r. repeat split.
  - destruct (lintRepository_outcomes self repo w) as (o1 & Hlint & _).
    destruct (lintRepository_observed self repo w) as (_ & He1 & Hr1).
    rewrite Hlint in He1, Hr1. unfold trace_of in He1, Hr1. cbn [snd] in He1, Hr1.
    unfold lintRepos in *.
    erewrite forOf_cons_Ret; [| unfold bind; rewrite Hlint; reflexivity].
    cbn [repo_outcomes]. cbv zeta. cbn [fst snd].
    set (here := script_outcomes host self repo (scripts (config repo)) w) in *.
    destruct (IH (results ++ [(name repo, forallb snd here.1.1)]) here.2)
      as (o2 & Hrest & Hr2 & He2).
    rewrite Hrest. unfold result_of, world_of, trace_of. cbn [fst snd].
    set (ol := [EvLog Header ("\n🔍 Linting " +:+ name repo)] ++ o1
                 ++ [status_line repo (forallb snd here.1.1)]) in *.
    eexists. split; [rewrite <- app_assoc; reflexivity |].
    rewrite !repo_results_app, !execs_app, Hr1, He1, Hr2, He2.
    cbn [repo_results execs flat_map app]. rewrite app_nil_r. split; reflexivity.
Qed.

(** *** Discovery *)

Lemma quiet_nil : quiet [].
Proof. constructor. Qed.

Lemma quiet_app o1 o2 : quiet o1 -> quiet o2 -> quiet (o1 ++ o2).
Proof. intros H1 H2. apply Forall_app. now split. Qed.

Lemma quiet_log item :
  JS.prop REPO_CONFIGS item = None ->
  quiet [EvLog Warn ("⚠️  Unknown repository: " +:+ item)].
Proof. intros H. repeat constructor. now exists item. Qed.

Lemma quiet_silent out :
  quiet out -> execs out = [] /\ script_results out = [] /\ repo_results out = [].
Proof.
  induction 1 as [| e out (item & -> & _) _ IH]; [repeat split |].
  destruct IH as (H1 & H2 & H3). repeat split; assumption.
Qed.

Lemma discover_body_Some self repos item w b :
  statSync_isDirectory host w (full_path host self item) = Some b ->
  exists out,
    quiet out
    /\ discover_body host self repos item w = (Ret (repos ++ repo_of_item host self w item), w, out).
Proof.
  intros Hstat. unfold discover_body, repo_of_item, bind, fs_statSync_isDirectory.
  fold (full_path host self item). rewrite Hstat. cbv beta iota zeta.
  destruct b; cbn [andb].
  - destruct (JS.startsWith item "Pyrrha-"
              && negb (String.eqb item "Pyrrha-Development-Tools")).
    + destruct (JS.prop REPO_CONFIGS item) eqn:Hcfg.
      * exists []. split; [apply quiet_nil | reflexivity].
      * rewrite app_nil_r. eexists.
        split; [| unfold log, emit, ret; cbv beta iota zeta; reflexivity].
        now apply quiet_log.
    + exists []. rewrite app_nil_r. split; [apply quiet_nil | reflexivity].
  - exists []. rewrite app_nil_r. split; [apply quiet_nil | reflexivity].
Qed.

Lemma discover_body_None self repos item w :
  statSync_isDirectory host w (full_path host self item) = None ->
  discover_body host self repos item w
    = (Throw (FsFailed "stat" (full_path host self item)), w, []).
Proof.
  intros Hstat. unfold discover_body, bind, fs_statSync_isDirectory.
  fold (full_path host self item). now rewrite Hstat.
Qed.

Lemma discover_loop self w items :
  forall repos,
  exists out,
    quiet out
    /\ if forallb (statable host self w) items
       then forOf items (discover_body host self) repos w
            = (Ret (repos ++ flat_map (repo_of_item host self w) items), w, out)
       else exists e, forOf items (discover_body host self) repos w = (Throw e, w, out).
Proof.
  induction items as [| item rest IH]; intros repos.
  - exists []. split; [apply quiet_nil |]. simpl. now rewrite app_nil_r.
  - cbn [forallb flat_map]. unfold statable at 1.
    destruct (statSync_isDirectory host w (full_path host self item)) as [b |] eqn:Hstat.
    + destruct (discover_body_Some self repos item w b Hstat) as (o1 & Hq1 & Hbody).
      rewrite (forOf_cons_Ret _ _ _ _ _ _ _ _ Hbody).
      destruct (IH (repos ++ repo_of_item host self w item)) as (o2 & Hq2 & Hrest).
      exists (o1 ++ o2). split; [now apply quiet_app |].
      cbn [andb]. destruct (forallb (statable host self w) rest).
      * rewrite Hrest. unfold result_of, world_of, trace_of. cbn [fst snd].
        now rewrite app_assoc.
      * destruct Hrest as [e Hrest]. exists e. now rewrite Hrest.
    + exists []. split; [apply quiet_nil |]. cbn [andb].
      eexists. cbn [forOf]. apply bind_Throw. now apply discover_body_None.
Qed.

(** [discoverRepos], run to its end: it returns [discovery host] or throws,
    and leaves the world as it was. *)
Lemma discoverRepos_spec self w :
  exists out,
    quiet out
    /\ match discovery host self w with
       | Some repos => discoverRepos host self w = (Ret repos, w, out)
       | None => exists e, discoverRepos host self w = (Throw e, w, out)
       end.
Proof.
  unfold discovery.
  change (discoverRepos host self)
    with (bind (fs_readdirSync host (workspaceRoot self))
               (fun items => forOf items (discover_body host self) [])).
  destruct (readdirSync host w (workspaceRoot self)) as [items |] eqn:Hdir.
  - destruct (discover_loop self w items []) as (out & Hq & Hloop).
    exists out. split; [exact Hq |].
    assert (Hread : fs_readdirSync host (workspaceRoot self) w = (Ret items, w, []))
      by (unfold fs_readdirSync; now rewrite Hdir).
    rewrite (bind_Ret _ _ _ _ _ _ Hread).
    destruct (forallb (statable host self w) items).
    + rewrite Hloop. reflexivity.
    + destruct Hloop as [e Hloop]. exists e. rewrite Hloop. reflexivity.
  - exists []. split; [apply quiet_nil |]. eexists.
    apply bind_Throw. unfold fs_readdirSync. now rewrite Hdir.
Qed.

(** *** The run *)

Lemma failed_of_none results :
  Nat.ltb 0 (length (failed_of results)) = negb (forallb snd results).
Proof.
  induction results as [| [r b] rest IH]; [reflexivity |].
  unfold failed_of in *. cbn [List.filter forallb snd].
  destruct b; cbn [negb andb]; [exact IH | reflexivity].
Qed.

Lemma passed_failed_length results :
  (length (passed_of results) + length (failed_of results))%nat = length results.
Proof.
  induction results as [| [r b] rest IH]; [reflexivity |].
  unfold passed_of, failed_of in *. cbn [List.filter snd].
  destruct b; cbn [negb length]; lia.
Qed.

Lemma run_discovery_throws self w e w1 o1 :
  discoverRepos host self w = (Throw e, w1, o1) ->
  run host self w = (Throw e, w1, banner self ++ o1).
Proof.
  intros Hdisc. unfold run, banner, log.
  eapply (bind_step _ _ _ tt w [_]); [reflexivity |].
  eapply (bind_step _ _ _ tt w [_]); [reflexivity |].
  now apply bind_Throw.
Qed.

Lemma run_no_targets self w repos w1 o1 :
  discoverRepos host self w = (Ret repos, w1, o1) ->
  targeted self repos = [] ->
  run host self w
    = (Ret tt, w1, banner self ++ o1 ++ [EvLog Warn "No repositories found to lint"]).
Proof.
  intros Hdisc Hnone. unfold run, banner, log.
  eapply (bind_step _ _ _ tt w [_]); [reflexivity |].
  eapply (bind_step _ _ _ tt w [_]); [reflexivity |].
  eapply bind_step; [exact Hdisc |]. cbv beta zeta.
  fold (targeted self repos). rewrite Hnone. cbn [length Nat.eqb].
  reflexivity.
Qed.

Lemma run_targets self w repos w1 o1 results w2 o2 :
  discoverRepos host self w = (Ret repos, w1, o1) ->
  targeted self repos <> [] ->
  lintRepos host self (targeted self repos) [] w1 = (Ret results, w2, o2) ->
  run host self w
    = (if forallb snd results then Ret tt else Exit 1, w2,
       banner self ++ o1 ++ found_lines (targeted self repos) ++ o2
         ++ summary_lines results).
Proof.
  intros Hdisc Hsome Hloop.
  assert (Hlen : Nat.eqb (length (targeted self repos)) 0 = false)
    by (destruct (targeted self repos); [contradiction | reflexivity]).
  unfold summary_lines. rewrite failed_of_none.
  unfold run, banner, log.
  eapply (bind_step _ _ _ tt w [_]); [reflexivity |].
  eapply (bind_step _ _ _ tt w [_]); [reflexivity |].
  eapply bind_step; [exact Hdisc |]. cbv beta zeta.
  fold (targeted self repos). rewrite Hlen.
  change (found_lines (targeted self repos) ++ o2 ++ ?rest)
    with ([EvLog Info ("Found " +:+ JS.toString (length (targeted self repos))
                         +:+ " repositories to lint:\n")]
          ++ map (fun repo =>
                    EvLog Info ("  • " +:+ name repo +:+ " ("
                                  +:+ type (config repo) +:+ ")"))
               (targeted self repos)
          ++ o2 ++ rest).
  eapply (bind_step _ _ _ tt w1 [_]); [reflexivity |].
  eapply bind_step; [apply forEach_emit |].
  eapply bind_step; [exact Hloop |]. cbv beta zeta.
  fold (passed_of results). fold (failed_of results).
  rewrite failed_of_none.
  eapply (bind_step _ _ _ tt w2 [_]); [reflexivity |].
  eapply (bind_step _ _ _ tt w2 [_]); [reflexivity |].
  destruct (forallb snd results); cbn [negb].
  - reflexivity.
  - eapply (bind_step _ _ _ tt w2 [_]); [reflexivity |].
    rewrite <- (app_nil_r (map _ (failed_of results))).
    eapply bind_step; [apply forEach_emit |]. reflexivity.
Qed.

(** *** The entry point *)

(** The constructor never throws. *)
Lemma constructor_eq argv w :
  constructor host argv w = (Ret (linter_of host argv), w, []).
Proof.
  unfold constructor, parseTargetRepos, linter_of, requested.
  destruct (find _ argv) as [repoArg |] eqn:Hfind; [| reflexivity].
  apply find_some in Hfind. destruct Hfind as [_ Hpre].
  destruct (repo_arg_names repoArg Hpre) as [names ->]. reflexivity.
Qed.

Lemma main_help argv w :
  wants_help argv = true ->
  main host argv w
    = {| exitCode := 0; final := w; output := [EvConsoleLog (Some (usage_text))] |}.
Proof.
  intros H. unfold main, script. fold (wants_help argv). rewrite H. reflexivity.
Qed.

(** Without a help flag, the process ends as [run] does; an exception of
    [run] is reported and turns into exit code 1. *)
Lemma main_run argv w :
  wants_help argv = false ->
  main host argv w =
    match run host (linter_of host argv) w with
    | (Ret _, w', out) => {| exitCode := 0; final := w'; output := out |}
    | (Throw e, w', out) =>
        {| exitCode := 1; final := w';
           output := out ++ [EvConsoleError "Fatal error:" e] |}
    | (Exit c, w', out) => {| exitCode := c; final := w'; output := out |}
    end.
Proof.
  intros H. unfold main, script. fold (wants_help argv). rewrite H.
  unfold bind at 1. rewrite constructor_eq. unfold try_catch.
  destruct (run host (linter_of host argv) w) as [[[u | e | c] w'] out];
    reflexivity.
Qed.

(** *** The shape of a whole run *)

Lemma only_logs_silent out :
  only_logs out -> execs out = [] /\ script_results out = [] /\ repo_results out = [].
Proof.
  induction 1 as [| e out (t & m & -> & _) _ IH]; [repeat split |].
  destruct IH as (H1 & H2 & H3). repeat split; assumption.
Qed.

Lemma only_logs_no_warning out : only_logs out -> warnings out = [].
Proof.
  induction 1 as [| e out (t & m & -> & Ht) _ IH]; [reflexivity |].
  destruct t; try exact IH. contradiction.
Qed.

Lemma only_logs_banner self : only_logs (banner self).
Proof. repeat constructor; now eexists _, _. Qed.

Lemma only_logs_found targetedRepos : only_logs (found_lines targetedRepos).
Proof.
  constructor; [now eexists _, _ |].
  apply List.Forall_forall. intros e He. apply in_map_iff in He.
  destruct He as (repo & <- & _). now eexists _, _.
Qed.

Lemma only_logs_summary results : only_logs (summary_lines results).
Proof.
  unfold summary_lines. apply Forall_app. split.
  - repeat constructor; now eexists _, _.
  - destruct (Nat.ltb 0 (length (failed_of results))).
    + constructor; [now eexists _, _ |].
      apply List.Forall_forall. intros e He. apply in_map_iff in He.
      destruct He as (f & <- & _). now eexists _, _.
    + repeat constructor; now eexists _, _.
Qed.

Lemma main_Run argv w :
  wants_help argv = false -> Run host argv w (main host argv w).
Proof.
  intros Hhelp. rewrite (main_run argv w Hhelp).
  set (self := linter_of host argv).
  destruct (discoverRepos_spec self w) as (o1 & Hq & Hdisc).
  destruct (discovery host self w) as [repos |] eqn:Hd.
  - destruct (targeted self repos) as [| r rs] eqn:Ht.
    + rewrite (run_no_targets self w repos w o1 Hdisc Ht).
      now apply (RunNothing host argv w repos o1).
    + destruct (lintRepos_returns self (targeted self repos) [] w)
        as (results & w2 & o2 & Hloop & Hm & Hr & Hall).
      simpl in Hloop.
      assert (Hne : targeted self repos <> []) by (rewrite Ht; discriminate).
      rewrite (run_targets self w repos w o1 results w2 o2 Hdisc Hne Hloop).
      pose proof (RunLinted host argv w repos o1 results w2 o2 Hd Hq Hne Hloop Hm Hr Hall)
        as HR.
      fold self in HR.
      destruct (forallb snd results); exact HR.
  - destruct Hdisc as [e Hdisc].
    rewrite (run_discovery_throws self w e w o1 Hdisc).
    now apply RunFatal.
Qed.

(** *** Where the child processes come from *)

Lemma runScript_emits self targetedRepos repo s :
  In repo targetedRepos -> In s (scripts (config repo)) ->
  emits_only (from_scripts host self targetedRepos)
    (runScript host self s (path repo) (name repo)).
Proof.
  intros Hrepo Hs w. rewrite runScript_eq.
  assert (Hreq : from_scripts host self targetedRepos
                   (EvExec (script_request host self s (path repo) (name repo))))
    by (exists repo, s; auto).
  destruct (existsSync host w (script_path host self s)); cbv zeta.
  - destruct (child_ok _); unfold trace_of; cbn [snd].
    + repeat (apply List.Forall_cons; [first [exact Hreq | discriminate] |]).
      constructor.
    + apply Forall_app. split.
      * repeat (apply List.Forall_cons; [first [exact Hreq | discriminate] |]).
        constructor.
      * destruct (verbose self); repeat constructor.
  - repeat constructor. discriminate.
Qed.

Lemma lintRepository_emits self targetedRepos repo :
  In repo targetedRepos ->
  emits_only (from_scripts host self targetedRepos) (lintRepository host self repo).
Proof.
  intros Hrepo. unfold lintRepository, log.
  apply emits_only_bind; [apply emits_only_emit; cbn; first [discriminate | exact I | destruct (forallb snd results); discriminate] |]. intros _.
  apply emits_only_bind.
  - apply emits_only_forOf. intros results s Hs.
    apply emits_only_bind; [now apply runScript_emits |]. intros b.
    apply emits_only_bind; [apply emits_only_emit; cbn; first [discriminate | exact I | destruct (forallb snd results); discriminate] |]. intros _.
    apply emits_only_ret.
  - intros results.
    apply emits_only_bind; [apply emits_only_emit; cbn; first [discriminate | exact I | destruct (forallb snd results); discriminate] |]. intros _.
    apply emits_only_ret.
Qed.

Lemma lintRepos_emits self targetedRepos results :
  emits_only (from_scripts host self targetedRepos) (lintRepos host self targetedRepos results).
Proof.
  unfold lintRepos. apply emits_only_forOf. intros rs repo Hrepo.
  apply emits_only_bind; [now apply lintRepository_emits |]. intros b.
  apply emits_only_bind; [apply emits_only_emit; cbn; first [discriminate | exact I | destruct (forallb snd results); discriminate] |]. intros _.
  apply emits_only_ret.
Qed.

Lemma only_logs_no_exec out req : only_logs out -> ~ In (EvExec req) out.
Proof.
  intros Hlogs Hin. apply in_execs in Hin.
  destruct (only_logs_silent out Hlogs) as (He & _). rewrite He in Hin.
  exact Hin.
Qed.

Lemma quiet_no_exec out req : quiet out -> ~ In (EvExec req) out.
Proof.
  intros Hq Hin. apply in_execs in Hin.
  destruct (quiet_silent out Hq) as (He & _). rewrite He in Hin.
  exact Hin.
Qed.

(** Every child process of a run is a configured script of a targeted
    repository, started as [runScript] does. *)
Lemma main_execs argv w req :
  In (EvExec req) (output (main host argv w)) ->
  exists repos repo s,
    discovery host (linter_of host argv) w = Some repos
    /\ In repo (targeted (linter_of host argv) repos)
    /\ In s (scripts (config repo))
    /\ req = script_request host (linter_of host argv) s (path repo) (name repo).
Proof.
  destruct (wants_help argv) eqn:Hhelp.
  - rewrite (main_help argv w Hhelp). cbn [output].
    intros [H | []]. discriminate.
  - pose proof (main_Run argv w Hhelp) as HR.
    destruct HR as [e o1 Hd Hq | repos o1 Hd Hq Ht
                   | repos o1 results w2 o2 Hd Hq Ht Hloop Hm Hr Hall];
      cbn [output]; rewrite !in_app_iff; intros Hin.
    + destruct Hin as [[Hin | Hin] | [Hin | []]]; try discriminate.
      * now apply only_logs_no_exec in Hin; [| apply only_logs_banner].
      * now apply quiet_no_exec in Hin.
    + destruct Hin as [Hin | [Hin | [Hin | []]]]; try discriminate.
      * now apply only_logs_no_exec in Hin; [| apply only_logs_banner].
      * now apply quiet_no_exec in Hin.
    + destruct Hin as [Hin | [Hin | [Hin | [Hin | Hin]]]].
      * now apply only_logs_no_exec in Hin; [| apply only_logs_banner].
      * now apply quiet_no_exec in Hin.
      * now apply only_logs_no_exec in Hin; [| apply only_logs_found].
      * pose proof (lintRepos_emits (linter_of host argv)
                      (targeted (linter_of host argv) repos) [] w) as Hall'.
        rewrite Hloop in Hall'. unfold trace_of in Hall'. cbn [snd] in Hall'.
        rewrite List.Forall_forall in Hall'. specialize (Hall' _ Hin).
        destruct Hall' as (repo & s & Hrepo & Hs & ->).
        now exists repos, repo, s.
      * now apply only_logs_no_exec in Hin; [| apply only_logs_summary].
Qed.

(** The results and the children of a run whose discovery succeeds are
    those of its targeted repositories, linted in turn. *)
Lemma main_outcomes argv w repos :
  wants_help argv = false ->
  discovery host (linter_of host argv) w = Some repos ->
  let after :=
    repo_outcomes host (linter_of host argv)
      (targeted (linter_of host argv) repos) w in
  repo_results (output (main host argv w)) = after.1.1
  /\ execs (output (main host argv w)) = after.1.2
  /\ final (main host argv w) = after.2.
Proof.
  intros Hhelp Hd. cbv zeta.
  destruct (main_Run argv w Hhelp)
    as [e o1 Hd' Hq | repos' o1 Hd' Hq Ht
       | repos' o1 results w2 o2 Hd' Hq Ht Hloop Hm Hr Hall];
    rewrite Hd in Hd'; inversion Hd'; subst; cbn [output final].
  - rewrite Ht. cbn [repo_outcomes fst snd].
    rewrite !repo_results_app, !execs_app.
    destruct (only_logs_silent _ (only_logs_banner (linter_of host argv)))
      as (-> & _ & ->).
    destruct (quiet_silent _ Hq) as (-> & _ & ->). repeat split.
  - destruct (lintRepos_outcomes (linter_of host argv)
                (targeted (linter_of host argv) repos') [] w)
      as (out & Hloop' & Hr' & He').
    rewrite Hloop in Hloop'. cbn [app] in Hloop'.
    injection Hloop' as Hres Hw Hout. subst w2 o2.
    rewrite !repo_results_app, !execs_app.
    destruct (only_logs_silent _ (only_logs_banner (linter_of host argv)))
      as (-> & _ & ->).
    destruct (quiet_silent _ Hq) as (-> & _ & ->).
    destruct (only_logs_silent _ (only_logs_found
                (targeted (linter_of host argv) repos'))) as (-> & _ & ->).
    destruct (only_logs_silent _ (only_logs_summary (repo_results out)))
      as (-> & _ & ->).
    cbn [app]. rewrite !app_nil_r. repeat split; assumption.
Qed.

End Methods.

(** ** The script runner *)

(** A child succeeds exactly when its exit status is 0. *)
Lemma child_ok_status child : child_ok child = true <-> status child = Some 0.
Proof.
  unfold child_ok. destruct (status child) as [[| q | q] |]; split;
    intros H; try reflexivity; discriminate.
Qed.


(** C2. [lintRepository] calls [runScript] for every script of the
    repository's dispatch list, in order and whatever the earlier ones
    returned: the results it records, the children it starts and the world
    it leaves are those of the whole list run in turn ([script_outcomes]),
    so that a script whose file exists when its turn comes is executed
    also after a failure, and one result is pushed per script.  When the
    scripts have their files, the children are those of all the scripts of
    the list, whatever they return.  It returns, and reports in its status
    line, [Passed] exactly when every invocation succeeded, so a list with
    a failing and a succeeding invocation is reported [Failed] with both
    results recorded. *)
Theorem lintRepository_runs_every_script {W} (host : Host W) self repo w :
  exists results w' out,
    lintRepository host self repo w = (Ret (forallb snd results), w', out)
    /\ script_results out = results
    /\ map fst results = scripts (config repo)
    /\ (results, execs out, w')
       = script_outcomes host self repo (scripts (config repo)) w
    /\ ((forall w0 s, In s (scripts (config repo)) ->
                      existsSync host w0 (script_path host self s) = true) ->
        execs out
        = map (fun s => script_request host self s (path repo) (name repo))
            (scripts (config repo)))
    /\ (forall s, In s (scripts (config repo)) -> attempted host self repo s out)
    /\ last out = Some (status_line repo (forallb snd results))
    /\ (forallb snd results = true <-> Forall (fun r => snd r = true) results)
    /\ (forall s, In (s, false) results ->
        forallb snd results = false
        /\ In (EvLog Error ("❌ FAILED" +:+ " " +:+ name repo)) out).
Proof.
  destruct (lintRepository_outcomes host self repo w)
    as (out & Hlint & Hs & He & _ & Hatt).
  pose proof (lintRepository_observed host self repo w) as (Hs' & He' & _).
  rewrite Hlint in Hs', He'. unfold trace_of in Hs', He'. cbn [snd] in Hs', He'.
  set (run := script_outcomes host self repo (scripts (config repo)) w) in *.
  exists run.1.1, run.2,
    ([EvLog Header ("\n🔍 Linting " +:+ name repo)] ++ out
       ++ [status_line repo (forallb snd run.1.1)]).
  assert (Hiff : forallb snd run.1.1 = true <-> Forall (fun r => snd r = true) run.1.1).
  { rewrite forallb_forall, List.Forall_forall. reflexivity. }
  split; [exact Hlint |]. split; [exact Hs' |].
  split; [apply script_outcomes_names |].
  split; [rewrite He'; now destruct run as [[? ?] ?] |].
  split; [| split; [| split; [| split]]].
  - intros Hexists. rewrite He'. apply script_outcomes_started, Hexists.
  - intros s Hin.
    destruct (Hatt s Hin) as [H | H]; [left | right];
      apply in_or_app; right; apply in_or_app; now left.
  - rewrite app_assoc. apply last_snoc.
  - exact Hiff.
  - intros s Hin.
    assert (Hfalse : forallb snd run.1.1 = false).
    { destruct (forallb snd run.1.1) eqn:Hall; [| reflexivity].
      rewrite forallb_forall in Hall. now specialize (Hall _ Hin). }
    split; [exact Hfalse |].
    rewrite Hfalse. rewrite !in_app_iff. right. right. now left.
Qed.

(** Two scripts, the first one without a file: both are attempted and
    recorded, the second one runs, and the repository fails. *)
Example mixed_list_runs_to_the_end :
  let host :=
    Fixture.host {| Fixture.entries := [];
                    Fixture.script_files := ["lint-python.sh"];
                    Fixture.failing := [] |} in
  let r := lintRepository host (linter_of host (Fixture.node [])) two_scripts 0%nat in
  result_of r = Ret false
  /\ script_results (trace_of r) = [("lint-missing.sh", false); ("lint-python.sh", true)]
  /\ length (execs (trace_of r)) = 1%nat.
Proof. vm_compute. repeat split. Qed.

(** Two scripts with their files, the first of which fails: the second is
    executed all the same, both results are recorded and the repository
    fails. *)
Lemma lintRepository_runs_every_script_witness :
  let host := scripted_host two_repos ["lint-python.sh"] in
  let self := linter_of host (Fixture.node []) in
  exists results w' out,
    lintRepository host self two_linters 0%nat = (Ret (forallb snd results), w', out)
    /\ script_results out = results
    /\ results = [("lint-python.sh", false); ("lint-nodejs.sh", true)]
    /\ execs out
       = [script_request host self "lint-python.sh"
            "/work/Pyrrha-Rules-Decision" "Pyrrha-Rules-Decision";
          script_request host self "lint-nodejs.sh"
            "/work/Pyrrha-Rules-Decision" "Pyrrha-Rules-Decision"]
    /\ forallb snd results = false
    /\ last out = Some (EvLog Error ("❌ FAILED" +:+ " " +:+ "Pyrrha-Rules-Decision")).
Proof.
  intros host self.
  destruct (lintRepository_runs_every_script host self two_linters 0%nat)
    as (results & w' & out & Hlint & Hs & _ & Hrun & Hexecs & _ & Hlast & _ & Hfail).
  assert (Hres : results = [("lint-python.sh", false); ("lint-nodejs.sh", true)]).
  { apply (f_equal (fun t => t.1.1)) in Hrun. exact Hrun. }
  exists results, w', out.
  split; [exact Hlint |]. split; [exact Hs |]. split; [exact Hres |].
  split; [| split].
  - apply Hexecs. intros w0 s [<- | [<- | []]]; reflexivity.
  - apply (Hfail "lint-python.sh"). rewrite Hres. now left.
  - rewrite Hlast, Hres. reflexivity.
Defined.


(** C7. [runScript] always returns a boolean: it neither throws nor ends
    the process.  It returns [true] exactly when the script file exists and
    the child exits with status 0; a missing script file (no child is
    started then) and any other exit give [false].  The loops go on
    regardless.  [lintRepository] runs the whole list in turn: its results
    and its children are those of every script of the list
    ([script_outcomes]), and when the scripts have their files all of them
    are executed, whatever the children return.  A run whose discovery
    succeeds does the same with every targeted repository
    ([repo_outcomes]): it records a result for each, and when the scripts
    have their files its children are those of all the scripts of all the
    targeted repositories. *)
Theorem runScript_never_throws {W} (host : Host W) self scriptName repoPath repoName
    repo argv repos w :
  (exists b w' out,
      runScript host self scriptName repoPath repoName w = (Ret b, w', out)
      /\ (b = true <->
          existsSync host w (script_path host self scriptName) = true
          /\ status (spawn host w
                       (script_request host self scriptName repoPath repoName)).1
             = Some 0)
      /\ (existsSync host w (script_path host self scriptName) = false ->
          b = false /\ w' = w /\ execs out = []))
  /\ (exists allPassed w' out,
         lintRepository host self repo w = (Ret allPassed, w', out)
         /\ map fst (script_results out) = scripts (config repo)
         /\ (script_results out, execs out, w')
            = script_outcomes host self repo (scripts (config repo)) w
         /\ ((forall w0 s, In s (scripts (config repo)) ->
                           existsSync host w0 (script_path host self s) = true) ->
             execs out
             = map (fun s => script_request host self s (path repo) (name repo))
                 (scripts (config repo))))
  /\ (wants_help argv = false ->
      discovery host (linter_of host argv) w = Some repos ->
      map fst (repo_results (output (main host argv w)))
        = map name (targeted (linter_of host argv) repos)
      /\ (repo_results (output (main host argv w)),
          execs (output (main host argv w)),
          final (main host argv w))
         = repo_outcomes host (linter_of host argv)
             (targeted (linter_of host argv) repos) w
      /\ ((forall w0 r s,
              In r (targeted (linter_of host argv) repos) ->
              In s (scripts (config r)) ->
              existsSync host w0 (script_path host (linter_of host argv) s) = true) ->
          execs (output (main host argv w))
          = planned_requests host (linter_of host argv)
              (targeted (linter_of host argv) repos))).
Proof.
  split; [| split].
  - destruct (runScript_returns host self scriptName repoPath repoName w)
      as (b & w' & out & Hrun & _ & _ & Hb).
    exists b, w', out. split; [exact Hrun |]. split.
    + rewrite Hb, child_ok_status. reflexivity.
    + intros Hmissing. rewrite runScript_eq, Hmissing in Hrun.
      inversion Hrun; subst. repeat split.
  - destruct (lintRepository_outcomes host self repo w) as (out & Hlint & _).
    pose proof (lintRepository_observed host self repo w) as (Hs & He & _).
    rewrite Hlint in Hs, He. unfold trace_of in Hs, He. cbn [snd] in Hs, He.
    eexists _, _, _. split; [exact Hlint |].
    rewrite Hs, He. split; [apply script_outcomes_names |].
    split; [now destruct (script_outcomes _ _ _ _ _) as [[? ?] ?] |].
    intros Hexists. apply script_outcomes_started, Hexists.
  - intros Hhelp Hd.
    destruct (main_outcomes host argv w repos Hhelp Hd) as (Hr & He & Hf).
    rewrite Hr, He, Hf. split; [apply repo_outcomes_names |].
    split; [now destruct (repo_outcomes _ _ _ _) as [[? ?] ?] |].
    intros Hexists. apply repo_outcomes_started, Hexists.
Qed.

(** Three repositories: the script of the first has no file, the script
    of the second fails, and the third is linted all the same. *)
Lemma runScript_never_throws_witness :
  let host := scripted_host three_repos ["lint-python.sh"] in
  let argv := Fixture.node [] in
  repo_results (output (main host argv 0%nat))
  = [("Pyrrha-Dashboard", false); ("Pyrrha-Rules-Decision", false);
     ("Pyrrha-Website", true)]
  /\ execs (output (main host argv 0%nat))
     = [script_request host (linter_of host argv) "lint-python.sh"
          "/work/Pyrrha-Rules-Decision" "Pyrrha-Rules-Decision";
        script_request host (linter_of host argv) "lint-nodejs.sh"
          "/work/Pyrrha-Website" "Pyrrha-Website"]
  /\ exitCode (main host argv 0%nat) = 1.
Proof.
  intros host argv.
  destruct (proj2 (proj2 (runScript_never_throws host (linter_of host argv)
                            "lint-dashboard.sh" "/work/Pyrrha-Dashboard"
                            "Pyrrha-Dashboard" dashboard argv
                            [dashboard; rules_decision; website] 0%nat))
              eq_refl eq_refl) as (_ & Hrun & _).
  split; [| split].
  - apply (f_equal (fun t => t.1.1)) in Hrun. exact Hrun.
  - apply (f_equal (fun t => t.1.2)) in Hrun. exact Hrun.
  - reflexivity.
Defined.

(** ** The dispatch table *)

Lemma prop_in_keys {A} (obj : list (string * A)) key v :
  JS.prop obj key = Some v -> In key (JS.keys obj).
Proof.
  induction obj as [| [k x] rest IH]; [discriminate |].
  cbn [JS.prop JS.keys map fst].
  destruct (String.eqb_spec key k) as [-> | Hne]; [now left |].
  intros H. right. now apply IH.
Qed.

(** C8. Every name of [REPO_CONFIGS] has a non-empty script list except
    [Pyrrha-Mobile-App], whose list is empty; linting a repository with an
    empty list starts no child, records no invocation, changes nothing and
    returns [true], with the status line [PASSED]. *)
Theorem empty_dispatch_list_passes {W} (host : Host W) self repo w :
  (forall key cfg,
      JS.prop REPO_CONFIGS key = Some cfg ->
      (scripts cfg = [] <-> key = "Pyrrha-Mobile-App"))
  /\ (exists cfg, JS.prop REPO_CONFIGS "Pyrrha-Mobile-App" = Some cfg
                  /\ scripts cfg = [])
  /\ (scripts (config repo) = [] ->
      lintRepository host self repo w
        = (Ret true, w,
           [EvLog Header ("\n🔍 Linting " +:+ name repo);
            EvLog Success ("✅ PASSED" +:+ " " +:+ name repo)])
      /\ execs (trace_of (lintRepository host self repo w)) = []
      /\ script_results (trace_of (lintRepository host self repo w)) = []).
Proof.
  split; [| split].
  - intros key cfg. unfold REPO_CONFIGS. cbn [JS.prop].
    repeat match goal with
           | |- context [String.eqb key ?k] =>
               destruct (String.eqb_spec key k) as [-> | ?];
               [intros [= <-]; cbn [scripts]; split; intros H;
                try discriminate H; reflexivity |]
           end.
    intros H; discriminate H.
  - eexists. split; [reflexivity | reflexivity].
  - intros Hempty.
    assert (Hlint : lintRepository host self repo w
                    = (Ret true, w,
                       [EvLog Header ("\n🔍 Linting " +:+ name repo);
                        EvLog Success ("✅ PASSED" +:+ " " +:+ name repo)])).
    { unfold lintRepository. rewrite Hempty. reflexivity. }
    rewrite Hlint. repeat split.
Qed.

Lemma empty_dispatch_list_passes_witness :
  lintRepository (Fixture.host two_repos)
    (linter_of (Fixture.host two_repos) (Fixture.node [])) mobile_app 0%nat
  = (Ret true, 0%nat,
     [EvLog Header ("\n🔍 Linting " +:+ "Pyrrha-Mobile-App");
      EvLog Success ("✅ PASSED" +:+ " " +:+ "Pyrrha-Mobile-App")])
  /\ execs (trace_of (lintRepository (Fixture.host two_repos)
                        (linter_of (Fixture.host two_repos) (Fixture.node []))
                        mobile_app 0%nat)) = []
  /\ script_results (trace_of (lintRepository (Fixture.host two_repos)
                                 (linter_of (Fixture.host two_repos) (Fixture.node []))
                                 mobile_app 0%nat)) = [].
Proof.
  apply (proj2 (proj2 (empty_dispatch_list_passes (Fixture.host two_repos)
                         (linter_of (Fixture.host two_repos) (Fixture.node []))
                         mobile_app 0%nat))).
  reflexivity.
Defined.

(** ** Fix mode *)

Lemma last_char_app s t :
  last_char (s +:+ t)
    = match last_char t with
      | Some c => Some c
      | None => last_char s
      end.
Proof.
  induction s as [| b s IH].
  - change ("" +:+ t) with t. now destruct (last_char t).
  - change (String b s +:+ t) with (String b (s +:+ t)).
    cbn [last_char]. rewrite IH.
    destruct s as [| b' s'].
    + change ("" +:+ t) with t. destruct t as [| c t']; [reflexivity |].
      destruct (last_char (String c t')) eqn:E; [reflexivity |].
      exfalso. clear IH. revert c E. induction t' as [| d t'' IHt]; intros c E.
      * discriminate.
      * cbn [last_char] in E. now apply (IHt d).
    + change (String b' s' +:+ t) with (String b' (s' +:+ t)). reflexivity.
Qed.

(** The command line ends with [--fix] in fix mode, with a space in check
    mode. *)
Lemma script_command_last scriptPath (fixing : bool) :
  last_char (script_command scriptPath (if fixing then ["--fix"] else []))
    = Some (if fixing then "x"%char else " "%char).
Proof.
  unfold script_command. rewrite !last_char_app.
  destruct fixing; reflexivity.
Qed.

(** C9. The mode is read once, by the constructor, from the presence of
    [--fix] in the command line, and every child of the run is started with
    the argument list of that one mode: with [--fix] for all of them, or for
    none. *)
Theorem fix_mode_is_uniform {W} (host : Host W) argv w :
  constructor host argv w = (Ret (linter_of host argv), w, [])
  /\ fixMode (linter_of host argv) = JS.includes argv "--fix"
  /\ Forall
       (fun req =>
          exists scriptPath,
            command req
              = script_command scriptPath
                  (if JS.includes argv "--fix" then ["--fix"] else []))
       (execs (output (main host argv w)))
  /\ (Forall (fun req => last_char (command req) = Some "x"%char)
        (execs (output (main host argv w)))
      \/ Forall (fun req => last_char (command req) = Some " "%char)
           (execs (output (main host argv w)))).
Proof.
  assert (Hall : Forall
       (fun req =>
          exists scriptPath,
            command req
              = script_command scriptPath
                  (if JS.includes argv "--fix" then ["--fix"] else []))
       (execs (output (main host argv w)))).
  { apply List.Forall_forall. intros req Hin. apply in_execs in Hin.
    destruct (main_execs host argv w req Hin) as (repos & repo & s & _ & _ & _ & ->).
    eexists. reflexivity. }
  split; [apply constructor_eq |]. split; [reflexivity |]. split; [exact Hall |].
  destruct (JS.includes argv "--fix") eqn:Hfix; [left | right];
    (eapply Forall_impl; [exact Hall |]); intros req [sp ->].
  - apply (script_command_last sp true).
  - apply (script_command_last sp false).
Qed.


(** ** The exit code *)

Section Observers.

Context {W : Type} (host : Host W).

Lemma observe_fatal self o1 e :
  quiet o1 ->
  let out := (banner self ++ o1) ++ [EvConsoleError "Fatal error:" e] in
  script_results out = [] /\ repo_results out = [] /\ execs out = [].
Proof.
  intros Hq out. subst out.
  destruct (only_logs_silent _ (only_logs_banner self)) as (E1 & S1 & R1).
  destruct (quiet_silent _ Hq) as (E2 & S2 & R2).
  rewrite !script_results_app, !repo_results_app, !execs_app.
  rewrite E1, S1, R1, E2, S2, R2. repeat split.
Qed.

Lemma observe_nothing self o1 m :
  quiet o1 ->
  let out := banner self ++ o1 ++ [EvLog Warn m] in
  script_results out = [] /\ repo_results out = [] /\ execs out = [].
Proof.
  intros Hq out. subst out.
  destruct (only_logs_silent _ (only_logs_banner self)) as (E1 & S1 & R1).
  destruct (quiet_silent _ Hq) as (E2 & S2 & R2).
  rewrite !script_results_app, !repo_results_app, !execs_app.
  rewrite E1, S1, R1, E2, S2, R2. repeat split.
Qed.

Lemma observe_linted self o1 targetedRepos o2 results :
  quiet o1 ->
  let out := banner self ++ o1 ++ found_lines targetedRepos ++ o2
               ++ summary_lines results in
  script_results out = script_results o2
  /\ repo_results out = repo_results o2
  /\ execs out = execs o2.
Proof.
  intros Hq out. subst out.
  destruct (only_logs_silent _ (only_logs_banner self)) as (E1 & S1 & R1).
  destruct (quiet_silent _ Hq) as (E2 & S2 & R2).
  destruct (only_logs_silent _ (only_logs_found targetedRepos)) as (E3 & S3 & R3).
  destruct (only_logs_silent _ (only_logs_summary results)) as (E4 & S4 & R4).
  rewrite !script_results_app, !repo_results_app, !execs_app.
  rewrite E1, S1, R1, E2, S2, R2, E3, S3, R3, E4, S4, R4.
  cbn [app]. rewrite !app_nil_r. repeat split.
Qed.

End Observers.

(** C1, as the code has it.  In a run without a help flag whose discovery
    succeeds (the workspace root can be listed and every entry examined),
    the exit code is 0 exactly when every script invocation of the run
    succeeded, and 1 otherwise.  When discovery throws, no script is
    invoked and the exit code is 1. *)
Theorem exit_code_reflects_invocations {W} (host : Host W) argv w :
  wants_help argv = false ->
  (discovery host (linter_of host argv) w <> None ->
   (exitCode (main host argv w) = 0 <->
    Forall (fun r => snd r = true) (script_results (output (main host argv w))))
   /\ (exitCode (main host argv w) = 0 \/ exitCode (main host argv w) = 1))
  /\ (discovery host (linter_of host argv) w = None ->
      exitCode (main host argv w) = 1
      /\ script_results (output (main host argv w)) = []
      /\ execs (output (main host argv w)) = []).
Proof.
  intros Hhelp.
  destruct (main_Run host argv w Hhelp)
    as [e o1 Hd Hq | repos o1 Hd Hq Ht
       | repos o1 results w2 o2 Hd Hq Ht Hloop Hm Hr Hall];
    cbn [exitCode output]; (split; [intros Hok | intros Hnone]);
    try congruence.
  - destruct (observe_fatal (linter_of host argv) o1 e Hq) as (S & _ & E).
    now rewrite S, E.
  - destruct (observe_nothing (linter_of host argv) o1
                "No repositories found to lint" Hq) as (-> & _ & _).
    split; [| now left]. split; [constructor | reflexivity].
  - destruct (observe_linted (linter_of host argv) o1
                (targeted (linter_of host argv) repos) o2 results Hq)
      as (-> & _ & _).
    rewrite Hall.
    assert (Hiff : forallb snd (script_results o2) = true
                   <-> Forall (fun r => snd r = true) (script_results o2))
      by (rewrite forallb_forall, List.Forall_forall; reflexivity).
    rewrite <- Hiff.
    destruct (forallb snd (script_results o2)); split;
      try (now left); try (now right); split; congruence.
Qed.

Lemma exit_code_reflects_invocations_witness :
  (exitCode (main (Fixture.host two_repos) (Fixture.node []) 0%nat) = 0 <->
   Forall (fun r => snd r = true)
     (script_results (output (main (Fixture.host two_repos) (Fixture.node []) 0%nat))))
  /\ (exitCode (main (Fixture.host two_repos) (Fixture.node []) 0%nat) = 0
      \/ exitCode (main (Fixture.host two_repos) (Fixture.node []) 0%nat) = 1).
Proof.
  apply (exit_code_reflects_invocations (Fixture.host two_repos) (Fixture.node []) 0%nat).
  - reflexivity.
  - vm_compute. discriminate.
Defined.

(** C1 as stated fails: [statSync] throws on the dangling entry, the
    handler of [run]'s promise exits with code 1, and no script was invoked,
    so that every invocation of the run succeeded. *)
Lemma exit_code_one_without_failure :
  let o := main (Fixture.host dangling) (Fixture.node []) 0%nat in
  wants_help (Fixture.node []) = false
  /\ ~ (exitCode o = 0 <-> Forall (fun r => snd r = true) (script_results (output o))).
Proof.
  intros o. split; [reflexivity |].
  assert (E1 : exitCode o = 1) by (vm_compute; reflexivity).
  assert (E2 : script_results (output o) = []) by (vm_compute; reflexivity).
  rewrite E1, E2. intros [_ H]. specialize (H (List.Forall_nil _)). discriminate.
Qed.

(** ** Unrecognised arguments *)

Lemma includes_insert pre arg post x :
  String.eqb arg x = false ->
  JS.includes (pre ++ arg :: post) x = JS.includes (pre ++ post) x.
Proof.
  intros H. unfold JS.includes. rewrite !existsb_app. cbn [existsb].
  now rewrite String.eqb_sym, H.
Qed.

Lemma find_insert {A} (p : A -> bool) pre arg post :
  p arg = false -> find p (pre ++ arg :: post) = find p (pre ++ post).
Proof.
  intros H. induction pre as [| a pre IH]; cbn [app find].
  - now rewrite H.
  - destruct (p a); [reflexivity | exact IH].
Qed.

(** The run depends on the command line through the help check and the
    fields of the linter only. *)
Lemma main_same_options {W} (host : Host W) argv1 argv2 w :
  wants_help argv1 = wants_help argv2 ->
  linter_of host argv1 = linter_of host argv2 ->
  main host argv1 w = main host argv2 w.
Proof.
  intros Hhelp Hlinter. destruct (wants_help argv2) eqn:H2.
  - now rewrite (main_help host argv1 w Hhelp), (main_help host argv2 w H2).
  - now rewrite (main_run host argv1 w Hhelp), (main_run host argv2 w H2), Hlinter.
Qed.

(** C5, as the code has it.  The command line is never validated: an
    argument outside the recognised set is ignored wherever it stands, and
    the run, its output and its exit code are those of the command line
    without it. *)
Theorem unrecognised_argument_ignored {W} (host : Host W) pre arg post w :
  recognized arg = false ->
  main host (pre ++ arg :: post) w = main host (pre ++ post) w.
Proof.
  unfold recognized. intros H.
  repeat (apply orb_false_iff in H; destruct H as [H ?]).
  apply main_same_options.
  - unfold wants_help. now rewrite !includes_insert.
  - unfold linter_of, requested, JS.startsWith in *.
    rewrite !includes_insert by assumption.
    now rewrite (find_insert (fun a => String.prefix "--repo=" a)).
Qed.

Lemma unrecognised_argument_ignored_witness :
  main (Fixture.host two_repos) (Fixture.node ["--fix"; "--bogus"; "-v"]) 0%nat
  = main (Fixture.host two_repos) (Fixture.node ["--fix"; "-v"]) 0%nat.
Proof.
  apply (unrecognised_argument_ignored (Fixture.host two_repos)
           (Fixture.node ["--fix"]) "--bogus" ["-v"] 0%nat).
  reflexivity.
Defined.

(** C5 as stated fails: an unknown flag does not make the run exit with
    code 1. *)
Lemma unknown_flag_exits_zero :
  recognized "--bogus" = false
  /\ exitCode (main (Fixture.host two_repos) (Fixture.node ["--bogus"]) 0%nat) = 0.
Proof. split; vm_compute; reflexivity. Qed.

(** ** Which repositories are linted *)

Section Targets.

Context {W : Type} (host : Host W).

(** What [discoverRepos] puts in its array. *)
Lemma discovery_sound self w repos r :
  discovery host self w = Some repos -> In r repos ->
  (exists items,
      readdirSync host w (workspaceRoot self) = Some items /\ In (name r) items)
  /\ path r = full_path host self (name r)
  /\ statSync_isDirectory host w (full_path host self (name r)) = Some true
  /\ JS.startsWith (name r) "Pyrrha-" = true
  /\ name r <> "Pyrrha-Development-Tools"
  /\ JS.prop REPO_CONFIGS (name r) = Some (config r).
Proof.
  unfold discovery.
  destruct (readdirSync host w (workspaceRoot self)) as [items |]; [| discriminate].
  destruct (forallb (statable host self w) items); [| discriminate].
  intros [= <-] Hin. apply in_flat_map in Hin. destruct Hin as (item & Hitem & Hin).
  unfold repo_of_item in Hin.
  destruct (statSync_isDirectory host w (full_path host self item))
    as [[|] |] eqn:Hstat; try contradiction.
  destruct (JS.startsWith item "Pyrrha-"
            && negb (String.eqb item "Pyrrha-Development-Tools")) eqn:Hname;
    [| contradiction].
  destruct (JS.prop REPO_CONFIGS item) as [cfg |] eqn:Hcfg; [| contradiction].
  destruct Hin as [<- | []]. cbn [name path config].
  apply andb_true_iff in Hname. destruct Hname as [Hpre Hne].
  apply negb_true_iff, String.eqb_neq in Hne.
  repeat split; try assumption. now exists items.
Qed.

Lemma targeted_sound self repos r :
  In r (targeted self repos) ->
  In r repos
  /\ (forall requested, targetRepos self = Some requested -> In (name r) requested).
Proof.
  unfold targeted. destruct (targetRepos self) as [req |].
  - intros Hin. apply filter_In in Hin. destruct Hin as [Hin Hinc].
    split; [exact Hin |]. intros ? [= <-].
    unfold JS.includes in Hinc. apply existsb_exists in Hinc.
    destruct Hinc as (x & Hx & Heq). apply String.eqb_eq in Heq. now subst.
  - intros Hin. split; [exact Hin | discriminate].
Qed.

(** Two linters that differ in their requests only, and request the same
    discovered repositories, run alike. *)
Lemma run_same_targets self1 self2 w :
  workspaceRoot self1 = workspaceRoot self2 ->
  toolsRoot self1 = toolsRoot self2 ->
  fixMode self1 = fixMode self2 ->
  verbose self1 = verbose self2 ->
  (forall repos, discovery host self1 w = Some repos ->
                 targeted self1 repos = targeted self2 repos) ->
  run host self1 w = run host self2 w.
Proof.
  destruct self1 as [wr1 tr1 fm1 vb1 t1], self2 as [wr2 tr2 fm2 vb2 t2].
  cbn [workspaceRoot toolsRoot fixMode verbose].
  intros <- <- <- <- Hsame.
  set (self1 := {| workspaceRoot := wr1; toolsRoot := tr1; fixMode := fm1;
                   verbose := vb1; targetRepos := t1 |}) in *.
  set (self2 := {| workspaceRoot := wr1; toolsRoot := tr1; fixMode := fm1;
                   verbose := vb1; targetRepos := t2 |}) in *.
  destruct (discoverRepos_spec host self1 w) as (o1 & Hq & Hdisc).
  destruct (discovery host self1 w) as [repos |] eqn:Hd.
  - specialize (Hsame repos eq_refl).
    assert (Hdisc2 : discoverRepos host self2 w = (Ret repos, w, o1)) by exact Hdisc.
    destruct (targeted self1 repos) as [| r rs] eqn:Ht.
    + rewrite (run_no_targets host self1 w repos w o1 Hdisc Ht).
      rewrite (run_no_targets host self2 w repos w o1 Hdisc2 (eq_sym Hsame)).
      reflexivity.
    + destruct (lintRepos_returns host self1 (targeted self1 repos) [] w)
        as (results & w2 & o2 & Hloop & _).
      cbn [app] in Hloop.
      assert (Hne1 : targeted self1 repos <> []) by (rewrite Ht; discriminate).
      assert (Hne2 : targeted self2 repos <> [])
        by (rewrite <- Hsame; discriminate).
      assert (Hloop2 : lintRepos host self2 (targeted self2 repos) [] w
                       = (Ret results, w2, o2)).
      { rewrite <- Hsame, <- Ht. exact Hloop. }
      rewrite (run_targets host self1 w repos w o1 results w2 o2 Hdisc Hne1 Hloop).
      rewrite (run_targets host self2 w repos w o1 results w2 o2 Hdisc2 Hne2 Hloop2).
      rewrite <- Hsame, Ht. reflexivity.
  - destruct Hdisc as [e Hdisc].
    assert (Hdisc2 : discoverRepos host self2 w = (Throw e, w, o1)) by exact Hdisc.
    rewrite (run_discovery_throws host self1 w e w o1 Hdisc).
    rewrite (run_discovery_throws host self2 w e w o1 Hdisc2).
    reflexivity.
Qed.

Lemma quiet_warnings out : quiet out -> Forall known_warning (warnings out).
Proof.
  induction 1 as [| e out (item & -> & Hcfg) _ IH]; [constructor |].
  cbn [warnings flat_map app]. constructor; [| exact IH].
  right. now exists item.
Qed.

Lemma from_scripts_no_warning self targetedRepos out :
  Forall (from_scripts host self targetedRepos) out -> warnings out = [].
Proof.
  induction 1 as [| e out He _ IH]; [reflexivity |].
  destruct e as [t m | | | | |]; try exact IH.
  destruct t; try exact IH. now contradiction He.
Qed.

(** Every warning of a run is one of the two. *)
Lemma main_warnings argv w :
  Forall known_warning (warnings (output (main host argv w))).
Proof.
  destruct (wants_help argv) eqn:Hhelp.
  - rewrite (main_help host argv w Hhelp). constructor.
  - destruct (main_Run host argv w Hhelp)
      as [e o1 Hd Hq | repos o1 Hd Hq Ht
         | repos o1 results w2 o2 Hd Hq Ht Hloop Hm Hr Hall]; cbn [output];
      rewrite !warnings_app,
        (only_logs_no_warning _ (only_logs_banner (linter_of host argv)));
      cbn [app].
    + cbn [warnings flat_map]. rewrite app_nil_r. now apply quiet_warnings.
    + apply Forall_app. split; [now apply quiet_warnings |].
      repeat constructor.
    + rewrite (only_logs_no_warning _ (only_logs_found _)).
      rewrite (only_logs_no_warning _ (only_logs_summary _)).
      pose proof (lintRepos_emits host (linter_of host argv)
                    (targeted (linter_of host argv) repos) [] w) as Hemit.
      rewrite Hloop in Hemit. unfold trace_of in Hemit. cbn [snd] in Hemit.
      rewrite (from_scripts_no_warning _ _ _ Hemit).
      cbn [app]. rewrite app_nil_r. now apply quiet_warnings.
Qed.

End Targets.

(** ** The environment of a child *)

Lemma script_env_lookup {W} (host : Host W) self repoPath repoName :
  script_env host self repoPath repoName !! "REPO_PATH" = Some repoPath
  /\ script_env host self repoPath repoName !! "REPO_NAME" = Some repoName
  /\ script_env host self repoPath repoName !! "TOOLS_ROOT" = Some (toolsRoot self)
  /\ (forall key,
         key <> "REPO_PATH" -> key <> "REPO_NAME" -> key <> "TOOLS_ROOT" ->
         script_env host self repoPath repoName !! key = process_env host !! key).
Proof.
  unfold script_env. repeat split.
  - rewrite !lookup_insert_ne by discriminate. apply lookup_insert_eq.
  - rewrite lookup_insert_ne by discriminate. apply lookup_insert_eq.
  - apply lookup_insert_eq.
  - intros key H1 H2 H3. rewrite !lookup_insert_ne by congruence. reflexivity.
Qed.

(** C6, as the code has it.  Every child is the script of the dispatch
    list of a targeted repository: a directory of the workspace that
    discovery has found and, when [--repo=] is given, that has been
    requested.  It gets the path of that repository (the workspace root
    joined with its name, which is also its working directory), the name
    of that repository and the tools root in [REPO_PATH], [REPO_NAME] and
    [TOOLS_ROOT]; every other variable is inherited from the
    orchestrator's own environment.  The mode is not among them: it
    travels as the [--fix] argument of the command line. *)
Theorem child_environment {W} (host : Host W) argv w req :
  In req (execs (output (main host argv w))) ->
  exists repos repo scriptName,
    discovery host (linter_of host argv) w = Some repos
    /\ In repo (targeted (linter_of host argv) repos)
    /\ JS.prop REPO_CONFIGS (name repo) = Some (config repo)
    /\ In scriptName (scripts (config repo))
    /\ path repo = path_join host [WORKSPACE_ROOT host; name repo]
    /\ (forall names, requested argv = Some names -> In (name repo) names)
    /\ cwd req = path repo
    /\ env req !! "REPO_PATH" = Some (path repo)
    /\ env req !! "REPO_NAME" = Some (name repo)
    /\ env req !! "TOOLS_ROOT" = Some (TOOLS_ROOT host)
    /\ (forall key,
           key <> "REPO_PATH" -> key <> "REPO_NAME" -> key <> "TOOLS_ROOT" ->
           env req !! key = process_env host !! key)
    /\ command req
       = script_command (path_join host [TOOLS_ROOT host; "scripts"; scriptName])
           (if JS.includes argv "--fix" then ["--fix"] else []).
Proof.
  intros Hin. apply in_execs in Hin.
  destruct (main_execs host argv w req Hin) as (repos & repo & s & Hd & Hrepo & Hs & ->).
  destruct (targeted_sound _ _ _ Hrepo) as [Hfound Hrequested].
  destruct (discovery_sound host _ _ _ _ Hd Hfound) as (_ & Hpath & _ & _ & _ & Hcfg).
  exists repos, repo, s.
  destruct (script_env_lookup host (linter_of host argv) (path repo) (name repo))
    as (H1 & H2 & H3 & H4).
  cbn [cwd env command script_request].
  split; [exact Hd |]. split; [exact Hrepo |]. split; [exact Hcfg |].
  split; [exact Hs |]. split; [exact Hpath |]. split; [exact Hrequested |].
  repeat split; assumption.
Qed.

Lemma child_environment_witness :
  let host := Fixture.host two_repos in
  let argv := Fixture.node ["--fix"; "--repo=Pyrrha-Dashboard"] in
  let req :=
    script_request host (linter_of host argv)
      "lint-dashboard.sh" "/work/Pyrrha-Dashboard" "Pyrrha-Dashboard" in
  exists repos repo scriptName,
    discovery host (linter_of host argv) 0%nat = Some repos
    /\ In repo (targeted (linter_of host argv) repos)
    /\ JS.prop REPO_CONFIGS (name repo) = Some (config repo)
    /\ In scriptName (scripts (config repo))
    /\ path repo = path_join host [WORKSPACE_ROOT host; name repo]
    /\ (forall names, requested argv = Some names -> In (name repo) names)
    /\ cwd req = path repo
    /\ env req !! "REPO_PATH" = Some (path repo)
    /\ env req !! "REPO_NAME" = Some (name repo)
    /\ env req !! "TOOLS_ROOT" = Some (TOOLS_ROOT host)
    /\ (forall key,
           key <> "REPO_PATH" -> key <> "REPO_NAME" -> key <> "TOOLS_ROOT" ->
           env req !! key = process_env host !! key)
    /\ command req
       = script_command (path_join host [TOOLS_ROOT host; "scripts"; scriptName])
           (if JS.includes argv "--fix" then ["--fix"] else []).
Proof.
  intros host argv req.
  apply (child_environment host argv 0%nat req).
  vm_compute. left. reflexivity.
Defined.

(** C6 as stated fails: were the mode one of the environment variables, it
    could be read back from the environment of a child.  The dashboard
    script gets the same environment with and without [--fix]. *)
Lemma mode_not_in_environment :
  ~ exists decode : gmap string string -> bool,
      forall argv req,
        In req (execs (output (main (Fixture.host two_repos) argv 0%nat))) ->
        decode (env req) = JS.includes argv "--fix".
Proof.
  intros [decode Hdecode].
  pose (check := script_request (Fixture.host two_repos)
                   (linter_of (Fixture.host two_repos) (Fixture.node []))
                   "lint-dashboard.sh" "/work/Pyrrha-Dashboard" "Pyrrha-Dashboard").
  pose (fixing := script_request (Fixture.host two_repos)
                    (linter_of (Fixture.host two_repos) (Fixture.node ["--fix"]))
                    "lint-dashboard.sh" "/work/Pyrrha-Dashboard" "Pyrrha-Dashboard").
  assert (H1 : decode (env check) = false).
  { apply (Hdecode (Fixture.node []) check). vm_compute. left. reflexivity. }
  assert (H2 : decode (env fixing) = true).
  { apply (Hdecode (Fixture.node ["--fix"]) fixing). vm_compute. left. reflexivity. }
  change (env fixing) with (env check) in H2. congruence.
Qed.

(** C3, as the code has it.  The requested names are never compared with
    the known set: a requested name outside it is dropped without a word
    and the run goes on with the remaining targets.  Two command lines whose
    [--repo=] lists agree on the known names, and which agree on the other
    options, give the same run: the same output, the same children, the same
    exit code.  The only warnings of a run are that there is nothing to
    lint, and those of discovery about the directories of the workspace that
    have no configuration. *)
Theorem unknown_requests_dropped {W} (host : Host W) argv1 argv2 req1 req2 w :
  wants_help argv1 = false -> wants_help argv2 = false ->
  JS.includes argv1 "--fix" = JS.includes argv2 "--fix" ->
  JS.includes argv1 "--verbose" || JS.includes argv1 "-v"
    = JS.includes argv2 "--verbose" || JS.includes argv2 "-v" ->
  requested argv1 = Some req1 -> requested argv2 = Some req2 ->
  (forall key, In key (JS.keys REPO_CONFIGS) ->
               JS.includes req1 key = JS.includes req2 key) ->
  main host argv1 w = main host argv2 w
  /\ Forall known_warning (warnings (output (main host argv1 w))).
Proof.
  intros Hh1 Hh2 Hfix Hverbose Hr1 Hr2 Hagree.
  split; [| apply main_warnings].
  rewrite (main_run host argv1 w Hh1), (main_run host argv2 w Hh2).
  rewrite (run_same_targets host (linter_of host argv1) (linter_of host argv2) w);
    try reflexivity; try assumption.
  intros repos Hd. unfold targeted, linter_of. cbn [targetRepos].
  rewrite Hr1, Hr2. apply filter_ext_in. intros r Hin.
  apply Hagree.
  destruct (discovery_sound host _ w repos r Hd Hin) as (_ & _ & _ & _ & _ & Hcfg).
  now apply prop_in_keys in Hcfg.
Qed.

Lemma unknown_requests_dropped_witness :
  main (Fixture.host two_repos) (Fixture.node ["--repo=Pyrrha-Dashboard,Unknown"]) 0%nat
  = main (Fixture.host two_repos) (Fixture.node ["--repo=Pyrrha-Dashboard"]) 0%nat
  /\ Forall known_warning
       (warnings (output (main (Fixture.host two_repos)
                            (Fixture.node ["--repo=Pyrrha-Dashboard,Unknown"]) 0%nat))).
Proof.
  apply (unknown_requests_dropped (Fixture.host two_repos)
           (Fixture.node ["--repo=Pyrrha-Dashboard,Unknown"])
           (Fixture.node ["--repo=Pyrrha-Dashboard"])
           ["Pyrrha-Dashboard"; "Unknown"] ["Pyrrha-Dashboard"] 0%nat);
    try reflexivity.
  intros key Hin. vm_compute in Hin.
  repeat (destruct Hin as [<- | Hin]; [reflexivity |]). contradiction.
Defined.

(** C3 as stated fails: [Unknown] is requested next to the dashboard, the
    dashboard is linted, and the run prints no warning at all. *)
Lemma unknown_request_not_reported :
  let o := main (Fixture.host two_repos)
             (Fixture.node ["--repo=Pyrrha-Dashboard,Unknown"]) 0%nat in
  requested (Fixture.node ["--repo=Pyrrha-Dashboard,Unknown"])
    = Some ["Pyrrha-Dashboard"; "Unknown"]
  /\ ~ In "Unknown" (JS.keys REPO_CONFIGS)
  /\ warnings (output o) = []
  /\ repo_results (output o) = [("Pyrrha-Dashboard", true)].
Proof.
  intros o. split; [reflexivity |]. split.
  - vm_compute. intuition discriminate.
  - split; vm_compute; reflexivity.
Qed.

(** ** A request with unknown names only *)

Lemma summary_has_header results :
  In (EvLog Header "\n📊 Summary:") (summary_lines results).
Proof. unfold summary_lines. now left. Qed.

Lemma filter_none {A} (f : A -> bool) l :
  (forall x, In x l -> f x = false) -> List.filter f l = [].
Proof.
  induction l as [| a l IH]; [reflexivity |]. intros H. cbn [List.filter].
  rewrite (H a (or_introl eq_refl)). apply IH. intros x Hx. apply H. now right.
Qed.

(** C4, as the code has it.  When every requested name is outside the known
    set and discovery succeeds, no repository is targeted: the run prints
    the warning [No repositories found to lint] and returns at once, with
    no script invoked, nothing changed and exit code 0.  It returns before
    the Summary, which is not printed. *)
Theorem only_unknown_requests {W} (host : Host W) argv req repos w :
  wants_help argv = false ->
  requested argv = Some req ->
  (forall key, In key (JS.keys REPO_CONFIGS) -> JS.includes req key = false) ->
  discovery host (linter_of host argv) w = Some repos ->
  targeted (linter_of host argv) repos = []
  /\ exitCode (main host argv w) = 0
  /\ final (main host argv w) = w
  /\ last (output (main host argv w)) = Some (EvLog Warn "No repositories found to lint")
  /\ execs (output (main host argv w)) = []
  /\ script_results (output (main host argv w)) = []
  /\ repo_results (output (main host argv w)) = []
  /\ (forall total, ~ prints_summary (output (main host argv w)) total).
Proof.
  intros Hhelp Hreq Hunknown Hd.
  assert (Hnone : targeted (linter_of host argv) repos = []).
  { unfold targeted, linter_of. cbn [targetRepos]. rewrite Hreq.
    apply filter_none. intros r Hin. apply Hunknown.
    destruct (discovery_sound host _ w repos r Hd Hin) as (_ & _ & _ & _ & _ & Hcfg).
    now apply prop_in_keys in Hcfg. }
  split; [exact Hnone |].
  destruct (main_Run host argv w Hhelp)
    as [e o1 Hd' Hq | repos' o1 Hd' Hq Ht
       | repos' o1 results w2 o2 Hd' Hq Ht Hloop Hm Hr Hall];
    rewrite Hd in Hd'; inversion Hd'; subst; try contradiction.
  cbn [exitCode final output].
  destruct (observe_nothing (linter_of host argv) o1
              "No repositories found to lint" Hq) as (-> & -> & ->).
  repeat split.
  - rewrite !app_assoc. apply last_snoc.
  - intros total (before & results & Heq & _).
    pose proof (summary_has_header results) as Hin.
    assert (Hin' : In (EvLog Header "\n📊 Summary:")
                     (banner (linter_of host argv) ++ o1
                        ++ [EvLog Warn "No repositories found to lint"])).
    { rewrite Heq. apply in_or_app. now right. }
    rewrite !in_app_iff in Hin'.
    destruct Hin' as [[Hb | [Hb | []]] | [Ho | [Hw | []]]]; try discriminate.
    unfold quiet in Hq. rewrite List.Forall_forall in Hq.
    destruct (Hq _ Ho) as (item & Hitem & _). discriminate Hitem.
Qed.

Lemma only_unknown_requests_witness :
  targeted (linter_of (Fixture.host two_repos) (Fixture.node ["--repo=Unknown"]))
    [dashboard; website] = []
  /\ exitCode (main (Fixture.host two_repos) (Fixture.node ["--repo=Unknown"]) 0%nat) = 0
  /\ final (main (Fixture.host two_repos) (Fixture.node ["--repo=Unknown"]) 0%nat) = 0%nat
  /\ last (output (main (Fixture.host two_repos) (Fixture.node ["--repo=Unknown"]) 0%nat))
     = Some (EvLog Warn "No repositories found to lint")
  /\ execs (output (main (Fixture.host two_repos) (Fixture.node ["--repo=Unknown"]) 0%nat)) = []
  /\ script_results
       (output (main (Fixture.host two_repos) (Fixture.node ["--repo=Unknown"]) 0%nat)) = []
  /\ repo_results
       (output (main (Fixture.host two_repos) (Fixture.node ["--repo=Unknown"]) 0%nat)) = []
  /\ (forall total,
         ~ prints_summary
             (output (main (Fixture.host two_repos) (Fixture.node ["--repo=Unknown"]) 0%nat))
             total).
Proof.
  apply (only_unknown_requests (Fixture.host two_repos)
           (Fixture.node ["--repo=Unknown"]) ["Unknown"]).
  - reflexivity.
  - reflexivity.
  - intros key Hin. vm_compute in Hin.
    repeat (destruct Hin as [<- | Hin]; [reflexivity |]). contradiction.
  - vm_compute. reflexivity.
Defined.

(** C4 as stated fails: with [--repo=Unknown] the run prints its banner and
    the warning and stops; there is no Summary with total 0. *)
Lemma no_summary_without_targets :
  let o := main (Fixture.host two_repos) (Fixture.node ["--repo=Unknown"]) 0%nat in
  output o = [EvLog Header "🚀 Pyrrha Platform - Centralized Linting";
              EvLog Info "Mode: CHECK";
              EvLog Warn "No repositories found to lint"]
  /\ ~ prints_summary (output o) 0.
Proof.
  intros o.
  assert (Hout : output o = [EvLog Header "🚀 Pyrrha Platform - Centralized Linting";
                             EvLog Info "Mode: CHECK";
                             EvLog Warn "No repositories found to lint"])
    by (vm_compute; reflexivity).
  split; [exact Hout |].
  intros (before & results & Heq & _).
  pose proof (summary_has_header results) as Hin.
  assert (Hin' : In (EvLog Header "\n📊 Summary:") (output o))
    by (rewrite Heq; apply in_or_app; now right).
  rewrite Hout in Hin'.
  destruct Hin' as [H | [H | [H | []]]]; discriminate.
Qed.

(** ** Linted repositories and the Summary *)

Section Linted.

Context {W : Type} (host : Host W).

Lemma repo_of_item_cases self w item :
  repo_of_item host self w item = []
  \/ exists r, repo_of_item host self w item = [r] /\ name r = item.
Proof.
  unfold repo_of_item.
  destruct (statSync_isDirectory host w (full_path host self item)) as [[|] |];
    try (now left).
  destruct (JS.startsWith item "Pyrrha-"
            && negb (String.eqb item "Pyrrha-Development-Tools")); [| now left].
  destruct (JS.prop REPO_CONFIGS item); [| now left].
  right. eexists. split; reflexivity.
Qed.

Lemma discovered_names_in self w items x :
  In x (map name (flat_map (repo_of_item host self w) items)) -> In x items.
Proof.
  induction items as [| item rest IH]; [intros [] |].
  cbn [flat_map]. rewrite map_app, in_app_iff.
  intros [Hin | Hin]; [| right; now apply IH].
  destruct (repo_of_item_cases self w item) as [Hnil | (r & Hone & Hname)].
  - rewrite Hnil in Hin. destruct Hin.
  - rewrite Hone in Hin. destruct Hin as [<- | []]. now left.
Qed.

Lemma discovered_names_NoDup self w items :
  List.NoDup items -> List.NoDup (map name (flat_map (repo_of_item host self w) items)).
Proof.
  induction 1 as [| item rest Hnotin Hnodup IH]; [constructor |].
  cbn [flat_map]. rewrite map_app.
  destruct (repo_of_item_cases self w item) as [-> | (r & -> & Hname)];
    [exact IH |].
  cbn [map app]. constructor; [| exact IH].
  rewrite Hname. intros Hin. apply Hnotin.
  now apply (discovered_names_in self w).
Qed.

Lemma filter_names_NoDup (p : Repo -> bool) repos :
  List.NoDup (map name repos) -> List.NoDup (map name (List.filter p repos)).
Proof.
  induction repos as [| r rest IH]; [constructor |].
  cbn [map List.filter]. intros Hnd. inversion Hnd as [| x l Hnotin Hrest]; subst.
  destruct (p r); [| now apply IH].
  cbn [map]. constructor; [| now apply IH].
  intros Hin. apply Hnotin.
  apply in_map_iff in Hin. destruct Hin as (r' & Hname & Hin).
  apply filter_In in Hin. destruct Hin as [Hin _].
  apply in_map_iff. now exists r'.
Qed.

Lemma targeted_names_NoDup self repos :
  List.NoDup (map name repos) -> List.NoDup (map name (targeted self repos)).
Proof.
  unfold targeted. destruct (targetRepos self); [| trivial].
  apply filter_names_NoDup.
Qed.

(** The results pushed by [run]: one per targeted repository, in order;
    none when there is no target or discovery throws. *)
Lemma main_repo_results argv w :
  repo_results (output (main host argv w)) = []
  \/ exists repos before,
       wants_help argv = false
       /\ discovery host (linter_of host argv) w = Some repos
       /\ map fst (repo_results (output (main host argv w)))
          = map name (targeted (linter_of host argv) repos)
       /\ output (main host argv w)
          = before ++ summary_lines (repo_results (output (main host argv w))).
Proof.
  destruct (wants_help argv) eqn:Hhelp.
  - left. now rewrite (main_help host argv w Hhelp).
  - destruct (main_Run host argv w Hhelp)
      as [e o1 Hd Hq | repos o1 Hd Hq Ht
         | repos o1 results w2 o2 Hd Hq Ht Hloop Hm Hr Hall]; cbn [output].
    + left. now destruct (observe_fatal (linter_of host argv) o1 e Hq) as (_ & -> & _).
    + left. now destruct (observe_nothing (linter_of host argv) o1
                            "No repositories found to lint" Hq) as (_ & -> & _).
    + right.
      destruct (observe_linted (linter_of host argv) o1
                  (targeted (linter_of host argv) repos) o2 results Hq)
        as (_ & -> & _).
      rewrite Hr. exists repos. eexists.
      repeat split; try assumption.
      rewrite !app_assoc. reflexivity.
Qed.

End Linted.

(** C10.  Whatever the command line, a repository is linted only if it is
    a key of [REPO_CONFIGS], is an entry of the workspace root that is a
    directory, has a name that starts with [Pyrrha-] and is not
    [Pyrrha-Development-Tools], and was requested when there is a
    [--repo=] argument.  The Summary counts every linted repository once,
    as passed or as failed; and as a directory listing has no duplicates,
    no repository is linted twice. *)
Theorem linted_repositories {W} (host : Host W) argv w :
  (forall r b,
      In (r, b) (repo_results (output (main host argv w))) ->
      In r (JS.keys REPO_CONFIGS)
      /\ (exists items,
             readdirSync host w (WORKSPACE_ROOT host) = Some items /\ In r items)
      /\ statSync_isDirectory host w (path_join host [WORKSPACE_ROOT host; r])
         = Some true
      /\ JS.startsWith r "Pyrrha-" = true
      /\ r <> "Pyrrha-Development-Tools"
      /\ (forall req, requested argv = Some req -> In r req))
  /\ (repo_results (output (main host argv w)) <> [] ->
      (exists before,
          output (main host argv w)
          = before ++ summary_lines (repo_results (output (main host argv w))))
      /\ (length (passed_of (repo_results (output (main host argv w))))
          + length (failed_of (repo_results (output (main host argv w)))))%nat
         = length (repo_results (output (main host argv w))))
  /\ ((forall items,
          readdirSync host w (WORKSPACE_ROOT host) = Some items -> List.NoDup items) ->
      List.NoDup (map fst (repo_results (output (main host argv w))))).
Proof.
  destruct (main_repo_results host argv w)
    as [Hnone | (repos & before & Hhelp & Hd & Hnames & Hout)].
  - rewrite Hnone. split; [intros r b [] |]. split; [congruence |].
    intros _. constructor.
  - split; [| split].
    + intros r b Hin.
      assert (Hr : In r (map name (targeted (linter_of host argv) repos))).
      { rewrite <- Hnames. apply in_map_iff. now exists (r, b). }
      apply in_map_iff in Hr. destruct Hr as (repo & <- & Hrepo).
      destruct (targeted_sound _ _ _ Hrepo) as [Hin' Hreq].
      destruct (discovery_sound host _ w repos repo Hd Hin')
        as (Hitems & _ & Hstat & Hpre & Hne & Hcfg).
      repeat split; try assumption.
      now apply prop_in_keys in Hcfg.
    + intros _. split; [now exists before | apply passed_failed_length].
    + intros Hnodup. rewrite Hnames. apply targeted_names_NoDup.
      unfold discovery in Hd. cbn [linter_of workspaceRoot] in Hd.
      destruct (readdirSync host w (WORKSPACE_ROOT host)) as [items |] eqn:Hdir;
        [| discriminate].
      destruct (forallb _ items); [| discriminate].
      injection Hd as <-. apply discovered_names_NoDup. now apply Hnodup.
Qed.

Lemma linted_repositories_witness :
  In "Pyrrha-Website" (JS.keys REPO_CONFIGS)
  /\ (exists items,
         readdirSync (Fixture.host two_repos) 0%nat
           (WORKSPACE_ROOT (Fixture.host two_repos)) = Some items
         /\ In "Pyrrha-Website" items)
  /\ statSync_isDirectory (Fixture.host two_repos) 0%nat
       (path_join (Fixture.host two_repos)
          [WORKSPACE_ROOT (Fixture.host two_repos); "Pyrrha-Website"]) = Some true
  /\ JS.startsWith "Pyrrha-Website" "Pyrrha-" = true
  /\ "Pyrrha-Website" <> "Pyrrha-Development-Tools"
  /\ (forall req,
         requested (Fixture.node ["--repo=Pyrrha-Website,README.md"]) = Some req ->
         In "Pyrrha-Website" req).
Proof.
  apply (proj1 (linted_repositories (Fixture.host two_repos)
                  (Fixture.node ["--repo=Pyrrha-Website,README.md"]) 0%nat)
           "Pyrrha-Website" true).
  vm_compute. left. reflexivity.
Defined.

(** * Further properties *)

(** ** Splitting and joining *)

Lemma append_cons a s t : String a s +:+ t = String a (s +:+ t).
Proof. reflexivity. Qed.

Lemma append_nil_l t : "" +:+ t = t.
Proof. reflexivity. Qed.

Lemma split_no_sep sep s : no_char sep s = true -> JS.split sep s = [s].
Proof.
  induction s as [| a s IH]; [reflexivity |].
  cbn [no_char JS.split]. intros H. apply andb_true_iff in H. destruct H as [Ha Hs].
  apply negb_true_iff in Ha. rewrite Ha, (IH Hs). reflexivity.
Qed.

Lemma split_at_sep sep s t :
  no_char sep s = true -> JS.split sep (s +:+ String sep t) = s :: JS.split sep t.
Proof.
  induction s as [| a s IH]; intros H.
  - rewrite append_nil_l. cbn [JS.split]. now rewrite Ascii.eqb_refl.
  - cbn [no_char] in H. apply andb_true_iff in H. destruct H as [Ha Hs].
    apply negb_true_iff in Ha.
    rewrite append_cons. cbn [JS.split]. rewrite Ha, (IH Hs). reflexivity.
Qed.

Lemma no_char_append c s t : no_char c (s +:+ t) = no_char c s && no_char c t.
Proof.
  induction s as [| a s IH]; [reflexivity |].
  rewrite append_cons. cbn [no_char]. rewrite IH. now rewrite andb_assoc.
Qed.

Lemma join_cons sep x y rest :
  JS.join sep (x :: y :: rest) = x +:+ sep +:+ JS.join sep (y :: rest).
Proof. reflexivity. Qed.

Lemma no_char_join c sep names :
  no_char c sep = true -> Forall (fun n => no_char c n = true) names ->
  no_char c (JS.join sep names) = true.
Proof.
  intros Hsep. induction names as [| x [| y rest] IH]; intros Hall.
  - reflexivity.
  - now inversion Hall.
  - rewrite join_cons, !no_char_append, Hsep.
    inversion Hall as [| ? ? Hx Hrest]; subst. now rewrite Hx, (IH Hrest).
Qed.

(** Splitting what [join] built gives the pieces back. *)
Lemma split_join sep names :
  names <> [] -> Forall (fun n => no_char sep n = true) names ->
  JS.split sep (JS.join (String sep EmptyString) names) = names.
Proof.
  induction names as [| x [| y rest] IH]; intros Hne Hall.
  - contradiction.
  - inversion Hall; subst. now apply split_no_sep.
  - inversion Hall as [| ? ? Hx Hrest]; subst.
    rewrite join_cons.
    change (x +:+ String sep EmptyString +:+ JS.join (String sep EmptyString) (y :: rest))
      with (x +:+ String sep (JS.join (String sep EmptyString) (y :: rest))).
    rewrite (split_at_sep sep x _ Hx), IH; [reflexivity | discriminate | exact Hrest].
Qed.

Lemma prefix_append p s : String.prefix p (p +:+ s) = true.
Proof.
  induction p as [| a p IH]; [rewrite append_nil_l; now destruct s |].
  rewrite append_cons. cbn [String.prefix].
  destruct (ascii_dec a a) as [_ | Hne]; [exact IH | contradiction].
Qed.

Lemma find_first {A} (p : A -> bool) pre x post :
  Forall (fun a => p a = false) pre -> p x = true ->
  find p (pre ++ x :: post) = Some x.
Proof.
  intros Hpre Hx. induction Hpre as [| a pre Ha _ IH]; cbn [app find].
  - now rewrite Hx.
  - now rewrite Ha.
Qed.

Lemma parseTargetRepos_eq {W} argv (w : W) :
  parseTargetRepos argv w = (Ret (requested argv), w, []).
Proof.
  unfold parseTargetRepos, requested.
  destruct (find _ argv) as [repoArg |] eqn:Hfind; [| reflexivity].
  apply find_some in Hfind. destruct Hfind as [_ Hpre].
  destruct (repo_arg_names repoArg Hpre) as [names ->]. reflexivity.
Qed.

(** X1.  The first [--repo=] argument of the command line decides the
    request, whatever follows it: for a non-empty list of names without
    [,] and [=], [parseTargetRepos] gives back exactly the names that were
    joined with commas. *)
Theorem repo_argument_round_trip {W} pre names post (w : W) :
  names <> [] ->
  Forall (fun n => no_char ","%char n = true) names ->
  Forall (fun n => no_char "="%char n = true) names ->
  Forall (fun a => JS.startsWith a "--repo=" = false) pre ->
  parseTargetRepos (pre ++ ("--repo=" +:+ JS.join "," names) :: post) w
  = (Ret (Some names), w, []).
Proof.
  intros Hne Hcomma Heq Hpre. rewrite parseTargetRepos_eq. unfold requested.
  rewrite (find_first _ pre _ post Hpre) by apply prefix_append.
  change ("--repo=" +:+ JS.join "," names)
    with ("--repo" +:+ String "="%char (JS.join "," names)).
  rewrite split_at_sep by reflexivity.
  rewrite split_no_sep by (now apply no_char_join).
  cbn [nth_error]. now rewrite split_join.
Qed.

Lemma repo_argument_round_trip_witness :
  parseTargetRepos
    (Fixture.node ["--fix"; "--repo=" +:+ JS.join "," ["Pyrrha-Website"; "Pyrrha-Firmware"];
                   "--repo=Pyrrha-Dashboard"]) 0%nat
  = (Ret (Some ["Pyrrha-Website"; "Pyrrha-Firmware"]), 0%nat, []).
Proof.
  apply (repo_argument_round_trip (Fixture.node ["--fix"])
           ["Pyrrha-Website"; "Pyrrha-Firmware"] ["--repo=Pyrrha-Dashboard"] 0%nat).
  - discriminate.
  - repeat constructor.
  - repeat constructor.
  - repeat constructor.
Defined.

(** X2.  Only the text between the first and the second [=] of the
    [--repo=] argument is read: what follows a second [=] is dropped. *)
Theorem repo_argument_cut_at_second_equals {W} pre names rest post (w : W) :
  no_char "="%char names = true ->
  Forall (fun a => JS.startsWith a "--repo=" = false) pre ->
  parseTargetRepos (pre ++ ("--repo=" +:+ names +:+ "=" +:+ rest) :: post) w
  = (Ret (Some (JS.split ","%char names)), w, []).
Proof.
  intros Hnames Hpre. rewrite parseTargetRepos_eq. unfold requested.
  rewrite (find_first _ pre _ post Hpre) by apply prefix_append.
  change ("--repo=" +:+ names +:+ "=" +:+ rest)
    with ("--repo" +:+ String "="%char (names +:+ String "="%char rest)).
  rewrite split_at_sep by reflexivity.
  rewrite (split_at_sep "="%char names rest Hnames).
  reflexivity.
Qed.

Lemma repo_argument_cut_at_second_equals_witness :
  parseTargetRepos
    (Fixture.node ["--repo=" +:+ "Pyrrha-Website,Pyrrha-Firmware" +:+ "=" +:+ "Pyrrha-Dashboard"])
    0%nat
  = (Ret (Some (JS.split ","%char "Pyrrha-Website,Pyrrha-Firmware")), 0%nat, []).
Proof.
  apply (repo_argument_cut_at_second_equals (Fixture.node [])
           "Pyrrha-Website,Pyrrha-Firmware" "Pyrrha-Dashboard" [] 0%nat).
  - reflexivity.
  - repeat constructor.
Defined.

(** ** The usage text *)

Lemma append_assoc a b c : (a +:+ b) +:+ c = a +:+ b +:+ c.
Proof.
  induction a as [| x a IH]; [reflexivity |].
  rewrite !append_cons. now rewrite IH.
Qed.

Lemma append_nil_r a : a +:+ "" = a.
Proof.
  induction a as [| x a IH]; [reflexivity |].
  rewrite append_cons. now rewrite IH.
Qed.

Lemma occurs_in_refl s : occurs_in s s.
Proof. exists "", "". now rewrite append_nil_l, append_nil_r. Qed.

Lemma occurs_in_trans a b c : occurs_in a b -> occurs_in b c -> occurs_in a c.
Proof.
  intros (p1 & q1 & ->) (p2 & q2 & ->).
  exists (p2 +:+ p1), (q1 +:+ q2). now rewrite !append_assoc.
Qed.

Lemma occurs_in_join sep x l : In x l -> occurs_in x (JS.join sep l).
Proof.
  induction l as [| y [| z rest] IH]; intros Hin.
  - destruct Hin.
  - destruct Hin as [-> | []]. apply occurs_in_refl.
  - rewrite join_cons. destruct Hin as [-> | Hin].
    + exists "", (sep +:+ JS.join sep (z :: rest)). now rewrite append_nil_l.
    + destruct (IH Hin) as (p & q & ->).
      exists (y +:+ sep +:+ p), q. now rewrite !append_assoc.
Qed.

(** X3.  A help flag anywhere on the command line wins over everything
    else: the usage text is printed and the process exits with code 0
    before the workspace is read or any script started.  The text names
    every repository of [REPO_CONFIGS]. *)
Theorem help_wins {W} (host : Host W) argv w :
  wants_help argv = true ->
  exitCode (main host argv w) = 0
  /\ final (main host argv w) = w
  /\ output (main host argv w) = [EvConsoleLog (Some usage_text)]
  /\ (forall key, In key (JS.keys REPO_CONFIGS) ->
                  occurs_in ("  • " +:+ key) usage_text).
Proof.
  intros Hhelp. rewrite (main_help host argv w Hhelp). cbn [exitCode final output].
  repeat split. intros key Hin.
  apply (occurs_in_trans _
           (JS.join "\n" (map (fun name => "  • " +:+ name) (JS.keys REPO_CONFIGS)))).
  - apply occurs_in_join. apply in_map_iff. now exists key.
  - unfold usage_text. apply occurs_in_join. cbn [In]. do 19 right. now left.
Qed.

Lemma help_wins_witness :
  exitCode (main (Fixture.host dangling) (Fixture.node ["--fix"; "--bogus"; "-h"]) 0%nat) = 0
  /\ final (main (Fixture.host dangling) (Fixture.node ["--fix"; "--bogus"; "-h"]) 0%nat)
     = 0%nat
  /\ output (main (Fixture.host dangling) (Fixture.node ["--fix"; "--bogus"; "-h"]) 0%nat)
     = [EvConsoleLog (Some usage_text)]
  /\ (forall key, In key (JS.keys REPO_CONFIGS) ->
                  occurs_in ("  • " +:+ key) usage_text).
Proof.
  apply (help_wins (Fixture.host dangling) (Fixture.node ["--fix"; "--bogus"; "-h"]) 0%nat).
  reflexivity.
Defined.

(** ** What discovery returns *)

Section Discovered.

Context {W : Type} (host : Host W).

Lemma discover_body_exact self repos item w b :
  statSync_isDirectory host w (full_path host self item) = Some b ->
  discover_body host self repos item w
  = (Ret (repos ++ repo_of_item host self w item), w, warning_of_item host self w item).
Proof.
  intros Hstat.
  unfold discover_body, repo_of_item, warning_of_item, candidate, configured,
    bind, fs_statSync_isDirectory.
  fold (full_path host self item). rewrite Hstat. cbv beta iota zeta.
  destruct b; cbn [andb]; [| now rewrite app_nil_r].
  destruct (JS.startsWith item "Pyrrha-"
            && negb (String.eqb item "Pyrrha-Development-Tools")); cbn [andb].
  - destruct (JS.prop REPO_CONFIGS item); cbn [negb]; [reflexivity |].
    now rewrite app_nil_r.
  - now rewrite app_nil_r.
Qed.

Lemma discover_loop_exact self w items :
  forallb (statable host self w) items = true ->
  forall repos,
    forOf items (discover_body host self) repos w
    = (Ret (repos ++ flat_map (repo_of_item host self w) items), w,
       flat_map (warning_of_item host self w) items).
Proof.
  induction items as [| item rest IH]; intros Hstat repos.
  - cbn. now rewrite app_nil_r.
  - cbn [forallb] in Hstat. apply andb_true_iff in Hstat. destruct Hstat as [Hitem Hrest].
    unfold statable in Hitem.
    destruct (statSync_isDirectory host w (full_path host self item)) as [b |] eqn:Hb;
      [| discriminate].
    rewrite (forOf_cons_Ret _ _ _ _ _ _ _ _ (discover_body_exact self repos item w b Hb)).
    rewrite (IH Hrest). unfold result_of, world_of, trace_of. cbn [fst snd flat_map].
    now rewrite app_assoc.
Qed.

Lemma repo_of_item_filter self w items :
  map name (flat_map (repo_of_item host self w) items)
  = List.filter (fun item => candidate host self w item && configured item) items.
Proof.
  induction items as [| item rest IH]; [reflexivity |].
  cbn [flat_map List.filter]. rewrite map_app, IH.
  unfold repo_of_item, candidate, configured.
  destruct (statSync_isDirectory host w (full_path host self item)) as [[|] |];
    try reflexivity.
  destruct (JS.startsWith item "Pyrrha-"
            && negb (String.eqb item "Pyrrha-Development-Tools")); [| reflexivity].
  destruct (JS.prop REPO_CONFIGS item); reflexivity.
Qed.

Lemma warning_of_item_filter self w items :
  flat_map (warning_of_item host self w) items
  = map (fun item => EvLog Warn ("⚠️  Unknown repository: " +:+ item))
      (List.filter (fun item => candidate host self w item && negb (configured item))
         items).
Proof.
  induction items as [| item rest IH]; [reflexivity |].
  cbn [flat_map List.filter]. rewrite IH. unfold warning_of_item.
  destruct (candidate host self w item && negb (configured item)); reflexivity.
Qed.

Lemma discovery_listing self w items :
  readdirSync host w (workspaceRoot self) = Some items ->
  forallb (statable host self w) items = true ->
  discovery host self w = Some (flat_map (repo_of_item host self w) items).
Proof. intros Hdir Hstat. unfold discovery. now rewrite Hdir, Hstat. Qed.

Lemma targeted_names self w items :
  map name (targeted self (flat_map (repo_of_item host self w) items))
  = List.filter (selected host self w) items.
Proof.
  unfold targeted, selected.
  destruct (targetRepos self) as [req |].
  - induction items as [| item rest IH]; [reflexivity |].
    cbn [flat_map List.filter]. rewrite List.filter_app, map_app, IH.
    unfold repo_of_item, candidate, configured.
    destruct (statSync_isDirectory host w (full_path host self item)) as [[|] |];
      try reflexivity.
    destruct (JS.startsWith item "Pyrrha-"
              && negb (String.eqb item "Pyrrha-Development-Tools")); [| reflexivity].
    destruct (JS.prop REPO_CONFIGS item); [| reflexivity].
    cbn [List.filter name andb]. destruct (JS.includes req item); reflexivity.
  - rewrite repo_of_item_filter. apply filter_ext. intros item.
    now rewrite andb_true_r.
Qed.

End Discovered.

(** X4.  When the workspace root can be listed and every entry examined,
    [discoverRepos] leaves the world as it is and returns, in the order of
    the listing, one repository for each entry that is a directory, is named
    [Pyrrha-...], is not [Pyrrha-Development-Tools] and has a configuration,
    with that configuration and its path under the root.  It prints one
    warning for each such directory that has no configuration, and nothing
    else. *)
Theorem discoverRepos_result {W} (host : Host W) self w items :
  readdirSync host w (workspaceRoot self) = Some items ->
  forallb (statable host self w) items = true ->
  exists repos,
    discoverRepos host self w
    = (Ret repos, w,
       map (fun item => EvLog Warn ("⚠️  Unknown repository: " +:+ item))
         (List.filter (fun item => candidate host self w item && negb (configured item))
            items))
    /\ map name repos
       = List.filter (fun item => candidate host self w item && configured item) items
    /\ Forall (fun r => path r = path_join host [workspaceRoot self; name r]
                        /\ JS.prop REPO_CONFIGS (name r) = Some (config r)) repos.
Proof.
  intros Hdir Hstat. exists (flat_map (repo_of_item host self w) items).
  split; [| split].
  - change (discoverRepos host self)
      with (bind (fs_readdirSync host (workspaceRoot self))
                 (fun items => forOf items (discover_body host self) [])).
    assert (Hread : fs_readdirSync host (workspaceRoot self) w = (Ret items, w, []))
      by (unfold fs_readdirSync; now rewrite Hdir).
    rewrite (bind_Ret _ _ _ _ _ _ Hread).
    rewrite (discover_loop_exact host self w items Hstat []).
    unfold result_of, world_of, trace_of. cbn [fst snd app].
    now rewrite warning_of_item_filter.
  - apply repo_of_item_filter.
  - apply List.Forall_forall. intros r Hin.
    destruct (discovery_sound host self w _ r (discovery_listing host self w items Hdir Hstat) Hin)
      as (_ & Hpath & _ & _ & _ & Hcfg).
    split; assumption.
Qed.

(** A workspace with a directory that has no configuration. *)
Lemma discoverRepos_result_witness :
  exists repos,
    discoverRepos (Fixture.host stray_directory)
      (linter_of (Fixture.host stray_directory) (Fixture.node [])) 0%nat
    = (Ret repos, 0%nat,
       map (fun item => EvLog Warn ("⚠️  Unknown repository: " +:+ item))
         (List.filter
            (fun item =>
               candidate (Fixture.host stray_directory)
                 (linter_of (Fixture.host stray_directory) (Fixture.node [])) 0%nat item
               && negb (configured item))
            ["Pyrrha-Sandbox"; "Pyrrha-Website"; "notes"; "Pyrrha-Development-Tools"]))
    /\ map name repos
       = List.filter
           (fun item =>
              candidate (Fixture.host stray_directory)
                (linter_of (Fixture.host stray_directory) (Fixture.node [])) 0%nat item
              && configured item)
           ["Pyrrha-Sandbox"; "Pyrrha-Website"; "notes"; "Pyrrha-Development-Tools"]
    /\ Forall
         (fun r =>
            path r = path_join (Fixture.host stray_directory)
                       [workspaceRoot
                          (linter_of (Fixture.host stray_directory) (Fixture.node []));
                        name r]
            /\ JS.prop REPO_CONFIGS (name r) = Some (config r)) repos.
Proof.
  apply (discoverRepos_result (Fixture.host stray_directory)
           (linter_of (Fixture.host stray_directory) (Fixture.node [])) 0%nat).
  - reflexivity.
  - vm_compute. reflexivity.
Defined.

(** ** The order of linting *)

(** X5.  The repositories are linted in the order of the directory
    listing, each once per entry: the order of the names in [--repo=] and
    their repetitions play no part, and without [--repo=] every discovered
    repository is linted. *)
Theorem linted_in_listing_order {W} (host : Host W) argv w items :
  wants_help argv = false ->
  readdirSync host w (WORKSPACE_ROOT host) = Some items ->
  forallb (statable host (linter_of host argv) w) items = true ->
  map fst (repo_results (output (main host argv w)))
  = List.filter (selected host (linter_of host argv) w) items.
Proof.
  intros Hhelp Hdir Hstat.
  pose proof (discovery_listing host (linter_of host argv) w items Hdir Hstat) as Hd.
  rewrite <- targeted_names.
  destruct (main_Run host argv w Hhelp)
    as [e o1 Hd' Hq | repos o1 Hd' Hq Ht
       | repos o1 results w2 o2 Hd' Hq Ht Hloop Hm Hr Hall];
    rewrite Hd in Hd'; inversion Hd'; subst; cbn [output].
  - destruct (observe_nothing (linter_of host argv) o1
                "No repositories found to lint" Hq) as (_ & -> & _).
    now rewrite Ht.
  - destruct (observe_linted (linter_of host argv) o1
                (targeted (linter_of host argv)
                   (flat_map (repo_of_item host (linter_of host argv) w) items))
                o2 (repo_results o2) Hq) as (_ & -> & _).
    exact Hm.
Qed.

Lemma linted_in_listing_order_witness :
  map fst (repo_results
             (output (main (Fixture.host two_repos)
                        (Fixture.node ["--repo=Pyrrha-Website,Pyrrha-Dashboard,Pyrrha-Website"])
                        0%nat)))
  = List.filter
      (selected (Fixture.host two_repos)
         (linter_of (Fixture.host two_repos)
            (Fixture.node ["--repo=Pyrrha-Website,Pyrrha-Dashboard,Pyrrha-Website"]))
         0%nat)
      ["Pyrrha-Dashboard"; "Pyrrha-Website"; "README.md"].
Proof.
  apply (linted_in_listing_order (Fixture.host two_repos)
           (Fixture.node ["--repo=Pyrrha-Website,Pyrrha-Dashboard,Pyrrha-Website"]) 0%nat).
  - reflexivity.
  - reflexivity.
  - vm_compute. reflexivity.
Defined.

(** The request names the website first; the dashboard is linted first. *)
Example request_order_is_ignored :
  map fst (repo_results
             (output (main (Fixture.host two_repos)
                        (Fixture.node ["--repo=Pyrrha-Website,Pyrrha-Dashboard,Pyrrha-Website"])
                        0%nat)))
  = ["Pyrrha-Dashboard"; "Pyrrha-Website"].
Proof. vm_compute. reflexivity. Qed.

(** ** Exit codes *)

Lemma main_exit_codes {W} (host : Host W) argv w :
  exitCode (main host argv w) = 0 \/ exitCode (main host argv w) = 1.
Proof.
  destruct (wants_help argv) eqn:Hhelp.
  - rewrite (main_help host argv w Hhelp). now left.
  - destruct (main_Run host argv w Hhelp)
      as [e o1 Hd Hq | repos o1 Hd Hq Ht
         | repos o1 results w2 o2 Hd Hq Ht Hloop Hm Hr Hall]; cbn [exitCode].
    + now right.
    + now left.
    + destruct (forallb snd results); [now left | now right].
Qed.

(** X6.  The process ends with exit code 0 or 1, whatever the command line
    and the state of the workspace: 1 stands for a failed script, a missing
    script file and a fatal error alike. *)
Theorem exit_code_zero_or_one {W} (host : Host W) argv w :
  exitCode (main host argv w) = 0 \/ exitCode (main host argv w) = 1.
Proof. apply main_exit_codes. Qed.

(** ** Verbose mode *)

Section Verbose.

Context {W : Type} (host : Host W).

Lemma runScript_shown self s p n :
  emits_only (shown_if_verbose self) (runScript host self s p n).
Proof.
  intros w. rewrite runScript_eq.
  destruct (existsSync host w (script_path host self s)); cbv zeta.
  - destruct (child_ok _); unfold trace_of; cbn [snd].
    + repeat constructor.
    + apply Forall_app. split; [repeat constructor |].
      destruct (verbose self) eqn:Hv; repeat constructor. exact Hv.
  - repeat constructor.
Qed.

Lemma lintRepository_shown self repo :
  emits_only (shown_if_verbose self) (lintRepository host self repo).
Proof.
  unfold lintRepository, log.
  apply emits_only_bind; [now apply emits_only_emit |]. intros _.
  apply emits_only_bind.
  - apply emits_only_forOf. intros results s Hs.
    apply emits_only_bind; [apply runScript_shown |]. intros b.
    apply emits_only_bind; [now apply emits_only_emit |]. intros _.
    apply emits_only_ret.
  - intros results.
    apply emits_only_bind; [now apply emits_only_emit |]. intros _.
    apply emits_only_ret.
Qed.

Lemma lintRepos_shown self targetedRepos results :
  emits_only (shown_if_verbose self) (lintRepos host self targetedRepos results).
Proof.
  unfold lintRepos. apply emits_only_forOf. intros rs repo Hrepo.
  apply emits_only_bind; [apply lintRepository_shown |]. intros b.
  apply emits_only_bind; [now apply emits_only_emit |]. intros _.
  apply emits_only_ret.
Qed.

Lemma only_logs_shown self out : only_logs out -> Forall (shown_if_verbose self) out.
Proof.
  intros H. eapply Forall_impl; [exact H |]. intros e (t & m & -> & _). exact I.
Qed.

Lemma quiet_shown self out : quiet out -> Forall (shown_if_verbose self) out.
Proof.
  intros H. eapply Forall_impl; [exact H |]. intros e (item & -> & _). exact I.
Qed.

Lemma main_shown argv w :
  wants_help argv = false ->
  Forall (shown_if_verbose (linter_of host argv)) (output (main host argv w)).
Proof.
  intros Hhelp.
  destruct (main_Run host argv w Hhelp)
    as [e o1 Hd Hq | repos o1 Hd Hq Ht
       | repos o1 results w2 o2 Hd Hq Ht Hloop Hm Hr Hall]; cbn [output].
  - apply Forall_app. split; [apply Forall_app; split |].
    + apply only_logs_shown, only_logs_banner.
    + now apply quiet_shown.
    + repeat constructor.
  - apply Forall_app. split; [| apply Forall_app; split].
    + apply only_logs_shown, only_logs_banner.
    + now apply quiet_shown.
    + repeat constructor.
  - apply Forall_app. split; [| apply Forall_app; split;
                                [| apply Forall_app; split; [| apply Forall_app; split]]].
    + apply only_logs_shown, only_logs_banner.
    + now apply quiet_shown.
    + apply only_logs_shown, only_logs_found.
    + pose proof (lintRepos_shown (linter_of host argv)
                    (targeted (linter_of host argv) repos) [] w) as Hall'.
      rewrite Hloop in Hall'. exact Hall'.
    + apply only_logs_shown, only_logs_summary.
Qed.

End Verbose.


(** X7.  Every child gets [stdio: 'inherit'] when [--verbose] or [-v] is
    on the command line and [stdio: 'pipe'] otherwise.  The [console.log]
    of the [catch] block of [runScript], which prints what [execSync] has
    captured of the child's output, is reached with these flags only.  In
    both modes a failing child leaves the line that [log] prints for it,
    which ends with the message of the exception: what [execSync] puts
    there (with [stdio: 'pipe'], the child's standard error) is printed
    without the flags as well. *)
Theorem verbose_decides_child_output {W} (host : Host W) argv w :
  wants_help argv = false ->
  let self := linter_of host argv in
  let loud := JS.includes argv "--verbose" || JS.includes argv "-v" in
  Forall (fun req => stdio req = if loud then Inherit else Pipe)
    (execs (output (main host argv w)))
  /\ (loud = false ->
      forall value, ~ In (EvConsoleLog value) (output (main host argv w)))
  /\ (forall scriptName repoPath repoName w0,
         let req := script_request host self scriptName repoPath repoName in
         let child := (spawn host w0 req).1 in
         existsSync host w0 (script_path host self scriptName) = true ->
         child_ok child = false ->
         trace_of (runScript host self scriptName repoPath repoName w0)
         = [EvLog Info ("📋 Running " +:+ scriptName +:+ " for " +:+ repoName +:+ "...");
            EvExec req;
            EvLog Error ("❌ " +:+ scriptName +:+ " failed for " +:+ repoName +:+ ": "
                           +:+ failure_message child)]
           ++ (if loud
               then [EvConsoleLog (JS.or_else (child_stdout child) (child_stderr child))]
               else [])).
Proof.
  intros Hhelp self loud. split; [| split].
  - apply List.Forall_forall. intros req Hin. apply in_execs in Hin.
    destruct (main_execs host argv w req Hin) as (repos & repo & s & _ & _ & _ & ->).
    reflexivity.
  - intros Hquiet value Hin.
    pose proof (main_shown host argv w Hhelp) as Hall.
    rewrite List.Forall_forall in Hall. specialize (Hall _ Hin).
    cbn [shown_if_verbose linter_of verbose] in Hall. subst loud. congruence.
  - intros scriptName repoPath repoName w0 req child Hexists Hfails.
    rewrite runScript_eq, Hexists. cbv zeta. fold req. fold child.
    rewrite Hfails. reflexivity.
Qed.

(** Without [--verbose], the website's script fails: nothing is printed
    by the [catch] block, and the line of the failure quotes what the
    script wrote on its standard error. *)
Lemma verbose_decides_child_output_witness :
  let host := scripted_host stray_directory ["lint-nodejs.sh"] in
  let argv := Fixture.node ["--fix"] in
  let out := output (main host argv 0%nat) in
  Forall (fun req => stdio req = Pipe) (execs out)
  /\ (forall value, ~ In (EvConsoleLog value) out)
  /\ trace_of (runScript host (linter_of host argv) "lint-nodejs.sh"
                 "/work/Pyrrha-Website" "Pyrrha-Website" 0%nat)
     = [EvLog Info "📋 Running lint-nodejs.sh for Pyrrha-Website...";
        EvExec (script_request host (linter_of host argv) "lint-nodejs.sh"
                  "/work/Pyrrha-Website" "Pyrrha-Website");
        EvLog Error
          ("❌ lint-nodejs.sh failed for Pyrrha-Website: Command failed: "
           +:+ script_command "/work/Pyrrha-Development-Tools/scripts/lint-nodejs.sh"
                 ["--fix"]
           +:+ newline +:+ "lint errors")].
Proof.
  intros host argv out.
  destruct (verbose_decides_child_output host argv 0%nat eq_refl) as (H1 & H2 & H3).
  split; [exact H1 |]. split; [exact (H2 eq_refl) |].
  exact (H3 "lint-nodejs.sh" "/work/Pyrrha-Website" "Pyrrha-Website" 0%nat
           eq_refl eq_refl).
Defined.

(** ** The children of a run *)

Section Children.

Context {W : Type} (host : Host W).

Lemma runScript_children self s p n w :
  execs (trace_of (runScript host self s p n w))
  = if existsSync host w (script_path host self s)
    then [script_request host self s p n]
    else [].
Proof.
  rewrite runScript_eq.
  destruct (existsSync host w (script_path host self s)); cbv zeta; [| reflexivity].
  destruct (child_ok _); unfold trace_of; cbn [snd]; [reflexivity |].
  rewrite execs_app. destruct (verbose self); reflexivity.
Qed.

Lemma runScripts_children self repo scriptNames :
  forall results w,
    (length (execs (trace_of (runScripts host self repo scriptNames results w)))
     <= length scriptNames)%nat
    /\ ((forall w' s, In s scriptNames ->
                      existsSync host w' (script_path host self s) = true) ->
        execs (trace_of (runScripts host self repo scriptNames results w))
        = map (fun s => script_request host self s (path repo) (name repo)) scriptNames).
Proof.
  induction scriptNames as [| s rest IH]; intros results w.
  - split; [apply Nat.le_refl | reflexivity].
  - destruct (runScript_returns host self s (path repo) (name repo) w)
      as (b & w1 & o1 & Hrun & _).
    pose proof (runScript_children self s (path repo) (name repo) w) as Hone.
    rewrite Hrun in Hone. unfold trace_of in Hone. cbn [snd] in Hone.
    unfold runScripts in *.
    erewrite forOf_cons_Ret; [| unfold bind; rewrite Hrun; reflexivity].
    destruct (IH (results ++ [(s, b)]) w1) as [Hle Heq].
    unfold trace_of at 1 3. cbn [snd].
    rewrite !execs_app, Hone. cbn [execs flat_map app]. rewrite !length_app.
    split.
    + destruct (existsSync host w (script_path host self s)); cbn [length]; lia.
    + intros Hexists. rewrite (Hexists w s (or_introl eq_refl)).
      rewrite Heq by (intros w' s' Hs'; apply Hexists; now right).
      reflexivity.
Qed.

Lemma lintRepository_children self repo w :
  (length (execs (trace_of (lintRepository host self repo w)))
   <= length (script_results (trace_of (lintRepository host self repo w))))%nat
  /\ ((forall w' s, In s (scripts (config repo)) ->
                    existsSync host w' (script_path host self s) = true) ->
      execs (trace_of (lintRepository host self repo w))
      = map (fun s => script_request host self s (path repo) (name repo))
          (scripts (config repo))).
Proof.
  destruct (lintRepository_returns host self repo w)
    as (results & w' & out & Hloop & Hm & Hs & _ & Hlint).
  destruct (runScripts_children self repo (scripts (config repo)) [] w) as [Hle Heq].
  rewrite Hloop in Hle, Heq. rewrite Hlint.
  unfold trace_of in *. cbn [snd] in *.
  rewrite !execs_app, !script_results_app, Hs.
  assert (Hlen : length results = length (scripts (config repo)))
    by (rewrite <- Hm; now rewrite length_map).
  split.
  - destruct (forallb snd results); cbn [execs script_results status_line flat_map app];
      rewrite !app_nil_r; lia.
  - intros Hexists. rewrite (Heq Hexists).
    destruct (forallb snd results); cbn [execs status_line flat_map app];
      now rewrite app_nil_r.
Qed.

Lemma lintRepos_step self repo rest results w b w1 o1 :
  lintRepository host self repo w = (Ret b, w1, o1) ->
  trace_of (lintRepos host self (repo :: rest) results w)
  = o1 ++ EvRepoResult (name repo) b
         :: trace_of (lintRepos host self rest (results ++ [(name repo, b)]) w1).
Proof.
  intros Hlint. unfold lintRepos.
  erewrite forOf_cons_Ret; [| unfold bind; rewrite Hlint; reflexivity].
  unfold trace_of at 1. cbn [snd]. now rewrite <- app_assoc.
Qed.

Lemma lintRepos_children self targetedRepos :
  forall results w,
    (length (execs (trace_of (lintRepos host self targetedRepos results w)))
     <= length (script_results (trace_of (lintRepos host self targetedRepos results w))))%nat
    /\ ((forall w' repo s, In repo targetedRepos -> In s (scripts (config repo)) ->
                           existsSync host w' (script_path host self s) = true) ->
        execs (trace_of (lintRepos host self targetedRepos results w))
        = planned_requests host self targetedRepos).
Proof.
  induction targetedRepos as [| repo rest IH]; intros results w.
  - split; [apply Nat.le_refl | reflexivity].
  - destruct (lintRepository host self repo w) as [[r w1] o1] eqn:Hlint.
    destruct (lintRepository_returns host self repo w)
      as (rs & w1' & o1' & _ & _ & _ & _ & Hlint').
    rewrite Hlint in Hlint'. inversion Hlint'; subst r w1' o1. clear Hlint'.
    destruct (lintRepository_children self repo w) as [Hle1 Heq1].
    rewrite Hlint in Hle1, Heq1. unfold trace_of in Hle1, Heq1. cbn [snd] in Hle1, Heq1.
    rewrite (lintRepos_step self repo rest results w _ _ _ Hlint).
    destruct (IH (results ++ [(name repo, forallb snd rs)]) w1) as [Hle Heq].
    rewrite !execs_app, !script_results_app.
    change (execs (EvRepoResult (name repo) (forallb snd rs) :: ?out)) with (execs out).
    change (script_results (EvRepoResult (name repo) (forallb snd rs) :: ?out))
      with (script_results out).
    rewrite !length_app.
    split; [lia |].
    intros Hexists. cbn [planned_requests flat_map].
    rewrite Heq1 by (intros w' s Hs; apply (Hexists w' repo s); [now left | exact Hs]).
    rewrite Heq by (intros w' r s Hr Hs; apply (Hexists w' r s); [now right | exact Hs]).
    reflexivity.
Qed.

End Children.

(** X8.  A script is never run twice: the run starts at most one child for
    each result it records, whatever the outcome of the children. *)
Theorem at_most_one_child_per_result {W} (host : Host W) argv w :
  (length (execs (output (main host argv w)))
   <= length (script_results (output (main host argv w))))%nat.
Proof.
  destruct (wants_help argv) eqn:Hhelp.
  - rewrite (main_help host argv w Hhelp). cbn. lia.
  - destruct (main_Run host argv w Hhelp)
      as [e o1 Hd Hq | repos o1 Hd Hq Ht
         | repos o1 results w2 o2 Hd Hq Ht Hloop Hm Hr Hall]; cbn [output].
    + destruct (observe_fatal (linter_of host argv) o1 e Hq) as (-> & _ & ->).
      apply Nat.le_refl.
    + destruct (observe_nothing (linter_of host argv) o1
                  "No repositories found to lint" Hq) as (-> & _ & ->).
      apply Nat.le_refl.
    + destruct (observe_linted (linter_of host argv) o1
                  (targeted (linter_of host argv) repos) o2 results Hq)
        as (-> & _ & ->).
      destruct (lintRepos_children host (linter_of host argv)
                  (targeted (linter_of host argv) repos) [] w) as [Hle _].
      rewrite Hloop in Hle. exact Hle.
Qed.



(** ** The pre-commit hook *)

Lemma recognized_false arg :
  recognized arg = false ->
  JS.startsWith arg "--repo=" = false
  /\ String.eqb arg "--help" = false /\ String.eqb arg "-h" = false.
Proof.
  unfold recognized. intros H.
  repeat (apply orb_false_iff in H; destruct H as [H ?]).
  repeat split; assumption.
Qed.

(** The names the hook has a branch for. *)
Lemma hook_case_names REPO_NAME announce args :
  hook_case REPO_NAME = HookLint announce args ->
  In REPO_NAME ["Pyrrha-Dashboard"; "Pyrrha-Rules-Decision"; "Pyrrha-MQTT-Client";
                "Pyrrha-WebSocket-Server"; "Pyrrha-Device-Simulator"; "Pyrrha-Website";
                "Pyrrha-Watch-App"; "Pyrrha-Firmware"]
  /\ args = ["--repo=" +:+ REPO_NAME].
Proof.
  unfold hook_case, JS.includes. cbn [existsb].
  repeat match goal with
         | |- context [String.eqb REPO_NAME ?k] =>
             destruct (String.eqb_spec REPO_NAME k) as [-> | ?];
             [cbn; intros [= <- <-]; split; [cbn; tauto | reflexivity] |]
         end.
  cbn. discriminate.
Qed.


(** The names the dispatch table gives a script. *)
Lemma linted_names REPO_NAME :
  (exists cfg, JS.prop REPO_CONFIGS REPO_NAME = Some cfg /\ scripts cfg <> [])
  <-> In REPO_NAME ["Pyrrha-Dashboard"; "Pyrrha-Rules-Decision"; "Pyrrha-MQTT-Client";
                    "Pyrrha-WebSocket-Server"; "Pyrrha-Device-Simulator";
                    "Pyrrha-Website"; "Pyrrha-Watch-App"; "Pyrrha-Firmware"].
Proof.
  unfold REPO_CONFIGS. cbn [JS.prop In].
  repeat match goal with
         | |- context [String.eqb REPO_NAME ?k] =>
             destruct (String.eqb_spec REPO_NAME k) as [-> | ?];
             [split;
              [intros (cfg & Hcfg & Hne);
               first [injection Hcfg as <-; now contradiction Hne | tauto]
              | intros Hin;
                first [eexists; split; [reflexivity | discriminate]
                      | exfalso; intuition discriminate]] |]
         end.
  split; [intros (cfg & Hcfg & _); discriminate Hcfg | intuition congruence].
Qed.

Lemma hook_case_default REPO_NAME :
  ~ In REPO_NAME ["Pyrrha-Dashboard"; "Pyrrha-Rules-Decision"; "Pyrrha-MQTT-Client";
                  "Pyrrha-WebSocket-Server"; "Pyrrha-Device-Simulator";
                  "Pyrrha-Website"; "Pyrrha-Watch-App"; "Pyrrha-Firmware"] ->
  hook_case REPO_NAME = HookDefault.
Proof.
  intros Hout. unfold hook_case, JS.includes. cbn [existsb].
  repeat match goal with
         | |- context [String.eqb REPO_NAME ?k] =>
             destruct (String.eqb_spec REPO_NAME k) as [-> | ?];
             [exfalso; apply Hout; cbn; tauto |]
         end.
  reflexivity.
Qed.

Lemma hook_case_lint REPO_NAME :
  In REPO_NAME ["Pyrrha-Dashboard"; "Pyrrha-Rules-Decision"; "Pyrrha-MQTT-Client";
                "Pyrrha-WebSocket-Server"; "Pyrrha-Device-Simulator";
                "Pyrrha-Website"; "Pyrrha-Watch-App"; "Pyrrha-Firmware"] ->
  exists announce, hook_case REPO_NAME = HookLint announce ["--repo=" +:+ REPO_NAME].
Proof.
  cbn [In]. intros Hin.
  repeat (destruct Hin as [<- | Hin]; [eexists; reflexivity |]). contradiction.
Qed.

(** X10.  The hook and the dispatch table agree.  For a repository that
    [REPO_CONFIGS] gives a non-empty script list, the hook runs the
    orchestrator with the single argument [--repo=] followed by the
    repository's own name, and lets the commit through exactly when the
    tools repository can be entered and the orchestrator exits with 0.
    For every other name, [Pyrrha-Mobile-App] included, it takes the
    default branch: it prints that there is no configuration and lets the
    commit through without running the orchestrator. *)
Theorem hook_follows_dispatch_table REPO_NAME cd_ok node :
  ((exists announce, hook_case REPO_NAME = HookLint announce ["--repo=" +:+ REPO_NAME])
   <-> (exists cfg, JS.prop REPO_CONFIGS REPO_NAME = Some cfg /\ scripts cfg <> []))
  /\ ((exists cfg, JS.prop REPO_CONFIGS REPO_NAME = Some cfg /\ scripts cfg <> []) ->
      fst (pre_commit_hook REPO_NAME cd_ok node)
      = if cd_ok && Z.eqb (node ["--repo=" +:+ REPO_NAME]) 0 then 0 else 1)
  /\ (~ (exists cfg, JS.prop REPO_CONFIGS REPO_NAME = Some cfg /\ scripts cfg <> []) ->
      hook_case REPO_NAME = HookDefault
      /\ forall cd_ok' node',
          pre_commit_hook REPO_NAME cd_ok' node'
          = (0, ["🔍 Running pre-commit linting...";
                 "⚠️ No linting configuration for " +:+ REPO_NAME])).
Proof.
  split; [| split].
  - rewrite linted_names. split.
    + intros [announce Hcase]. now destruct (hook_case_names _ _ _ Hcase).
    + apply hook_case_lint.
  - rewrite linted_names. intros Hin.
    destruct (hook_case_lint _ Hin) as [announce Hcase].
    unfold pre_commit_hook. rewrite Hcase. cbv zeta.
    destruct cd_ok; cbn [andb]; [| reflexivity].
    destruct (Z.eqb _ 0); reflexivity.
  - rewrite linted_names. intros Hout.
    pose proof (hook_case_default _ Hout) as Hcase.
    split; [exact Hcase |]. intros cd_ok' node'.
    unfold pre_commit_hook. now rewrite Hcase.
Qed.

(** The mobile application has an entry in the table, with no script, and
    a directory the table does not know has none: the hook lets their
    commits through, whatever the orchestrator would answer. *)
Lemma hook_follows_dispatch_table_witness :
  pre_commit_hook "Pyrrha-Mobile-App" true (fun _ => 1)
  = (0, ["🔍 Running pre-commit linting...";
         "⚠️ No linting configuration for " +:+ "Pyrrha-Mobile-App"])
  /\ pre_commit_hook "Pyrrha-Sandbox" true (fun _ => 1)
     = (0, ["🔍 Running pre-commit linting...";
            "⚠️ No linting configuration for " +:+ "Pyrrha-Sandbox"])
  /\ fst (pre_commit_hook "Pyrrha-Website" true (fun _ => 1)) = 1.
Proof.
  split; [| split].
  - apply (proj2 (proj2 (hook_follows_dispatch_table "Pyrrha-Mobile-App" true
                           (fun _ => 1)))).
    intros (cfg & Hcfg & Hne). vm_compute in Hcfg. injection Hcfg as <-.
    now apply Hne.
  - apply (proj2 (proj2 (hook_follows_dispatch_table "Pyrrha-Sandbox" true
                           (fun _ => 1)))).
    intros (cfg & Hcfg & _). vm_compute in Hcfg. discriminate Hcfg.
  - apply (proj1 (proj2 (hook_follows_dispatch_table "Pyrrha-Website" true
                           (fun _ => 1)))).
    eexists. split; [reflexivity | discriminate].
Defined.

Lemma hook_request REPO_NAME announce args exe file :
  hook_case REPO_NAME = HookLint announce args ->
  recognized exe = false -> recognized file = false ->
  wants_help (exe :: file :: args) = false
  /\ requested (exe :: file :: args) = Some [REPO_NAME].
Proof.
  intros Hcase Hexe Hfile.
  destruct (hook_case_names _ _ _ Hcase) as [Hin ->].
  destruct (recognized_false exe Hexe) as (Hexe1 & Hexe2 & Hexe3).
  destruct (recognized_false file Hfile) as (Hfile1 & Hfile2 & Hfile3).
  split.
  - unfold wants_help, JS.includes. cbn [existsb].
    rewrite (String.eqb_sym "--help" exe), (String.eqb_sym "--help" file),
      (String.eqb_sym "-h" exe), (String.eqb_sym "-h" file).
    rewrite Hexe2, Hexe3, Hfile2, Hfile3. cbn [orb].
    cbn in Hin.
    repeat (destruct Hin as [<- | Hin]; [reflexivity |]). contradiction.
  - unfold requested. cbn [find]. rewrite Hexe1, Hfile1.
    unfold JS.startsWith. rewrite prefix_append.
    cbn in Hin.
    repeat (destruct Hin as [<- | Hin]; [reflexivity |]). contradiction.
Qed.


Lemma targeted_single {W} (host : Host W) argv REPO_NAME repos :
  requested argv = Some [REPO_NAME] ->
  map name (targeted (linter_of host argv) repos)
  = List.filter (fun n => String.eqb n REPO_NAME) (map name repos).
Proof.
  intros Hreq. unfold targeted. cbn [linter_of targetRepos]. rewrite Hreq.
  induction repos as [| r repos IH]; [reflexivity |].
  cbn [List.filter map].
  replace (JS.includes [REPO_NAME] (name r)) with (String.eqb (name r) REPO_NAME)
    by (unfold JS.includes; cbn [existsb]; now rewrite orb_false_r).
  destruct (String.eqb (name r) REPO_NAME); cbn [map]; now rewrite IH.
Qed.

(** X11.  A commit made in a repository the hook has a branch for makes
    the orchestrator lint the entries of the workspace that bear the name
    of that repository, and no other: that repository, when discovery
    finds it in the workspace of the tools.  The commit is let through
    exactly when the orchestrator exits with code 0, which is also what
    happens when discovery succeeds without finding the repository:
    nothing is linted then.  When the tools repository cannot be entered,
    the commit is refused. *)
Theorem hook_lints_own_repository {W} (host : Host W) REPO_NAME announce args
    exe file node w :
  hook_case REPO_NAME = HookLint announce args ->
  recognized exe = false -> recognized file = false ->
  let argv := exe :: file :: args in
  let hook := pre_commit_hook REPO_NAME true
                (fun a => exitCode (main host (exe :: file :: a) w)) in
  (forall r b, In (r, b) (repo_results (output (main host argv w))) -> r = REPO_NAME)
  /\ (forall repos,
         discovery host (linter_of host argv) w = Some repos ->
         map fst (repo_results (output (main host argv w)))
         = List.filter (fun n => String.eqb n REPO_NAME) (map name repos)
         /\ (In REPO_NAME (map name repos) ->
             exists b, In (REPO_NAME, b) (repo_results (output (main host argv w))))
         /\ (~ In REPO_NAME (map name repos) ->
             repo_results (output (main host argv w)) = []
             /\ execs (output (main host argv w)) = []
             /\ fst hook = 0))
  /\ fst hook = exitCode (main host argv w)
  /\ fst (pre_commit_hook REPO_NAME false node) = 1.
Proof.
  intros Hcase Hexe Hfile argv hook.
  destruct (hook_request _ _ _ exe file Hcase Hexe Hfile) as [Hhelp Hreq].
  fold argv in Hhelp, Hreq.
  assert (Hhook : fst hook = exitCode (main host argv w)).
  { subst hook. unfold pre_commit_hook. rewrite Hcase. cbv zeta. fold argv.
    destruct (main_exit_codes host argv w) as [-> | ->]; reflexivity. }
  split; [| split; [| split]].
  - intros r b Hin.
    destruct (main_repo_results host argv w)
      as [Hnone | (repos & before & _ & Hd & Hnames & _)].
    + rewrite Hnone in Hin. destruct Hin.
    + assert (Hr : In r (map name (targeted (linter_of host argv) repos))).
      { rewrite <- Hnames. apply in_map_iff. now exists (r, b). }
      apply in_map_iff in Hr. destruct Hr as (repo & <- & Hrepo).
      destruct (targeted_sound _ _ _ Hrepo) as [_ Hrequested].
      specialize (Hrequested [REPO_NAME] Hreq).
      destruct Hrequested as [Heq | []]. now symmetry.
  - intros repos Hd.
    destruct (main_outcomes host argv w repos Hhelp Hd) as (Hr & He & _).
    assert (Hnames : map fst (repo_results (output (main host argv w)))
                     = List.filter (fun n => String.eqb n REPO_NAME) (map name repos)).
    { rewrite Hr, repo_outcomes_names. now apply targeted_single. }
    split; [exact Hnames |]. split.
    + intros Hin.
      assert (Hfound : In REPO_NAME
                         (map fst (repo_results (output (main host argv w))))).
      { rewrite Hnames. apply filter_In. split; [exact Hin | apply String.eqb_refl]. }
      apply in_map_iff in Hfound. destruct Hfound as ([r b] & Heq & Hfound).
      cbn [fst] in Heq. subst r. now exists b.
    + intros Hout.
      assert (Hnone : targeted (linter_of host argv) repos = []).
      { apply (map_eq_nil name). rewrite (targeted_single host argv REPO_NAME repos Hreq).
        apply filter_none. intros n Hn.
        destruct (String.eqb_spec n REPO_NAME) as [-> | _]; [contradiction | reflexivity]. }
      rewrite Hr, He, Hhook. rewrite Hnone. cbn [repo_outcomes fst snd].
      split; [reflexivity |]. split; [reflexivity |].
      destruct (main_Run host argv w Hhelp)
        as [e o1 Hd' Hq | repos' o1 Hd' Hq Ht
           | repos' o1 results w2 o2 Hd' Hq Ht Hloop Hm Hres Hall];
        rewrite Hd in Hd'; inversion Hd'; subst; cbn [exitCode]; [reflexivity |].
      contradiction.
  - exact Hhook.
  - unfold pre_commit_hook. rewrite Hcase. reflexivity.
Qed.

(** The website is in the workspace and fails: it is linted, alone, and
    the commit is refused. *)
Lemma hook_lints_own_repository_witness :
  let host := Fixture.host stray_directory in
  let argv := Fixture.node ["--repo=" +:+ "Pyrrha-Website"] in
  let hook := pre_commit_hook "Pyrrha-Website" true
                (fun a => exitCode (main host (Fixture.node a) 0%nat)) in
  map fst (repo_results (output (main host argv 0%nat))) = ["Pyrrha-Website"]
  /\ fst hook = exitCode (main host argv 0%nat)
  /\ fst hook = 1
  /\ fst (pre_commit_hook "Pyrrha-Website" false (fun _ => 0)) = 1.
Proof.
  intros host argv hook.
  destruct (hook_lints_own_repository host "Pyrrha-Website"
              "🟢 Linting Node.js repository..." ["--repo=" +:+ "Pyrrha-Website"]
              "/usr/bin/node" "/work/Pyrrha-Development-Tools/scripts/lint-all.js"
              (fun _ => 0) 0%nat eq_refl eq_refl eq_refl)
    as (_ & Hfound & Hhook & Hcd).
  destruct (Hfound [website] eq_refl) as (Hnames & _).
  split; [exact Hnames |]. split; [exact Hhook |].
  split; [reflexivity | exact Hcd].
Defined.

(** The firmware is not in this workspace: a commit made in it is let
    through with nothing linted. *)
Example hook_passes_when_repository_is_not_found :
  let host := Fixture.host two_repos in
  let main_of a := main host (Fixture.node a) 0%nat in
  pre_commit_hook "Pyrrha-Firmware" true (fun a => exitCode (main_of a))
  = (0, ["🔍 Running pre-commit linting..."; "🔩 Linting C/C++ Arduino repository...";
         "✅ Pre-commit linting passed!"])
  /\ repo_results (output (main_of ["--repo=Pyrrha-Firmware"])) = [].
Proof. vm_compute. split; reflexivity. Qed.

(** The website fails in this workspace: the commit is refused. *)
Example hook_refuses_failing_commit :
  pre_commit_hook "Pyrrha-Website" true
    (fun a => exitCode (main (Fixture.host stray_directory) (Fixture.node a) 0%nat))
  = (1, ["🔍 Running pre-commit linting..."; "🟢 Linting Node.js repository...";
         "❌ Pre-commit linting failed. Commit aborted.";
         "💡 Run 'npm run format:all' from Pyrrha-Development-Tools to fix issues"]).
Proof. vm_compute. reflexivity. Qed.

(** ** The command line of the watch-app and mobile-app scripts *)

Lemma plain_option_step script arg rest o :
  plain_option arg = true ->
  parse_arguments script (arg :: rest) o = parse_arguments script rest (set_option o arg).
Proof.
  unfold plain_option, set_option. intros H. cbn [parse_arguments].
  destruct (String.eqb_spec arg "--fix") as [-> | Hfix].
  { cbn. destruct o; cbn. now rewrite !orb_false_r, orb_true_r. }
  destruct (String.eqb_spec arg "--check") as [-> | Hcheck].
  { cbn. destruct o; cbn. now rewrite !orb_false_r, orb_true_r. }
  destruct (String.eqb_spec arg "--verbose") as [-> | Hverbose].
  { cbn. destruct o; cbn. now rewrite !orb_false_r, orb_true_r. }
  cbn [orb] in H. rewrite H. destruct o; cbn. now rewrite !orb_false_r.
Qed.

Lemma plain_options_prefix script pre rest :
  Forall (fun arg => plain_option arg = true) pre ->
  forall o,
    parse_arguments script (pre ++ rest) o
    = parse_arguments script rest (fold_left set_option pre o).
Proof.
  induction 1 as [| arg pre Harg _ IH]; intros o; [reflexivity |].
  cbn [app fold_left]. rewrite (plain_option_step script arg _ o Harg). apply IH.
Qed.

Lemma find_append {A} (p : A -> bool) l1 l2 :
  find p (l1 ++ l2) = match find p l1 with
                      | Some x => Some x
                      | None => find p l2
                      end.
Proof.
  induction l1 as [| a l1 IH]; [reflexivity |].
  cbn [app find]. destruct (p a); [reflexivity | exact IH].
Qed.

Lemma fold_options pre :
  forall o,
    FIX_MODE (fold_left set_option pre o) = FIX_MODE o || JS.includes pre "--fix"
    /\ CHECK_MODE (fold_left set_option pre o) = CHECK_MODE o || JS.includes pre "--check"
    /\ VERBOSE (fold_left set_option pre o) = VERBOSE o || JS.includes pre "--verbose"
    /\ TARGET_REPO (fold_left set_option pre o)
       = match last_repo_argument pre with
         | Some arg => strip_through_equals arg
         | None => TARGET_REPO o
         end.
Proof.
  unfold last_repo_argument, JS.includes.
  induction pre as [| arg pre IH]; intros o.
  - cbn. now rewrite !orb_false_r.
  - cbn [fold_left existsb rev]. destruct (IH (set_option o arg)) as (H1 & H2 & H3 & H4).
    rewrite H1, H2, H3, H4. cbn [set_option FIX_MODE CHECK_MODE VERBOSE TARGET_REPO].
    rewrite !(String.eqb_sym _ arg), !orb_assoc. repeat split.
    rewrite find_append.
    destruct (find _ (rev pre)); [reflexivity |]. cbn [find].
    destruct (JS.startsWith arg "--repo="); reflexivity.
Qed.

(** X12.  The scripts stop at the first argument that is not an option,
    whatever follows it: with the usage and status 0 for [-h] and
    [--help], with [Unknown option] and status 1 for anything the [case]
    has no pattern for. *)
Theorem script_stops_at_first_misfit script pre arg post :
  Forall (fun a => plain_option a = true) pre ->
  (String.eqb arg "-h" || String.eqb arg "--help" = true ->
   parse_command_line script (pre ++ arg :: post) = Stopped 0 (script_usage script))
  /\ (script_option arg = false ->
      parse_command_line script (pre ++ arg :: post)
      = Stopped 1 ["Unknown option: " +:+ arg]).
Proof.
  intros Hpre. unfold parse_command_line.
  rewrite (plain_options_prefix script pre (arg :: post) Hpre). cbn [parse_arguments].
  split.
  - intros Hhelp.
    assert (Hcases : arg = "-h" \/ arg = "--help").
    { apply orb_true_iff in Hhelp.
      destruct Hhelp as [H | H]; apply String.eqb_eq in H; auto. }
    destruct Hcases as [-> | ->]; reflexivity.
  - unfold script_option, plain_option. intros H.
    repeat (apply orb_false_iff in H; destruct H as [H ?]).
    repeat match goal with
           | Heq : _ = false |- _ => rewrite Heq; clear Heq
           end.
    reflexivity.
Qed.

Lemma script_stops_at_first_misfit_witness :
  parse_command_line "lint-watch.sh" (["--fix"; "--repo=Pyrrha-Watch-App"] ++ "--quiet" :: ["-h"])
  = Stopped 1 ["Unknown option: " +:+ "--quiet"].
Proof.
  apply (script_stops_at_first_misfit "lint-watch.sh" ["--fix"; "--repo=Pyrrha-Watch-App"]
           "--quiet" ["-h"]).
  - repeat constructor.
  - reflexivity.
Defined.

(** X13.  A command line of plain options is read to its end: fix mode is
    on exactly when [--fix] is given, whether or not [--check] is given
    too; check mode is on when [--check] is given or [--fix] is not, so
    that one of the two modes is always on; the target is what follows the
    first [=] of the last [--repo=] argument, and empty without one. *)
Theorem script_options_of_plain_arguments script args :
  Forall (fun a => plain_option a = true) args ->
  exists o,
    parse_command_line script args = Parsed o
    /\ FIX_MODE o = JS.includes args "--fix"
    /\ CHECK_MODE o = JS.includes args "--check" || negb (JS.includes args "--fix")
    /\ VERBOSE o = JS.includes args "--verbose"
    /\ TARGET_REPO o = match last_repo_argument args with
                       | Some arg => strip_through_equals arg
                       | None => ""
                       end
    /\ FIX_MODE o || CHECK_MODE o = true.
Proof.
  intros Hargs. unfold parse_command_line.
  pose proof (plain_options_prefix script args [] Hargs default_options) as Hparse.
  rewrite app_nil_r in Hparse. rewrite Hparse. cbn [parse_arguments].
  destruct (fold_options args default_options) as (H1 & H2 & H3 & H4).
  cbn [default_options FIX_MODE CHECK_MODE VERBOSE TARGET_REPO orb] in H1, H2, H3, H4.
  eexists. split; [reflexivity |].
  destruct (fold_left set_option args default_options) as [f c v t].
  cbn [FIX_MODE CHECK_MODE VERBOSE TARGET_REPO] in *. subst f c v t.
  destruct (JS.includes args "--fix"), (JS.includes args "--check");
    cbn; repeat split; reflexivity.
Qed.

Lemma script_options_of_plain_arguments_witness :
  exists o,
    parse_command_line "lint-watch.sh"
      ["--repo=Pyrrha-Website"; "--check"; "--fix"; "--repo=Pyrrha-Watch-App=2"]
    = Parsed o
    /\ FIX_MODE o
       = JS.includes ["--repo=Pyrrha-Website"; "--check"; "--fix"; "--repo=Pyrrha-Watch-App=2"]
           "--fix"
    /\ CHECK_MODE o
       = JS.includes ["--repo=Pyrrha-Website"; "--check"; "--fix"; "--repo=Pyrrha-Watch-App=2"]
           "--check"
         || negb (JS.includes
                    ["--repo=Pyrrha-Website"; "--check"; "--fix"; "--repo=Pyrrha-Watch-App=2"]
                    "--fix")
    /\ VERBOSE o
       = JS.includes ["--repo=Pyrrha-Website"; "--check"; "--fix"; "--repo=Pyrrha-Watch-App=2"]
           "--verbose"
    /\ TARGET_REPO o
       = match last_repo_argument
                 ["--repo=Pyrrha-Website"; "--check"; "--fix"; "--repo=Pyrrha-Watch-App=2"]
         with
         | Some arg => strip_through_equals arg
         | None => ""
         end
    /\ FIX_MODE o || CHECK_MODE o = true.
Proof.
  apply (script_options_of_plain_arguments "lint-watch.sh"
           ["--repo=Pyrrha-Website"; "--check"; "--fix"; "--repo=Pyrrha-Watch-App=2"]).
  repeat constructor.
Defined.

Lemma repo_option_step script value rest o :
  parse_arguments script ("--repo" :: value :: rest) o
  = parse_arguments script rest
      {| FIX_MODE := FIX_MODE o; CHECK_MODE := CHECK_MODE o; VERBOSE := VERBOSE o;
         TARGET_REPO := value |}.
Proof. reflexivity. Qed.

(** X14.  The two-word form [--repo NAME] takes the next argument as the
    target whatever it is, an option included, and without a next argument
    the script ends with status 1. *)
Theorem script_repo_takes_next_argument script pre value post :
  Forall (fun a => plain_option a = true) pre ->
  Forall (fun a => plain_option a = true) post ->
  parse_command_line script (pre ++ ["--repo"]) = Stopped 1 []
  /\ exists o,
       parse_command_line script (pre ++ "--repo" :: value :: post) = Parsed o
       /\ FIX_MODE o = JS.includes (pre ++ post) "--fix"
       /\ TARGET_REPO o = match last_repo_argument post with
                          | Some arg => strip_through_equals arg
                          | None => value
                          end.
Proof.
  intros Hpre Hpost. unfold parse_command_line. split.
  - rewrite (plain_options_prefix script pre ["--repo"] Hpre). reflexivity.
  - rewrite (plain_options_prefix script pre ("--repo" :: value :: post) Hpre).
    rewrite repo_option_step.
    pose proof (plain_options_prefix script post [] Hpost) as Hparse.
    rewrite app_nil_r in Hparse. rewrite Hparse. cbn [parse_arguments].
    eexists. split; [reflexivity |].
    match goal with
    | |- context [fold_left set_option post ?start] =>
        destruct (fold_options post start) as (H1 & _ & _ & H4)
    end.
    destruct (fold_options pre default_options) as (K1 & _).
    cbn [FIX_MODE CHECK_MODE VERBOSE TARGET_REPO default_options orb] in H1, H4, K1.
    match goal with
    | |- context [fold_left set_option post ?start] =>
        destruct (fold_left set_option post start) as [f c v t]
    end.
    cbn [FIX_MODE TARGET_REPO] in *. subst f t.
    unfold JS.includes. rewrite existsb_app. fold (JS.includes pre "--fix").
    fold (JS.includes post "--fix"). rewrite K1.
    destruct (JS.includes pre "--fix" || JS.includes post "--fix"), c; split; reflexivity.
Qed.

Lemma script_repo_takes_next_argument_witness :
  parse_command_line "lint-watch.sh" (["--verbose"] ++ ["--repo"]) = Stopped 1 []
  /\ exists o,
       parse_command_line "lint-watch.sh" (["--verbose"] ++ "--repo" :: "--fix" :: ["--check"])
       = Parsed o
       /\ FIX_MODE o = JS.includes (["--verbose"] ++ ["--check"]) "--fix"
       /\ TARGET_REPO o = match last_repo_argument ["--check"] with
                          | Some arg => strip_through_equals arg
                          | None => "--fix"
                          end.
Proof.
  apply (script_repo_takes_next_argument "lint-watch.sh" ["--verbose"] "--fix" ["--check"]);
    repeat constructor.
Defined.

(** ** The workspace health checker *)

Lemma runs_ret {W A} (a : A) (w : W) (Q : A -> list Event -> Prop) :
  Q a [] -> runs (ret a) w True Q.
Proof. intros HQ. unfold runs, ret. auto. Qed.

Lemma runs_log {W} message type (w : W) (Q : unit -> list Event -> Prop) :
  Q tt [EvLog type message] -> runs (log message type) w True Q.
Proof. intros HQ. unfold runs, log, emit. auto. Qed.

Lemma runs_throw {W A} e (w : W) (Q : A -> list Event -> Prop) :
  runs (throw e) w False Q.
Proof. unfold runs, throw. auto. Qed.

Lemma runs_bind {W A B} (m : M W A) (f : A -> M W B) (w : W) ok1 ok2 P Q :
  runs m w ok1 P ->
  (forall a o1, P a o1 -> runs (f a) w ok2 (fun b o2 => Q b (o1 ++ o2))) ->
  runs (bind m f) w (ok1 /\ ok2) Q.
Proof.
  unfold runs, bind. intros Hm Hf.
  destruct (m w) as [[[a | e | c] w1] o1]; [| tauto | tauto].
  destruct Hm as (-> & Hok1 & HP). specialize (Hf a o1 HP).
  destruct (f a w) as [[[b | e | c] w2] o2]; tauto.
Qed.

Lemma runs_iff {W A} (m : M W A) (w : W) ok ok' Q :
  (ok <-> ok') -> runs m w ok Q -> runs m w ok' Q.
Proof.
  unfold runs. intros Hiff. destruct (m w) as [[[a | e | c] w1] o1]; tauto.
Qed.

Lemma runs_post {W A} (m : M W A) (w : W) ok (Q Q' : A -> list Event -> Prop) :
  (forall a o, Q a o -> Q' a o) -> runs m w ok Q -> runs m w ok Q'.
Proof.
  unfold runs. intros HQ. destruct (m w) as [[[a | e | c] w1] o1]; try tauto.
  intros (? & ? & ?). auto.
Qed.

Lemma runs_if {W A} (b : bool) (m1 m2 : M W A) (w : W) ok1 ok2 Q :
  (b = true -> runs m1 w ok1 Q) ->
  (b = false -> runs m2 w ok2 Q) ->
  runs (if b then m1 else m2) w ((b = true -> ok1) /\ (b = false -> ok2)) Q.
Proof.
  intros H1 H2. destruct b.
  - eapply runs_iff; [| apply H1; reflexivity]. intuition discriminate.
  - eapply runs_iff; [| apply H2; reflexivity]. intuition discriminate.
Qed.

Lemma runs_forOf {W A S} (xs : list A) (body : S -> A -> M W S) (w : W)
    (okx : A -> Prop) (Inv : list A -> S -> list Event -> Prop) :
  (forall done x s o,
      Inv done s o ->
      runs (body s x) w (okx x) (fun s' o' => Inv (done ++ [x]) s' (o ++ o'))) ->
  forall done s o,
    Inv done s o ->
    runs (forOf xs body s) w (Forall okx xs)
      (fun s' o' => Inv (done ++ xs) s' (o ++ o')).
Proof.
  intros Hbody. induction xs as [| x xs IH]; intros done s o HInv.
  - cbn [forOf]. eapply runs_iff; [| apply runs_ret].
    + split; [intros _; apply List.Forall_nil | trivial].
    + rewrite !app_nil_r. exact HInv.
  - cbn [forOf].
    apply (runs_iff _ w (okx x /\ Forall okx xs)).
    { split.
      - intros [Hx Hxs]. apply List.Forall_cons; assumption.
      - intros H. inversion H; subst. split; assumption. }
    apply (runs_bind _ _ w _ _
             (fun s' o' => Inv (done ++ [x]) s' (o ++ o'))).
    + apply (Hbody done x s o HInv).
    + intros s' o' HInv'.
      eapply runs_post; [| apply (IH _ _ _ HInv')].
      intros s'' o''. cbn beta. rewrite <- !app_assoc. trivial.
Qed.

Lemma runs_forEach_log {W A} (xs : list A) (line : A -> Event) (body : A -> M W unit)
    (w : W) :
  (forall x, body x w = (Ret tt, w, [line x])) ->
  forEach xs body w = (Ret tt, w, map line xs).
Proof.
  intros Hbody. unfold forEach. induction xs as [| x xs IH]; [reflexivity |].
  cbn [forOf map]. unfold bind. rewrite Hbody. rewrite IH. reflexivity.
Qed.

Lemma runs_bind_log {W B} message type (f : unit -> M W B) (w : W) ok Q :
  runs (f tt) w ok (fun b o => Q b (EvLog type message :: o)) ->
  runs (bind (log message type) f) w ok Q.
Proof.
  unfold runs, bind, log, emit.
  destruct (f tt w) as [[[b | e | c] w1] o1]; trivial.
Qed.

Lemma adds_refl table repoName issues : Checker.adds table repoName issues issues.
Proof.
  exists []. rewrite app_nil_r. repeat split.
  - apply List.Forall_nil.
  - apply sublist_nil_l.
Qed.

Lemma adds_trans t1 t2 repoName a b c :
  Checker.adds t1 repoName a b -> Checker.adds t2 repoName b c ->
  Checker.adds (t1 ++ t2) repoName a c.
Proof.
  intros (n1 & -> & F1 & S1) (n2 & -> & F2 & S2).
  exists (n1 ++ n2). rewrite app_assoc. repeat split.
  - apply Forall_app. split; assumption.
  - rewrite map_app. apply sublist_app; assumption.
Qed.

Lemma adds_one repoName issues text severity :
  Checker.adds [(text, severity)] repoName issues
    (Checker.addIssue issues repoName text severity).
Proof.
  eexists. split; [reflexivity |]. split.
  - apply List.Forall_cons; [reflexivity | apply List.Forall_nil].
  - apply sublist_skip, sublist_nil.
Qed.

Lemma adds_more t t' repoName a b :
  sublist t t' -> Checker.adds t repoName a b -> Checker.adds t' repoName a b.
Proof.
  intros Ht (new & -> & F & S). exists new. repeat split; try assumption.
  etransitivity; eassumption.
Qed.

(** Issues added in the order of a table. *)
Ltac in_table :=
  cbn [map Checker.issue_key Checker.message Checker.severity firstn skipn
       Checker.readiness_issues];
  repeat first [apply sublist_nil | apply sublist_skip | apply sublist_cons].

Ltac adds_issues :=
  unfold Checker.adds, Checker.addIssue; rewrite <- ?app_assoc;
  first [ exists []; rewrite app_nil_r; split; [reflexivity |]
        | eexists; split; [reflexivity |] ];
  split; [repeat constructor | in_table].

(** A block of [checkRepository] that only asks whether files exist. *)
Ltac existence_block :=
  unfold runs, bind, Checker.exists_, fs_existsSync, log, emit, ret;
  repeat match goal with
         | |- context [if ?c then _ else _] => destruct c
         end;
  cbn [app];
  (split; [reflexivity |]); (split; [exact I |]).

Ltac node_block :=
  existence_block;
  (split; [adds_issues |]);
  (split; [intros; congruence | repeat constructor]).

Section CheckerFacts.

Context {W : Type} (host : CheckerHost W).

Lemma runs_bind_exists {B} p (f : bool -> M W B) (w : W) ok Q :
  runs (f (existsSync (node_host host) w p)) w ok Q ->
  runs (bind (Checker.exists_ host p) f) w ok Q.
Proof.
  unfold runs, bind, Checker.exists_, fs_existsSync.
  destruct (f _ w) as [[[b | e | c] w1] o1]; trivial.
Qed.

Lemma runs_bind_readdir {B} dir (f : list string -> M W B) (w : W) ok Q :
  (forall items,
      readdirSync (node_host host) w dir = Some items -> runs (f items) w ok Q) ->
  runs (bind (fs_readdirSync (node_host host) dir) f) w
    (readdirSync (node_host host) w dir <> None /\ ok) Q.
Proof.
  unfold runs, bind, fs_readdirSync. intros Hf.
  destruct (readdirSync (node_host host) w dir) as [items |].
  - specialize (Hf items eq_refl).
    destruct (f items w) as [[[b | e | c] w1] o1]; intuition congruence.
  - intuition congruence.
Qed.

Lemma runs_bind_readdir_recursive {B} dir (f : list string -> M W B) (w : W) ok Q :
  (forall items,
      readdirSync_recursive host w dir = Some items -> runs (f items) w ok Q) ->
  runs (bind (Checker.fs_readdirSync_recursive host dir) f) w
    (readdirSync_recursive host w dir <> None /\ ok) Q.
Proof.
  unfold runs, bind, Checker.fs_readdirSync_recursive. intros Hf.
  destruct (readdirSync_recursive host w dir) as [items |].
  - specialize (Hf items eq_refl).
    destruct (f items w) as [[[b | e | c] w1] o1]; intuition congruence.
  - intuition congruence.
Qed.

Lemma runs_bind_stat {B} p (f : bool -> M W B) (w : W) ok Q :
  (forall b,
      statSync_isDirectory (node_host host) w p = Some b -> runs (f b) w ok Q) ->
  runs (bind (fs_statSync_isDirectory (node_host host) p) f) w
    (statSync_isDirectory (node_host host) w p <> None /\ ok) Q.
Proof.
  unfold runs, bind, fs_statSync_isDirectory. intros Hf.
  destruct (statSync_isDirectory (node_host host) w p) as [b |].
  - specialize (Hf b eq_refl).
    destruct (f b w) as [[[b' | e | c] w1] o1]; intuition congruence.
  - intuition congruence.
Qed.

Lemma runs_bind_readJson {B} p (f : Json -> M W B) (w : W) ok Q :
  (forall v, readJson host w p = Some v -> runs (f v) w ok Q) ->
  runs (bind (Checker.readJsonFile host p) f) w (readJson host w p <> None /\ ok) Q.
Proof.
  unfold runs, bind, Checker.readJsonFile. intros Hf.
  destruct (readJson host w p) as [v |].
  - specialize (Hf v eq_refl).
    destruct (f v w) as [[[b' | e | c] w1] o1]; intuition congruence.
  - intuition congruence.
Qed.

(** The entries that [run] keeps. *)
Lemma pyrrhaRepos_runs workspaceRoot items w :
  runs (Checker.pyrrhaRepos host workspaceRoot items) w
    (Forall (fun item =>
               statSync_isDirectory (node_host host) w
                 (Checker.join host [workspaceRoot; item]) <> None) items)
    (fun repos out =>
       repos = List.filter (Checker.examined host workspaceRoot w) items /\ out = []).
Proof.
  unfold Checker.pyrrhaRepos.
  eapply runs_post;
    [| apply (runs_forOf items _ w _
                (fun done repos out =>
                   repos = List.filter (Checker.examined host workspaceRoot w) done
                   /\ out = []) )
         with (done := []) (o := []) ].
  - intros repos out. cbn. trivial.
  - intros done x repos o [-> ->].
    eapply runs_iff; [| apply runs_bind_stat].
    + instantiate (1 := True). tauto.
    + intros b Hb. apply runs_ret. split; [| reflexivity].
      rewrite List.filter_app. cbn [List.filter].
      assert (Hx : Checker.examined host workspaceRoot w x
                   = b && JS.startsWith x "Pyrrha-"
                     && negb (String.eqb x "Pyrrha-Development-Tools")).
      { unfold Checker.examined. rewrite Hb. destruct b; reflexivity. }
      rewrite Hx.
      destruct (b && JS.startsWith x "Pyrrha-"
                && negb (String.eqb x "Pyrrha-Development-Tools"));
        [reflexivity | rewrite app_nil_r; reflexivity].
  - split; reflexivity.
Qed.

Lemma runs_bind_pure {A B} (m : M W A) (f : A -> M W B) (w : W) ok P Q :
  runs m w True P ->
  (forall a o1, P a o1 -> runs (f a) w ok (fun b o2 => Q b (o1 ++ o2))) ->
  runs (bind m f) w ok Q.
Proof.
  intros Hm Hf. eapply runs_iff; [| eapply runs_bind; eassumption]. tauto.
Qed.

Lemma adds_all repoName (pkg : bool) issues issues1 issues2 issues3 :
  Checker.adds (firstn 4 Checker.readiness_issues) repoName issues issues1 ->
  (pkg = false -> issues1 = issues) ->
  Checker.adds [("No pyproject.toml found for Python configuration", Info)]
    repoName issues1 issues2 ->
  Checker.adds [("No .clang-format found for C/C++ formatting", Info)]
    repoName issues2 issues3 ->
  exists new,
    issues3 = issues ++ new
    /\ Forall (fun issue => Checker.repo issue = repoName) new
    /\ sublist (map Checker.issue_key new) Checker.readiness_issues
    /\ (pkg = false ->
        sublist (map Checker.issue_key new) (skipn 4 Checker.readiness_issues)).
Proof.
  intros H1 Hnone H2 H3.
  pose proof (adds_trans _ _ _ _ _ _ H2 H3) as H23.
  destruct (adds_trans _ _ _ _ _ _ H1 H23) as (new & -> & Fnew & Snew).
  exists new. repeat split; try assumption.
  intros Hpkg. rewrite (Hnone Hpkg) in H23.
  destruct H23 as (new' & Heq & _ & Snew').
  apply app_inv_head in Heq. subst new'. exact Snew'.
Qed.

Lemma checkRepository_runs issues repoPath repoName w :
  runs (Checker.checkRepository host issues repoPath repoName) w
    (Checker.repo_readable host w repoPath)
    (fun issues' out =>
       (exists new,
          issues' = issues ++ new ++ Checker.git_issue host w repoPath repoName
          /\ Forall (fun issue => Checker.repo issue = repoName) new
          /\ sublist (map Checker.issue_key new) Checker.readiness_issues
          /\ (existsSync (node_host host) w
                (Checker.join host [repoPath; "package.json"]) = false ->
              sublist (map Checker.issue_key new)
                (skipn 4 Checker.readiness_issues)))
       /\ exists rest,
           out = Checker.checking repoName :: rest
           /\ Forall Checker.is_success rest).
Proof.
  unfold Checker.checkRepository.
  apply runs_bind_log. cbv beta zeta.
  apply runs_bind_exists.
  set (pkg := existsSync (node_host host) w
                (Checker.join host [repoPath; "package.json"])).
  set (file := Checker.join host [repoPath; "package.json"]).
  apply (runs_iff _ w
           ((pkg = true -> readJson host w file <> None
                           /\ readJson host w file <> Some JNull)
            /\ (readdirSync_recursive host w repoPath <> None
                /\ (readdirSync (node_host host) w repoPath <> None /\ True)))).
  { unfold Checker.repo_readable. fold file. fold pkg. tauto. }
  apply (runs_bind _ _ w _ _
           (fun issues1 o1 =>
              Checker.adds (firstn 4 Checker.readiness_issues) repoName issues issues1
              /\ (pkg = false -> issues1 = issues)
              /\ Forall Checker.is_success o1)).
  - destruct pkg eqn:Hpkg.
    + apply (runs_iff _ w (readJson host w file <> None
                           /\ readJson host w file <> Some JNull)).
      { intuition congruence. }
      apply runs_bind_readJson. intros v Hv.
      destruct v;
        [ eapply runs_iff; [| apply runs_throw]; intuition congruence
        | apply (runs_iff _ w True); [intuition congruence | node_block] .. ].
    + eapply runs_iff; [| apply runs_ret].
      * intuition congruence.
      * split; [apply adds_refl |]. split; [reflexivity | apply List.Forall_nil].
  - intros issues1 o1 (H1 & Hnone & Ho1).
    apply runs_bind_exists.
    apply (runs_bind_pure _ _ w _
             (fun issues2 o2 =>
                Checker.adds [("No pyproject.toml found for Python configuration", Info)]
                  repoName issues1 issues2
                /\ Forall Checker.is_success o2)).
    { existence_block; (split; [adds_issues | repeat constructor]). }
    intros issues2 o2 (H2 & Ho2).
    apply runs_bind_readdir_recursive. intros entries _. cbv beta zeta.
    apply (runs_bind_pure _ _ w _
             (fun issues3 o3 =>
                Checker.adds [("No .clang-format found for C/C++ formatting", Info)]
                  repoName issues2 issues3
                /\ Forall Checker.is_success o3)).
    { existence_block; (split; [adds_issues | repeat constructor]). }
    intros issues3 o3 (H3 & Ho3).
    apply runs_bind_readdir. intros files _. cbv beta zeta.
    apply (runs_bind_pure _ _ w _ (fun _ o4 => Forall Checker.is_success o4)).
    { existence_block; repeat constructor. }
    intros [] o4 Ho4.
    apply runs_bind_exists.
    destruct (adds_all _ _ _ _ _ _ H1 Hnone H2 H3) as (new & -> & Fnew & Snew & Snone).
    unfold Checker.git_issue, Checker.checking.
    destruct (existsSync (node_host host) w (Checker.join host [repoPath; ".git"])).
    + apply runs_bind_log. apply runs_ret. split.
      * exists new. rewrite app_nil_r. auto.
      * eexists. split; [reflexivity |].
        rewrite !Forall_app. repeat split; try assumption; repeat constructor.
    + apply runs_ret. split.
      * exists new. unfold Checker.addIssue. rewrite <- app_assoc. auto.
      * eexists. split; [reflexivity |].
        rewrite !Forall_app. repeat split; try assumption; repeat constructor.
Qed.

End CheckerFacts.

(** *** Grouping of the issues *)

Lemma group_push_prop groups issue key :
  JS.prop (Checker.group_push groups issue) key
  = if String.eqb (Checker.repo issue) key
    then Some (match JS.prop groups key with
               | Some group => group ++ [issue]
               | None => [issue]
               end)
    else JS.prop groups key.
Proof.
  induction groups as [| [k g] rest IH]; cbn [Checker.group_push JS.prop].
  - rewrite String.eqb_sym. reflexivity.
  - destruct (String.eqb_spec (Checker.repo issue) k) as [Hk | Hk]; cbn [JS.prop].
    + destruct (String.eqb_spec key k) as [-> | Hkey].
      * rewrite Hk, String.eqb_refl. reflexivity.
      * destruct (String.eqb_spec (Checker.repo issue) key); [congruence | reflexivity].
    + destruct (String.eqb_spec key k) as [-> | Hkey].
      * destruct (String.eqb_spec (Checker.repo issue) k); [congruence | reflexivity].
      * exact IH.
Qed.

Lemma group_push_keys groups issue :
  map fst (Checker.group_push groups issue)
  = if JS.includes (map fst groups) (Checker.repo issue)
    then map fst groups
    else map fst groups ++ [Checker.repo issue].
Proof.
  unfold JS.includes.
  induction groups as [| [k g] rest IH]; cbn [Checker.group_push map fst existsb];
    [reflexivity |].
  destruct (String.eqb_spec (Checker.repo issue) k) as [Hk | Hk]; cbn [map fst orb].
  - reflexivity.
  - rewrite IH. destruct (existsb _ _); reflexivity.
Qed.

Lemma includes_In xs x : JS.includes xs x = true <-> In x xs.
Proof.
  unfold JS.includes. rewrite existsb_exists. split.
  - intros (y & Hy & Heq). apply String.eqb_eq in Heq. congruence.
  - intros Hx. exists x. split; [exact Hx | apply String.eqb_refl].
Qed.

Lemma group_push_NoDup groups issue :
  List.NoDup (map fst groups) ->
  List.NoDup (map fst (Checker.group_push groups issue)).
Proof.
  intros Hnd. rewrite group_push_keys.
  destruct (JS.includes _ _) eqn:Hin; [exact Hnd |].
  apply List.NoDup_app.
  - exact Hnd.
  - apply List.NoDup_cons; [intros [] | apply List.NoDup_nil].
  - intros x Hx [<- | []]. apply includes_In in Hx. congruence.
Qed.

Lemma group_push_concat groups issue :
  Permutation (concat (map snd (Checker.group_push groups issue)))
    (concat (map snd groups) ++ [issue]).
Proof.
  induction groups as [| [k g] rest IH]; cbn [Checker.group_push map snd concat];
    [reflexivity |].
  destruct (String.eqb (Checker.repo issue) k); cbn [map snd concat].
  - rewrite <- !app_assoc. apply Permutation_app_head. apply Permutation_app_comm.
  - rewrite IH, app_assoc. reflexivity.
Qed.

Lemma prop_In {A} (obj : list (string * A)) key value :
  List.NoDup (map fst obj) ->
  (In (key, value) obj <-> JS.prop obj key = Some value).
Proof.
  induction obj as [| [k v] rest IH]; cbn [map fst JS.prop In]; intros Hnd.
  - split; [tauto | discriminate].
  - inversion Hnd as [| ? ? Hk Hrest]; subst.
    destruct (String.eqb_spec key k) as [-> | Hkey].
    + split.
      * intros [Heq | Hin]; [congruence |].
        exfalso. apply Hk. apply (in_map fst) in Hin. exact Hin.
      * intros Heq. left. congruence.
    + rewrite <- (IH Hrest). split; [| tauto].
      intros [Heq | Hin]; [congruence | exact Hin].
Qed.

Lemma groupedIssues_invariant issues :
  forall before groups,
    List.NoDup (map fst groups) ->
    (forall key,
        JS.prop groups key
        = match List.filter (fun issue => String.eqb (Checker.repo issue) key) before with
          | [] => None
          | group => Some group
          end) ->
    Permutation (concat (map snd groups)) before ->
    let groups' := fold_left Checker.group_push issues groups in
    List.NoDup (map fst groups')
    /\ (forall key,
           JS.prop groups' key
           = match List.filter (fun issue => String.eqb (Checker.repo issue) key)
                     (before ++ issues) with
             | [] => None
             | group => Some group
             end)
    /\ Permutation (concat (map snd groups')) (before ++ issues).
Proof.
  induction issues as [| issue issues IH]; intros before groups Hnd Hprop Hperm;
    cbn [fold_left].
  - rewrite app_nil_r. auto.
  - replace (before ++ issue :: issues) with ((before ++ [issue]) ++ issues)
      by (rewrite <- app_assoc; reflexivity).
    apply IH.
    + apply group_push_NoDup, Hnd.
    + intros key. rewrite group_push_prop, Hprop, List.filter_app.
      cbn [List.filter].
      destruct (String.eqb (Checker.repo issue) key).
      * destruct (List.filter _ before); reflexivity.
      * rewrite app_nil_r. reflexivity.
    + rewrite group_push_concat. apply Permutation_app_tail, Hperm.
Qed.

Lemma filter_length_Permutation {A} (f : A -> bool) (xs ys : list A) :
  Permutation xs ys -> length (List.filter f xs) = length (List.filter f ys).
Proof.
  induction 1 as [| x xs ys _ IH | x y xs | xs ys zs _ IH1 _ IH2]; cbn [List.filter].
  - reflexivity.
  - destruct (f x); cbn [length]; congruence.
  - destruct (f x), (f y); reflexivity.
  - congruence.
Qed.

(** *** The report and the run *)

Lemma forEach_lines {W A} (xs : list A) (lines : A -> list Event)
    (body : A -> M W unit) (w : W) :
  (forall x, body x w = (Ret tt, w, lines x)) ->
  forEach xs body w = (Ret tt, w, flat_map lines xs).
Proof.
  intros Hbody. unfold forEach. induction xs as [| x xs IH]; [reflexivity |].
  cbn [forOf flat_map]. unfold bind. rewrite Hbody. rewrite IH. reflexivity.
Qed.

Lemma flat_map_singleton {A B} (f : A -> B) (xs : list A) :
  flat_map (fun x => [f x]) xs = map f xs.
Proof.
  induction xs as [| x xs IH]; [reflexivity |].
  cbn [flat_map map app]. rewrite IH. reflexivity.
Qed.

Lemma runs_returns {W A} (m : M W A) (w : W) a out (Q : A -> list Event -> Prop) :
  m w = (Ret a, w, out) -> Q a out -> runs m w True Q.
Proof. intros Hm HQ. unfold runs. rewrite Hm. auto. Qed.

Section CheckerRun.

Context {W : Type} (host : CheckerHost W).

Lemma report_eq issues (w : W) :
  Checker.report (W := W) issues w = (Ret tt, w, Checker.report_lines issues).
Proof.
  unfold Checker.report, Checker.report_lines, bind, log, emit.
  destruct (Nat.eqb (length issues) 0); [reflexivity |].
  rewrite (forEach_lines _ Checker.group_lines); [reflexivity |].
  intros [key group]. unfold Checker.group_lines. cbn [fst snd].
  rewrite (forEach_lines _ (fun issue => [Checker.issue_line issue]));
    [| reflexivity].
  rewrite flat_map_singleton. reflexivity.
Qed.

Lemma run_tail_eq issues (w : W) :
  (Checker.report (W := W) issues ;;
   (if Nat.ltb 0 (length Checker.recommendations) then
      log "\n💡 Recommendations:" Header ;;
      forEach Checker.recommendations (fun rec => log ("  • " +:+ rec) Info)
    else ret tt) ;;
   log "\n✅ Workspace check completed!" Success)%js w
  = (Ret tt, w, Checker.report_lines issues ++ Checker.closing_lines).
Proof.
  unfold bind at 1. rewrite report_eq.
  cbn [Checker.recommendations length Nat.ltb Nat.leb].
  unfold bind, log, emit.
  rewrite (forEach_lines _ (fun rec => [EvLog Info ("  • " +:+ rec)]));
    [| reflexivity].
  rewrite flat_map_singleton. reflexivity.
Qed.

Lemma runs_bind_readdir_items {B} dir (f : list string -> M W B) (w : W)
    (ok : list string -> Prop) Q :
  (forall items,
      readdirSync (node_host host) w dir = Some items -> runs (f items) w (ok items) Q) ->
  runs (bind (fs_readdirSync (node_host host) dir) f) w
    (exists items, readdirSync (node_host host) w dir = Some items /\ ok items) Q.
Proof.
  unfold runs, bind, fs_readdirSync. intros Hf.
  destruct (readdirSync (node_host host) w dir) as [items |].
  - specialize (Hf items eq_refl).
    destruct (f items w) as [[[b | e | c] w1] o1]; trivial.
    + destruct Hf as (-> & Hok & HQ). repeat split; trivial. exists items. auto.
    + destruct Hf as (-> & Hok). split; [reflexivity |].
      intros (items' & Heq & Hok'). injection Heq as <-. contradiction.
  - split; [reflexivity |]. intros (items & Heq & _). discriminate.
Qed.

(** What a run of the checker does. *)
Lemma run_runs workspaceRoot (w : W) :
  runs (Checker.run host workspaceRoot) w
    (Checker.workspace_readable host workspaceRoot w)
    (fun _ out =>
       exists items issues checks,
         readdirSync (node_host host) w workspaceRoot = Some items
         /\ Checker.collected host workspaceRoot w
              (List.filter (Checker.examined host workspaceRoot w) items) issues checks
         /\ out = [EvLog Header "🔍 Pyrrha Workspace Health Check";
                   EvLog Info ("📁 Workspace: " +:+ workspaceRoot +:+ "\n");
                   EvLog Info
                     ("Found "
                      +:+ JS.toString
                            (length (List.filter
                                       (Checker.examined host workspaceRoot w) items))
                      +:+ " Pyrrha repositories:\n")]
                  ++ checks ++ Checker.report_lines issues ++ Checker.closing_lines).
Proof.
  unfold Checker.run. do 2 apply runs_bind_log.
  unfold Checker.workspace_readable.
  apply runs_bind_readdir_items. intros items Hitems.
  apply (runs_iff _ w
           (Forall (fun item =>
                      statSync_isDirectory (node_host host) w
                        (Checker.join host [workspaceRoot; item]) <> None) items
            /\ (Forall (fun item =>
                          Checker.repo_readable host w
                            (Checker.join host [workspaceRoot; item]))
                  (List.filter (Checker.examined host workspaceRoot w) items)
                /\ True))); [tauto |].
  eapply runs_bind; [apply pyrrhaRepos_runs |].
  intros repos o1 [-> ->]. cbn beta.
  apply runs_bind_log.
  eapply runs_bind.
  - apply (runs_forOf _ _ w _ (Checker.collected host workspaceRoot w))
      with (done := []) (o := []); [| apply Checker.collected_nil].
    intros done repoName issues o Hdone. cbv beta zeta.
    eapply runs_post; [| apply checkRepository_runs].
    intros issues' out ((new & -> & Fnew & Snew & _) & rest & -> & Frest).
    apply Checker.collected_snoc; assumption.
  - intros issues checks Hcollected. cbn [app] in Hcollected.
    eapply runs_returns; [apply run_tail_eq |].
    exists items, issues, checks. repeat split; try assumption.
Qed.

End CheckerRun.

Lemma sublist_Forall {A} (P : A -> Prop) (l1 l2 : list A) :
  sublist l1 l2 -> Forall P l2 -> Forall P l1.
Proof.
  induction 1 as [| x l1 l2 _ IH | x l1 l2 _ IH]; intros H.
  - apply List.Forall_nil.
  - inversion H; subst. apply List.Forall_cons; auto.
  - inversion H; subst. auto.
Qed.

Lemma filter_none_of {A} (f : A -> bool) (xs : list A) :
  Forall (fun x => f x = false) xs -> List.filter f xs = [].
Proof.
  induction 1 as [| x xs Hx _ IH]; [reflexivity |].
  cbn [List.filter]. rewrite Hx. exact IH.
Qed.

Lemma issue_line_not_checking issue :
  Checker.is_checking (Checker.issue_line issue) = false.
Proof. destruct issue as [r m []]; reflexivity. Qed.

Lemma success_not_checking rest :
  Forall Checker.is_success rest ->
  Forall (fun e => Checker.is_checking e = false) rest
  /\ Forall (fun e => Checker.is_not_git_line e = false) rest.
Proof.
  induction 1 as [| e rest He _ [IH1 IH2]].
  - split; apply List.Forall_nil.
  - destruct e as [[] text | | | | |]; try contradiction.
    split; apply List.Forall_cons; trivial.
Qed.

Lemma readiness_not_git new :
  sublist (map Checker.issue_key new) Checker.readiness_issues ->
  List.filter (fun issue => Checker.is_not_git_line (Checker.issue_line issue)) new = [].
Proof.
  intros Hsub. apply filter_none_of.
  assert (Hkeys : Forall (fun key =>
                            Checker.is_not_git_line
                              (EvLog (snd key)
                                 ("  " +:+ Checker.icon (snd key) +:+ " " +:+ fst key))
                            = false)
                    (map Checker.issue_key new)).
  { apply (sublist_Forall _ _ _ Hsub). repeat constructor. }
  clear Hsub. induction new as [| issue new IH]; [apply List.Forall_nil |].
  inversion Hkeys; subst. apply List.Forall_cons; auto.
Qed.

Section CheckerReport.

Context {W : Type} (host : CheckerHost W).

Lemma collected_facts workspaceRoot (w : W) repos issues out :
  Checker.collected host workspaceRoot w repos issues out ->
  List.filter Checker.is_checking out = map Checker.checking repos
  /\ List.filter Checker.is_not_git_line out = []
  /\ length (List.filter
               (fun issue => Checker.is_not_git_line (Checker.issue_line issue)) issues)
     = length (List.filter (Checker.without_git host workspaceRoot w) repos).
Proof.
  induction 1 as [| repos issues out repoName new rest _ (IH1 & IH2 & IH3) Fnew Snew Frest].
  - repeat split; reflexivity.
  - destruct (success_not_checking _ Frest) as [Hc Hg].
    rewrite !List.filter_app, map_app. cbn [List.filter map].
    rewrite (filter_none_of _ _ Hc), (filter_none_of _ _ Hg), IH1, IH2.
    rewrite (readiness_not_git _ Snew).
    assert (Hck : Checker.is_checking (Checker.checking repoName) = true)
      by apply prefix_append.
    assert (Hng : Checker.is_not_git_line (Checker.checking repoName) = false)
      by reflexivity.
    rewrite Hck, Hng. split; [reflexivity |]. split; [reflexivity |].
    rewrite !length_app, IH3. f_equal.
    unfold Checker.git_issue, Checker.without_git.
    destruct (existsSync _ _ _); reflexivity.
Qed.

Lemma report_lines_facts issues :
  List.filter Checker.is_checking (Checker.report_lines issues) = []
  /\ length (List.filter Checker.is_not_git_line (Checker.report_lines issues))
     = length (List.filter
                 (fun issue => Checker.is_not_git_line (Checker.issue_line issue))
                 issues).
Proof.
  unfold Checker.report_lines.
  destruct (groupedIssues_invariant issues [] [] (List.NoDup_nil _)
              (fun _ => eq_refl) (Permutation_refl _)) as (_ & _ & Hperm).
  cbn [app] in Hperm. fold (Checker.groupedIssues issues) in Hperm.
  destruct (Nat.eqb_spec (length issues) 0) as [Hlen | _].
  { apply length_zero_iff_nil in Hlen. subst issues. split; reflexivity. }
  cbn [List.filter Checker.is_checking Checker.is_not_git_line].
  rewrite <- (filter_length_Permutation _ _ _ Hperm).
  generalize (Checker.groupedIssues issues) as groups.
  induction groups as [| [key group] groups [IH1 IH2]]; [split; reflexivity |].
  cbn [flat_map map snd concat].
  rewrite !List.filter_app, IH1, !length_app, IH2.
  unfold Checker.group_lines. cbn [fst snd].
  cbn [List.filter Checker.is_checking Checker.is_not_git_line].
  rewrite !filter_map_swap, length_map. split; [| reflexivity].
  rewrite app_nil_r.
  rewrite (filter_none_of (fun a => Checker.is_checking (Checker.issue_line a)));
    [reflexivity |].
  apply List.Forall_forall. intros i _. apply issue_line_not_checking.
Qed.

(** The two ways in which the checker ends. *)
Lemma main_cases (w : W) :
  let workspaceRoot := Checker.WORKSPACE_ROOT host in
  (Checker.workspace_readable host workspaceRoot w
   /\ exists items issues checks,
       readdirSync (node_host host) w workspaceRoot = Some items
       /\ Checker.collected host workspaceRoot w
            (List.filter (Checker.examined host workspaceRoot w) items) issues checks
       /\ Checker.main host w
          = {| exitCode := 0; final := w;
               output :=
                 [EvLog Header "🔍 Pyrrha Workspace Health Check";
                  EvLog Info ("📁 Workspace: " +:+ workspaceRoot +:+ "\n");
                  EvLog Info
                    ("Found "
                     +:+ JS.toString
                           (length (List.filter
                                      (Checker.examined host workspaceRoot w) items))
                     +:+ " Pyrrha repositories:\n")]
                 ++ checks ++ Checker.report_lines issues ++ Checker.closing_lines |})
  \/ (~ Checker.workspace_readable host workspaceRoot w
      /\ exists error out,
          Checker.main host w
          = {| exitCode := 1; final := w;
               output := out ++ [EvConsoleError "Error during workspace check:" error] |}).
Proof.
  intros workspaceRoot.
  pose proof (run_runs host workspaceRoot w) as Hrun.
  unfold runs in Hrun. unfold Checker.main, Checker.script, try_catch.
  fold workspaceRoot.
  destruct (Checker.run host workspaceRoot w) as [[[[] | error | code] w1] out];
    [| | contradiction].
  - destruct Hrun as (-> & Hok & items & issues & checks & Hitems & Hcollected & ->).
    left. split; [exact Hok |]. exists items, issues, checks. auto.
  - destruct Hrun as (-> & Hok). right. split; [exact Hok |].
    exists error, out. reflexivity.
Qed.

End CheckerReport.

Lemma mixed_workspace_readable :
  Checker.workspace_readable (CheckerFixture.host mixed_workspace)
    (Checker.WORKSPACE_ROOT (CheckerFixture.host mixed_workspace)) 0%nat.
Proof.
  exists (map fst (CheckerFixture.entries mixed_workspace)).
  split; [reflexivity |]. split.
  - repeat (apply List.Forall_cons; [intros H; vm_compute in H; discriminate |]).
    apply List.Forall_nil.
  - change (Forall
              (fun item =>
                 Checker.repo_readable (CheckerFixture.host mixed_workspace) 0%nat
                   (Checker.join (CheckerFixture.host mixed_workspace)
                      [Checker.WORKSPACE_ROOT (CheckerFixture.host mixed_workspace);
                       item]))
              ["Pyrrha-Dashboard"; "Pyrrha-Sandbox"]).
    repeat (apply List.Forall_cons;
            [split;
             [first [ intros H; vm_compute in H; discriminate
                    | intros _; split; intros H; vm_compute in H; discriminate ]
             | split; intros H; vm_compute in H; discriminate] |]).
    apply List.Forall_nil.
Qed.

(** X15.  The health checker ends with status 0 exactly when the file
    system answers everything it asks: the workspace is listed, every
    entry can be examined, and every repository found is listed and has
    a [package.json] that parses to something other than [null], if it
    has one.  The issues it finds never change the status.  It then
    prints the closing line last; otherwise it ends with status 1, the
    exception being the last thing printed. *)
Theorem checker_exit_code {W : Type} (host : CheckerHost W) (w : W) :
  let outcome := Checker.main host w in
  (exitCode outcome = 0
   <-> Checker.workspace_readable host (Checker.WORKSPACE_ROOT host) w)
  /\ ((exitCode outcome = 0
       /\ last (output outcome)
          = Some (EvLog Success "\n✅ Workspace check completed!"))
      \/ (exitCode outcome = 1
          /\ exists error,
              last (output outcome)
              = Some (EvConsoleError "Error during workspace check:" error))).
Proof.
  cbv zeta.
  destruct (main_cases host w)
    as [(Hok & items & issues & checks & _ & _ & ->)
       | (Hno & error & out & ->)]; cbn [exitCode output].
  - split; [tauto |]. left. split; [reflexivity |].
    unfold Checker.closing_lines.
    rewrite !app_assoc. rewrite app_comm_cons, app_assoc. apply last_snoc.
  - split; [split; [discriminate | contradiction] |]. right.
    split; [reflexivity |]. exists error. apply last_snoc.
Qed.

(** X16.  When the repository can be read, [checkRepository] returns,
    leaves the issues recorded before in place and adds its own after
    them, each under the name of the repository: at most one for each of
    its six readiness checks, in the order of the checks, none of the
    four Node.js ones without a [package.json], and last the one for a
    missing [.git], exactly when [.git] does not exist. *)
Theorem checkRepository_issues {W : Type} (host : CheckerHost W)
    (issues : list Checker.Issue) (repoPath repoName : string) (w : W) :
  Checker.repo_readable host w repoPath ->
  exists issues' out new,
    Checker.checkRepository host issues repoPath repoName w = (Ret issues', w, out)
    /\ issues' = issues ++ new ++ Checker.git_issue host w repoPath repoName
    /\ Forall (fun issue => Checker.repo issue = repoName) new
    /\ sublist (map Checker.issue_key new) Checker.readiness_issues
    /\ (existsSync (node_host host) w
          (Checker.join host [repoPath; "package.json"]) = false ->
        sublist (map Checker.issue_key new) (skipn 4 Checker.readiness_issues)).
Proof.
  intros Hok.
  pose proof (checkRepository_runs host issues repoPath repoName w) as Hrun.
  unfold runs in Hrun.
  destruct (Checker.checkRepository host issues repoPath repoName w)
    as [[[issues' | error | code] w1] out]; [| tauto | contradiction].
  destruct Hrun as (-> & _ & (new & -> & Fnew & Snew & Snone) & _).
  exists (issues ++ new ++ Checker.git_issue host w repoPath repoName), out, new.
  auto.
Qed.

Lemma checkRepository_issues_witness :
  exists issues' out new,
    Checker.checkRepository (CheckerFixture.host mixed_workspace)
      [] "/work/Pyrrha-Dashboard" "Pyrrha-Dashboard" 0%nat = (Ret issues', 0%nat, out)
    /\ issues' = [] ++ new
                 ++ Checker.git_issue (CheckerFixture.host mixed_workspace) 0%nat
                      "/work/Pyrrha-Dashboard" "Pyrrha-Dashboard"
    /\ Forall (fun issue => Checker.repo issue = "Pyrrha-Dashboard") new
    /\ sublist (map Checker.issue_key new) Checker.readiness_issues
    /\ (existsSync (node_host (CheckerFixture.host mixed_workspace)) 0%nat
          (Checker.join (CheckerFixture.host mixed_workspace)
             ["/work/Pyrrha-Dashboard"; "package.json"]) = false ->
        sublist (map Checker.issue_key new) (skipn 4 Checker.readiness_issues)).
Proof.
  apply (checkRepository_issues (CheckerFixture.host mixed_workspace)
           [] "/work/Pyrrha-Dashboard" "Pyrrha-Dashboard" 0%nat).
  split; [intros _; split; intros H; vm_compute in H; discriminate |].
  split; intros H; vm_compute in H; discriminate.
Defined.

(** X17.  The report groups the issues by repository without losing or
    repeating any: no repository has two groups, the group of a
    repository holds its issues, all of them and in the order in which
    they were found, there is no empty group, and the groups together
    are a rearrangement of the issues. *)
Theorem groupedIssues_partition (issues : list Checker.Issue) :
  let groups := Checker.groupedIssues issues in
  List.NoDup (map fst groups)
  /\ (forall key group,
         In (key, group) groups
         <-> group <> []
             /\ group = List.filter
                          (fun issue => String.eqb (Checker.repo issue) key) issues)
  /\ Permutation (concat (map snd groups)) issues.
Proof.
  cbv zeta.
  destruct (groupedIssues_invariant issues [] [] (List.NoDup_nil _)
              (fun _ => eq_refl) (Permutation_refl _)) as (Hnd & Hprop & Hperm).
  cbn [app] in Hprop, Hperm. fold (Checker.groupedIssues issues) in Hnd, Hprop, Hperm.
  repeat split; try assumption.
  - apply (prop_In _ _ _ Hnd) in H. rewrite Hprop in H.
    destruct (List.filter _ issues); [discriminate | congruence].
  - apply (prop_In _ _ _ Hnd) in H. rewrite Hprop in H.
    destruct (List.filter _ issues); [discriminate | congruence].
  - intros [Hne ->]. apply (prop_In _ _ _ Hnd). rewrite Hprop.
    destruct (List.filter _ issues); [contradiction | reflexivity].
Qed.

(** X18.  When the workspace can be read, the checker checks the
    directories named [Pyrrha-...] other than the tools repository, each
    once and in the order of the listing, whether or not the linter has a
    configuration for them: these are the lines [Checking ...] that it
    prints. *)
Theorem checker_examines_every_repository {W : Type} (host : CheckerHost W) (w : W) :
  let workspaceRoot := Checker.WORKSPACE_ROOT host in
  Checker.workspace_readable host workspaceRoot w ->
  exists items,
    readdirSync (node_host host) w workspaceRoot = Some items
    /\ List.filter Checker.is_checking (output (Checker.main host w))
       = map Checker.checking
           (List.filter (Checker.examined host workspaceRoot w) items).
Proof.
  intros workspaceRoot Hok.
  destruct (main_cases host w)
    as [(_ & items & issues & checks & Hitems & Hcollected & ->)
       | (Hno & _)]; [| contradiction].
  exists items. split; [exact Hitems |]. cbn [output].
  destruct (collected_facts host _ _ _ _ _ Hcollected) as (Hchecks & _ & _).
  destruct (report_lines_facts issues) as (Hreport & _).
  rewrite !List.filter_app. fold workspaceRoot.
  rewrite Hchecks, Hreport. rewrite app_nil_r. reflexivity.
Qed.

Lemma checker_examines_every_repository_witness :
  exists items,
    readdirSync (node_host (CheckerFixture.host mixed_workspace)) 0%nat
      (Checker.WORKSPACE_ROOT (CheckerFixture.host mixed_workspace)) = Some items
    /\ List.filter Checker.is_checking
         (output (Checker.main (CheckerFixture.host mixed_workspace) 0%nat))
       = map Checker.checking
           (List.filter
              (Checker.examined (CheckerFixture.host mixed_workspace)
                 (Checker.WORKSPACE_ROOT (CheckerFixture.host mixed_workspace)) 0%nat)
              items).
Proof.
  apply (checker_examines_every_repository (CheckerFixture.host mixed_workspace) 0%nat).
  exact mixed_workspace_readable.
Defined.

(** X19.  When the workspace can be read, the report has one line
    [Not a Git repository] for each checked directory without [.git],
    and no other. *)
Theorem checker_reports_missing_git {W : Type} (host : CheckerHost W) (w : W) :
  let workspaceRoot := Checker.WORKSPACE_ROOT host in
  Checker.workspace_readable host workspaceRoot w ->
  exists items,
    readdirSync (node_host host) w workspaceRoot = Some items
    /\ length (List.filter Checker.is_not_git_line (output (Checker.main host w)))
       = length (List.filter (Checker.without_git host workspaceRoot w)
                   (List.filter (Checker.examined host workspaceRoot w) items)).
Proof.
  intros workspaceRoot Hok.
  destruct (main_cases host w)
    as [(_ & items & issues & checks & Hitems & Hcollected & ->)
       | (Hno & _)]; [| contradiction].
  exists items. split; [exact Hitems |]. cbn [output].
  destruct (collected_facts host _ _ _ _ _ Hcollected) as (_ & Hchecks & Hissues).
  destruct (report_lines_facts issues) as (_ & Hreport).
  rewrite !List.filter_app, !length_app, Hchecks, Hreport, Hissues.
  assert (Hclosing : List.filter Checker.is_not_git_line Checker.closing_lines = [])
    by reflexivity.
  rewrite Hclosing. cbn [List.filter Checker.is_not_git_line length].
  subst workspaceRoot. lia.
Qed.

Lemma checker_reports_missing_git_witness :
  exists items,
    readdirSync (node_host (CheckerFixture.host mixed_workspace)) 0%nat
      (Checker.WORKSPACE_ROOT (CheckerFixture.host mixed_workspace)) = Some items
    /\ length (List.filter Checker.is_not_git_line
                 (output (Checker.main (CheckerFixture.host mixed_workspace) 0%nat)))
       = length
           (List.filter
              (Checker.without_git (CheckerFixture.host mixed_workspace)
                 (Checker.WORKSPACE_ROOT (CheckerFixture.host mixed_workspace)) 0%nat)
              (List.filter
                 (Checker.examined (CheckerFixture.host mixed_workspace)
                    (Checker.WORKSPACE_ROOT (CheckerFixture.host mixed_workspace)) 0%nat)
                 items)).
Proof.
  apply (checker_reports_missing_git (CheckerFixture.host mixed_workspace) 0%nat).
  exact mixed_workspace_readable.
Defined.

(** A [package.json] that holds [null] ends the check with an exception. *)
Example null_package_fails :
  exitCode (Checker.main (CheckerFixture.host null_package) 0%nat) = 1.
Proof. reflexivity. Qed.

(** Issues, one of them an error, leave the status at 0. *)
Example issues_do_not_fail_the_check :
  let outcome := Checker.main (CheckerFixture.host mixed_workspace) 0%nat in
  exitCode outcome = 0
  /\ In (EvLog Error "  ❌ Not a Git repository") (output outcome).
Proof. split; [reflexivity |]. vm_compute. tauto. Qed.
